(** * ksck: the cluster consistency checker of Kudu

    A shallow embedding of [src/kudu/tools/ksck.cc] and the properties of
    its fleet fetcher, metadata verifier and checksum orchestrator.

    Conventions of the embedding:
    - a process abort ([CHECK], [CHECK_EQ], [FindOrDie], [InsertOrDie],
      an uncaught [std::out_of_range]) is the [Die] outcome;
    - [std::unordered_map] is a [gmap] for its contents, together with an
      iteration order that the standard library is free to choose
      ([umap_order], any permutation of the entries);
    - a [shared_ptr] to a tablet server is identified with the key of the
      server in the tablet-server directory, a [shared_ptr] to a tablet
      with its position in the table list (the master client allocates one
      object per entity);
    - the [int] counters count elements of in-memory containers and are
      natural numbers here, which is exact below 2^31 elements;
    - what is written to [cout] and to the error stream is the list of
      lines a function returns with its result. *)

From Stdlib Require Import ZArith Lia Ascii.
From stdpp Require Import base option list gmap strings fin_maps pretty.

Set Default Proof Using "Type".

(** ** Outcomes of fallible code *)

Inductive outcome (A : Type) : Type :=
  | Ret (a : A)
  | Die (why : string).
Arguments Ret {A} a.
Arguments Die {A} why.

#[global] Instance outcome_ret : MRet outcome := λ A a, Ret a.
#[global] Instance outcome_bind : MBind outcome := λ A B f m,
  match m with
  | Ret a => f a
  | Die why => Die why
  end.

#[global] Instance outcome_fmap : FMap outcome := λ A B f m,
  match m with
  | Ret a => Ret (f a)
  | Die why => Die why
  end.

(** A loop whose body may abort: [for (x : xs) acc = body(acc, x)]. *)
Fixpoint for_each {A S} (body : S → A → outcome S) (xs : list A) (acc : S)
  : outcome S :=
  match xs with
  | [] => Ret acc
  | x :: xs' => acc' ← body acc x; for_each body xs' acc'
  end.

(** ** Status (kudu/util/status.h) *)

(** Modelled from the spec: the status kinds of the error taxonomy (section
    7); [kudu::Status] itself is declared in kudu/util/status.h, which is
    not part of the sources at hand.  A status is a code and a message. *)
Inductive StatusCode : Set :=
  | kOk | kNotFound | kCorruption | kNetworkError | kServiceUnavailable
  | kTimedOut | kAborted | kRuntimeError | kIllegalState | kRemoteError.

#[global] Instance StatusCode_eq_dec : EqDecision StatusCode.
Proof. solve_decision. Defined.

Record Status : Set := mkStatus { code : StatusCode; message : string }.

#[global] Instance Status_eq_dec : EqDecision Status.
Proof. solve_decision. Defined.

Definition Status_OK : Status := mkStatus kOk "".
Definition NotFound (msg : string) : Status := mkStatus kNotFound msg.
Definition Corruption (msg : string) : Status := mkStatus kCorruption msg.
Definition NetworkError (msg : string) : Status := mkStatus kNetworkError msg.
Definition ServiceUnavailable (msg : string) : Status :=
  mkStatus kServiceUnavailable msg.
Definition TimedOut (msg : string) : Status := mkStatus kTimedOut msg.
Definition Aborted (msg : string) : Status := mkStatus kAborted msg.

(** [Status::ok()]. *)
Definition ok (s : Status) : bool := bool_decide (code s = kOk).

(** ** Output *)

Inductive line : Set :=
  | Cout (s : string)   (* cout << s << endl *)
  | Cerr (s : string).  (* Out() << s << endl *)

Definition Info (s : string) : line := Cerr ("INFO: " +:+ s).
Definition Warn (s : string) : line := Cerr ("WARNING: " +:+ s).
Definition Error (s : string) : line := Cerr ("ERROR: " +:+ s).

Definition newline : string := String (Ascii.ascii_of_nat 10) EmptyString.

(** [JoinStrings(components, delim)]. *)
Fixpoint JoinStrings (components : list string) (delim : string) : string :=
  match components with
  | [] => ""
  | [c] => c
  | c :: rest => c +:+ delim +:+ JoinStrings rest delim
  end.

(** ** The cluster snapshot (kudu/tools/ksck.h) *)

(** Modelled from the spec: the per-tablet states of section 3
    ([tablet::TabletStatePB] is generated from a .proto file that is not
    part of the sources at hand); [OTHER_STATE] stands for the states the
    spec leaves unnamed. *)
Inductive TabletStatePB : Set :=
  | UNKNOWN | BOOTSTRAPPING | RUNNING | STOPPED | FAILED | TOMBSTONED
  | OTHER_STATE (tag : Z).

#[global] Instance TabletStatePB_eq_dec : EqDecision TabletStatePB.
Proof. solve_decision. Defined.

(** [tablet::TabletStatusPB], as far as ksck reads it; the data state is
    the number of its enumerator. *)
Record TabletStatusPB : Set := {
  state : TabletStatePB;
  last_status : string;
  tablet_data_state : Z
}.

Inductive FetchState : Set := kUninitialized | kFetchFailed | kFetched.

#[global] Instance FetchState_eq_dec : EqDecision FetchState.
Proof. solve_decision. Defined.

Record KsckTabletServer : Type := {
  uuid : string;
  address : string;
  state_ : FetchState;
  tablet_status_map_ : gmap string TabletStatusPB;
  timestamp_ : N            (* uint64_t *)
}.

(** Modelled from the spec: [is_healthy] holds exactly when the fetch
    status is FETCHED (section 3); the method is declared in ksck.h. *)
Definition is_healthy (ts : KsckTabletServer) : bool :=
  bool_decide (state_ ts = kFetched).

Definition current_timestamp (ts : KsckTabletServer) : N := timestamp_ ts.

Record KsckTabletReplica : Set := {
  ts_uuid : string;
  is_leader : bool;
  is_follower : bool
}.

(** [tablet_table_name] is [table()->name()], the back-reference of the
    tablet resolved. *)
Record KsckTablet : Set := {
  tablet_id : string;
  replicas : list KsckTabletReplica;
  tablet_table_name : string
}.

(** Modelled from the spec: the schema is an opaque blob that is forwarded
    to the tablet server when a scan starts (section 3). *)
Definition Schema : Set := string.

Record KsckTable : Set := {
  table_name : string;
  table_schema : Schema;
  num_replicas : Z;          (* int *)
  tablets : list KsckTablet
}.

Record KsckCluster : Type := {
  tables : list KsckTable;
  tablet_servers : gmap string KsckTabletServer
}.

Record Ksck : Type := {
  cluster_ : KsckCluster;
  table_filters_ : list string;
  tablet_id_filters_ : list string;
  check_replica_count_ : bool
}.

(** [MonoDelta], in nanoseconds. *)
Definition MonoDelta : Set := Z.

Record ChecksumOptions : Set := {
  timeout : MonoDelta;
  scan_concurrency : Z;      (* int *)
  use_snapshot : bool;
  snapshot_timestamp : N     (* uint64_t *)
}.

Definition kCurrentTimestamp : N := 0%N.

(** ** What ksck.cc takes from other translation units *)

(** Functions that ksck.cc calls and whose code lives elsewhere.  The
    development is parametric in them.  [umap_order] is the order in which
    a [std::unordered_map] hands out its entries: some permutation of
    them, the same one each time an unmodified map is iterated. *)
Class Externals : Type := {
  MatchPattern : string → string → bool;
  TabletStatePB_Name : TabletStatePB → string;
  TabletDataState_Name : Z → string;
  Status_ToString : Status → string;
  MonoDelta_ToString : MonoDelta → string;
  KsckTabletServer_ToString : KsckTabletServer → string;
  umap_order : ∀ A : Type, list A → list A;
  umap_order_perm : ∀ (A : Type) (l : list A), umap_order A l ≡ₚ l
}.
Arguments umap_order {_ _} _.

(** The entries of an unordered map in iteration order. *)
Definition umap_entries {ext : Externals} {V} (m : gmap string V)
  : list (string * V) :=
  umap_order (map_to_list m).

(** Modelled from the spec: [consensus::MajoritySize(R)] is ⌊R/2⌋ + 1
    (section 4.3, step 5, and the glossary); the function is declared in
    kudu/consensus/quorum_util.h. *)
Definition MajoritySize (num_voters : Z) : Z := (num_voters / 2 + 1)%Z.

(** A [size_t] compared with an [int]: the [int] is converted to the
    unsigned 64-bit type first. *)
Definition size_t_of_int (i : Z) : Z := (i mod 2 ^ 64)%Z.

Section Ksck.
Context {ext : Externals}.

(** ** MatchesAnyPattern (ksck.cc:88) *)

Definition MatchesAnyPattern (patterns : list string) (str : string) : bool :=
  match patterns with
  | [] => true
  | _ => existsb (λ p, MatchPattern str p) patterns
  end.

(** ** KsckTabletServer::ReplicaState (ksck.cc:115) *)

Definition ReplicaState (ts : KsckTabletServer) (tablet_id : string)
  : outcome TabletStatePB :=
  if decide (state_ ts = kFetched) then
    match tablet_status_map_ ts !! tablet_id with
    | None => Ret UNKNOWN
    | Some status_pb => Ret (state status_pb)
    end
  else Die "CHECK_EQ(state_, kFetched)".

(** [map.at(key)]: an absent key raises [std::out_of_range], which nothing
    catches. *)
Definition map_at {V} (m : gmap string V) (key : string) : outcome V :=
  match m !! key with
  | Some v => Ret v
  | None => Die "std::out_of_range"
  end.

(** [FindOrDie(map, key)]. *)
Definition FindOrDie {V} (m : gmap string V) (key : string) : outcome V :=
  match m !! key with
  | Some v => Ret v
  | None => Die "FindOrDie: key not found"
  end.

(** ** Ksck::VerifyTablet (ksck.cc:567) *)

(** The local variables of [VerifyTablet]. *)
Record TabletReport : Set := {
  warnings : list string;
  errors : list string;
  infos : list string;
  leaders_count : nat;
  followers_count : nat;
  alive_count : nat;
  running_count : nat
}.

Definition add_warning (r : TabletReport) (s : string) : TabletReport :=
  {| warnings := warnings r ++ [s]; errors := errors r; infos := infos r;
     leaders_count := leaders_count r; followers_count := followers_count r;
     alive_count := alive_count r; running_count := running_count r |}.

Definition add_error (r : TabletReport) (s : string) : TabletReport :=
  {| warnings := warnings r; errors := errors r ++ [s]; infos := infos r;
     leaders_count := leaders_count r; followers_count := followers_count r;
     alive_count := alive_count r; running_count := running_count r |}.

Definition add_info (r : TabletReport) (s : string) : TabletReport :=
  {| warnings := warnings r; errors := errors r; infos := infos r ++ [s];
     leaders_count := leaders_count r; followers_count := followers_count r;
     alive_count := alive_count r; running_count := running_count r |}.

Definition incr_leaders (r : TabletReport) : TabletReport :=
  {| warnings := warnings r; errors := errors r; infos := infos r;
     leaders_count := S (leaders_count r);
     followers_count := followers_count r;
     alive_count := alive_count r; running_count := running_count r |}.

Definition incr_followers (r : TabletReport) : TabletReport :=
  {| warnings := warnings r; errors := errors r; infos := infos r;
     leaders_count := leaders_count r;
     followers_count := S (followers_count r);
     alive_count := alive_count r; running_count := running_count r |}.

Definition incr_alive (r : TabletReport) : TabletReport :=
  {| warnings := warnings r; errors := errors r; infos := infos r;
     leaders_count := leaders_count r; followers_count := followers_count r;
     alive_count := S (alive_count r); running_count := running_count r |}.

Definition incr_running (r : TabletReport) : TabletReport :=
  {| warnings := warnings r; errors := errors r; infos := infos r;
     leaders_count := leaders_count r; followers_count := followers_count r;
     alive_count := alive_count r; running_count := S (running_count r) |}.

(** [Substitute("Tablet $0 of table '$1'", ...)]. *)
Definition tablet_str (tablet : KsckTablet) : string :=
  "Tablet " +:+ tablet_id tablet +:+ " of table '"
  +:+ tablet_table_name tablet +:+ "'".

Definition unavailable_warning (who : string) : string :=
  "Should have a replica on TS " +:+ who +:+ ", but TS is unavailable".

Definition bad_state_warning (ts : KsckTabletServer) (st : TabletStatePB)
    (status_pb : TabletStatusPB) : string :=
  "Bad state on TS " +:+ KsckTabletServer_ToString ts +:+ ": "
  +:+ TabletStatePB_Name st +:+ newline
  +:+ "  Last status: " +:+ last_status status_pb +:+ newline
  +:+ "  Data state:  "
  +:+ TabletDataState_Name (tablet_data_state status_pb).

(** The body of the loop over the replicas (ksck.cc:580-632). *)
Definition VerifyTablet_replica (k : Ksck) (tablet : KsckTablet)
    (r : TabletReport) (replica : KsckTabletReplica) : outcome TabletReport :=
  r1 ←
    match tablet_servers (cluster_ k) !! ts_uuid replica with
    | Some ts =>
        if is_healthy ts then
          let r := incr_alive r in
          st ← ReplicaState ts (tablet_id tablet);
          match st with
          | RUNNING =>
              Ret (add_info (incr_running r)
                     ("OK state on TS " +:+ KsckTabletServer_ToString ts
                      +:+ ": " +:+ TabletStatePB_Name st))
          | UNKNOWN =>
              Ret (add_warning r
                     ("Missing a tablet replica on tablet server "
                      +:+ KsckTabletServer_ToString ts))
          | _ =>
              status_pb ← map_at (tablet_status_map_ ts) (tablet_id tablet);
              Ret (add_warning r (bad_state_warning ts st status_pb))
          end
        else
          Ret (add_warning r
                 (unavailable_warning (KsckTabletServer_ToString ts)))
    | None => Ret (add_warning r (unavailable_warning (ts_uuid replica)))
    end;
  Ret (if is_leader replica then incr_leaders r1
       else if is_follower replica then incr_followers r1
       else r1).

Definition replica_count_warning (tablet : KsckTablet)
    (table_num_replicas : Z) : string :=
  tablet_str tablet +:+ " has " +:+ pretty (length (replicas tablet))
  +:+ " instead of " +:+ pretty table_num_replicas +:+ " replicas".

Definition no_leader_error : string := "No leader detected".

Definition no_live_majority_error (tablet : KsckTablet) : string :=
  tablet_str tablet
  +:+ " does not have a majority of replicas on live tablet servers".

Definition no_running_majority_error (tablet : KsckTablet) : string :=
  tablet_str tablet
  +:+ " does not have a majority of replicas in RUNNING state".

(** The report before it is printed (ksck.cc:568-579): the replica-count
    check. *)
Definition VerifyTablet_init (k : Ksck) (tablet : KsckTablet)
    (table_num_replicas : Z) : TabletReport :=
  {| warnings :=
       if check_replica_count_ k
          && negb (bool_decide (Z.of_nat (length (replicas tablet))
                                = size_t_of_int table_num_replicas))
       then [replica_count_warning tablet table_num_replicas] else [];
     errors := []; infos := [];
     leaders_count := 0; followers_count := 0;
     alive_count := 0; running_count := 0 |}.

(** The leader and majority checks (ksck.cc:633-645). *)
Definition VerifyTablet_checks (tablet : KsckTablet) (table_num_replicas : Z)
    (r : TabletReport) : TabletReport :=
  let r := if bool_decide (leaders_count r = 0)
           then add_error r no_leader_error else r in
  let majority_size := MajoritySize table_num_replicas in
  if bool_decide (Z.of_nat (alive_count r) < majority_size)%Z then
    add_error r (no_live_majority_error tablet)
  else if bool_decide (Z.of_nat (running_count r) < majority_size)%Z then
    add_error r (no_running_majority_error tablet)
  else r.

(** Everything [VerifyTablet] computes before it prints (ksck.cc:568-645). *)
Definition VerifyTablet_report (k : Ksck) (tablet : KsckTablet)
    (table_num_replicas : Z) : outcome TabletReport :=
  r ← for_each (VerifyTablet_replica k tablet) (replicas tablet)
        (VerifyTablet_init k tablet table_num_replicas);
  Ret (VerifyTablet_checks tablet table_num_replicas r).

Definition has_issues (r : TabletReport) : bool :=
  negb (bool_decide (warnings r = [])) || negb (bool_decide (errors r = [])).

Definition dashes60 : string :=
  "------------------------------------------------------------".

(** What is printed for a tablet (ksck.cc:647-663). *)
Definition VerifyTablet_print (tablet : KsckTablet) (r : TabletReport)
  : list line :=
  if has_issues r then
    [Warn ("Detected problems with " +:+ tablet_str tablet); Cerr dashes60]
    ++ (Warn <$> warnings r)
    ++ (Error <$> errors r)
    ++ (Info <$> infos r)
    ++ [Cerr ""]
  else [].

Definition VerifyTablet (k : Ksck) (tablet : KsckTablet)
    (table_num_replicas : Z) : outcome (bool * list line) :=
  r ← VerifyTablet_report k tablet table_num_replicas;
  Ret (negb (has_issues r), VerifyTablet_print tablet r).

(** ** Ksck::VerifyTable (ksck.cc:534) *)

Definition VerifyTable (k : Ksck) (table : KsckTable)
  : outcome (bool * list line) :=
  let matching :=
    List.filter (λ t, MatchesAnyPattern (tablet_id_filters_ k) (tablet_id t))
                (tablets table) in
  match matching with
  | [] =>
      Ret (true,
           [Info ("Table " +:+ table_name table +:+ " has 0 matching tablets")])
  | _ =>
      let table_num_replicas := num_replicas table in
      acc ← for_each
               (λ (acc : nat * list line) tablet,
                  '(good, out) ← VerifyTablet k tablet table_num_replicas;
                  Ret (if good : bool then acc.1 else S acc.1, acc.2 ++ out))
               matching (0, []);
      let bad_tablets_count := acc.1 in
      if bool_decide (bad_tablets_count = 0) then
        Ret (true,
             acc.2 ++ [Info ("Table " +:+ table_name table +:+ " is HEALTHY ("
                             +:+ pretty (length matching)
                             +:+ " tablets checked)")])
      else
        Ret (false,
             acc.2 ++ [Warn ("Table " +:+ table_name table +:+ " has "
                             +:+ pretty bad_tablets_count +:+ " bad tablets")])
  end.

(** ** Ksck::CheckTablesConsistency (ksck.cc:212) *)

Record TablesTally : Set := {
  tables_checked : nat;
  bad_tables_count : nat;
  tables_output : list line
}.

Definition CheckTablesConsistency_table (k : Ksck) (acc : TablesTally)
    (table : KsckTable) : outcome TablesTally :=
  if negb (MatchesAnyPattern (table_filters_ k) (table_name table)) then
    Ret acc
  else
    '(good, out) ← VerifyTable k table;
    Ret {| tables_checked := S (tables_checked acc);
           bad_tables_count :=
             if good : bool then bad_tables_count acc
             else S (bad_tables_count acc);
           tables_output := tables_output acc ++ out |}.

Definition CheckTablesConsistency (k : Ksck) : outcome (Status * list line) :=
  acc ← for_each (CheckTablesConsistency_table k) (tables (cluster_ k))
          {| tables_checked := 0; bad_tables_count := 0;
             tables_output := [] |};
  if bool_decide (tables_checked acc = 0) then
    Ret (Status_OK,
         tables_output acc
         ++ [Info "The cluster doesn't have any matching tables"])
  else if bool_decide (bad_tables_count acc = 0) then
    Ret (Status_OK,
         tables_output acc
         ++ [Info ("The metadata for " +:+ pretty (tables_checked acc)
                   +:+ " table(s) is HEALTHY")])
  else
    Ret (Corruption (pretty (bad_tables_count acc) +:+ " table(s) are bad"),
         tables_output acc
         ++ [Warn (pretty (bad_tables_count acc) +:+ " out of "
                   +:+ pretty (tables_checked acc)
                   +:+ " table(s) are not in a healthy state")]).

(** ** Ksck::FetchInfoFromTabletServers (ksck.cc:163) *)

(** What the fetch phase gets from outside: the status of
    [ThreadPoolBuilder::Build], and for each server the status that its
    [FetchInfo] returns together with the server as [FetchInfo] leaves it. *)
Record FetchEnv : Type := {
  pool_build : Status;
  FetchInfo : KsckTabletServer → Status * KsckTabletServer
}.

(** Modelled from the spec: [FetchInfo] moves the server to FETCHED when it
    succeeds and to the failed state when it does not (section 4.2, step
    4), and keeps its identity; its code is in the RPC client, outside
    ksck.cc. *)
Definition FetchInfo_contract (env : FetchEnv) : Prop :=
  ∀ ts, uuid (FetchInfo env ts).2 = uuid ts
        ∧ (if ok (FetchInfo env ts).1
           then state_ (FetchInfo env ts).2 = kFetched
           else state_ (FetchInfo env ts).2 = kFetchFailed).

(** Ksck::ConnectToTabletServer (ksck.cc:200). *)
Definition ConnectToTabletServer (env : FetchEnv) (ts : KsckTabletServer)
  : Status * KsckTabletServer * list line :=
  let '(s, ts') := FetchInfo env ts in
  (s, ts',
   if ok s then []
   else [Warn ("Unable to connect to Tablet Server "
               +:+ KsckTabletServer_ToString ts' +:+ ": "
               +:+ Status_ToString s)]).

Record FetchTally : Type := {
  bad_servers : nat;
  fetched_servers : gmap string KsckTabletServer;
  fetch_output : list line
}.

(** One task of the pool.  The tasks write to different servers and to an
    atomic counter, so the snapshot and the count do not depend on how the
    workers interleave; they are run here in the order of submission. *)
Definition fetch_task (env : FetchEnv) (acc : FetchTally)
    (entry : string * KsckTabletServer) : FetchTally :=
  let '(s, ts', out) := ConnectToTabletServer env entry.2 in
  {| bad_servers := if ok s then bad_servers acc else S (bad_servers acc);
     fetched_servers := <[entry.1 := ts']> (fetched_servers acc);
     fetch_output := fetch_output acc ++ out |}.

Definition FetchInfoFromTabletServers (env : FetchEnv) (cluster : KsckCluster)
  : Status * KsckCluster * list line :=
  let servers_count := size (tablet_servers cluster) in
  if bool_decide (servers_count = 0) then
    (NotFound "No tablet servers found", cluster, [])
  else if negb (ok (pool_build env)) then
    (pool_build env, cluster, [])
  else
    let acc := foldl (fetch_task env)
                 {| bad_servers := 0;
                    fetched_servers := tablet_servers cluster;
                    fetch_output := [] |}
                 (umap_entries (tablet_servers cluster)) in
    let cluster' := {| tables := tables cluster;
                       tablet_servers := fetched_servers acc |} in
    if bool_decide (bad_servers acc = 0) then
      (Status_OK, cluster',
       fetch_output acc
       ++ [Info ("Fetched info from all " +:+ pretty servers_count
                 +:+ " Tablet Servers")])
    else
      (NetworkError "Not all Tablet Servers are reachable", cluster',
       fetch_output acc
       ++ [Warn ("Fetched info from "
                 +:+ pretty (servers_count - bad_servers acc)
                 +:+ " Tablet Servers, " +:+ pretty (bad_servers acc)
                 +:+ " weren't reachable")]).

(** ** ChecksumResultReporter (ksck.cc:243) *)

Abbreviation ReplicaResultMap := (gmap string (Status * N)).
Abbreviation TabletResultMap := (gmap string (gmap string (Status * N))).

(** [responses_] is the count of the latch. *)
Record ChecksumResultReporter : Type := {
  expected_count_ : nat;
  responses_ : nat;
  checksums_ : TabletResultMap;
  rows_summed_ : Z;          (* AtomicInt<int64_t> *)
  disk_bytes_summed_ : Z     (* AtomicInt<int64_t> *)
}.

Definition new_reporter (num_tablet_replicas : nat) : ChecksumResultReporter :=
  {| expected_count_ := num_tablet_replicas;
     responses_ := num_tablet_replicas;
     checksums_ := ∅; rows_summed_ := 0; disk_bytes_summed_ := 0 |}.

(** Two's complement addition of 64-bit counters. *)
Definition int64_add (a b : Z) : Z :=
  ((a + b + 2 ^ 63) mod 2 ^ 64 - 2 ^ 63)%Z.

Definition ReportProgress (r : ChecksumResultReporter)
    (delta_rows delta_bytes : Z) : ChecksumResultReporter :=
  {| expected_count_ := expected_count_ r; responses_ := responses_ r;
     checksums_ := checksums_ r;
     rows_summed_ := int64_add (rows_summed_ r) delta_rows;
     disk_bytes_summed_ := int64_add (disk_bytes_summed_ r) delta_bytes |}.

(** [LookupOrInsert] of the tablet's map, [InsertOrDie] of the replica's
    result, then [CountDown], which stops at zero. *)
Definition ReportResult (r : ChecksumResultReporter)
    (tablet_id replica_uuid : string) (status : Status) (checksum : N)
  : outcome ChecksumResultReporter :=
  let replica_results := default ∅ (checksums_ r !! tablet_id) in
  match replica_results !! replica_uuid with
  | Some _ => Die "InsertOrDie: duplicate key"
  | None =>
      Ret {| expected_count_ := expected_count_ r;
             responses_ := Nat.pred (responses_ r);
             checksums_ :=
               <[tablet_id := <[replica_uuid := (status, checksum)]>
                                replica_results]> (checksums_ r);
             rows_summed_ := rows_summed_ r;
             disk_bytes_summed_ := disk_bytes_summed_ r |}
  end.

(** ** The scheduler of the scans (ksck.cc:331-376, 410-464) *)

(** A queue of the map [tablet_server_queues], with the server that is the
    key of its entry. *)
Record ServerQueue : Type := {
  queue_server : KsckTabletServer;
  queue_items : list (Schema * string)
}.

Abbreviation TabletServerQueueMap := (gmap string ServerQueue).

(** One call of [RunTabletChecksumScanAsync]. *)
Record ScanCall : Set := {
  scan_server : string;
  scan_tablet_id : string;
  scan_schema : Schema;
  scan_options : ChecksumOptions
}.

(** A live [TabletServerChecksumCallbacks] object: its server, the key of
    its queue, the tablet it is scanning, and where the thread that runs
    its [Finished] stands: [cb_reported] holds from the return of
    [ReportResult] (ksck.cc:357) until the queue is asked for the next
    tablet (ksck.cc:360). *)
Record TabletServerChecksumCallbacks : Type := {
  cb_tablet_server : KsckTabletServer;
  cb_queue : string;
  cb_tablet_id : string;
  cb_reported : bool
}.

Record ScanState : Type := {
  reporter : ChecksumResultReporter;
  tablet_server_queues : TabletServerQueueMap;
  in_flight : list TabletServerChecksumCallbacks;
  scans : list ScanCall
}.

(** [BlockingGet] on a queue that was shut down: the head, or [false] when
    the queue is empty. *)
Definition BlockingGet (queues : TabletServerQueueMap) (key : string)
  : option ((Schema * string) * TabletServerQueueMap) :=
  match queues !! key with
  | Some q =>
      match queue_items q with
      | item :: rest =>
          Some (item, <[key := {| queue_server := queue_server q;
                                  queue_items := rest |}]> queues)
      | [] => None
      end
  | None => None
  end.

Definition scan_call (ts : KsckTabletServer) (item : Schema * string)
    (options : ChecksumOptions) : ScanCall :=
  {| scan_server := uuid ts; scan_tablet_id := item.2;
     scan_schema := item.1; scan_options := options |}.

(** [TabletServerChecksumCallbacks::Finished] (ksck.cc:356) runs on a
    thread of the client of the tablet server, beside the thread of
    [ChecksumData] and the other callbacks.  [ReportResult] holds the lock
    of the reporter and [BlockingGet] the lock of the queue, but nothing
    spans the two: other threads can run in between.  [Finished] is
    therefore two steps.

    The first step is the call of [ReportResult] (ksck.cc:357), for the
    callbacks object at position [i]; a position that holds no object, or
    an object whose scan has reported already, is a call that cannot
    happen. *)
Definition Finished_report (i : nat) (status : Status) (checksum : N)
    (st : ScanState) : outcome ScanState :=
  match in_flight st !! i with
  | None => Ret st
  | Some cb =>
      if cb_reported cb then Ret st
      else
        rep ← ReportResult (reporter st) (cb_tablet_id cb)
                (uuid (cb_tablet_server cb)) status checksum;
        Ret {| reporter := rep;
               tablet_server_queues := tablet_server_queues st;
               in_flight :=
                 <[i := {| cb_tablet_server := cb_tablet_server cb;
                           cb_queue := cb_queue cb;
                           cb_tablet_id := cb_tablet_id cb;
                           cb_reported := true |}]>
                   (in_flight st);
               scans := scans st |}
  end.

(** The second step is the rest of [Finished] (ksck.cc:359-366): the next
    tablet of the queue is scanned, or the object deletes itself; only an
    object that has reported takes it. *)
Definition Finished_next (options : ChecksumOptions) (i : nat)
    (st : ScanState) : ScanState :=
  match in_flight st !! i with
  | None => st
  | Some cb =>
      if cb_reported cb then
        match BlockingGet (tablet_server_queues st) (cb_queue cb) with
        | Some (table_tablet, queues) =>
            {| reporter := reporter st; tablet_server_queues := queues;
               in_flight :=
                 <[i := {| cb_tablet_server := cb_tablet_server cb;
                           cb_queue := cb_queue cb;
                           cb_tablet_id := table_tablet.2;
                           cb_reported := false |}]>
                   (in_flight st);
               scans := scans st
                        ++ [scan_call (cb_tablet_server cb) table_tablet
                              options] |}
        | None =>
            {| reporter := reporter st;
               tablet_server_queues := tablet_server_queues st;
               in_flight := delete i (in_flight st);
               scans := scans st |}
        end
      else st
  end.

(** [Finished] when no other thread runs between its two steps. *)
Definition Finished (options : ChecksumOptions) (i : nat) (status : Status)
    (checksum : N) (st : ScanState) : outcome ScanState :=
  st' ← Finished_report i status checksum st;
  Ret (Finished_next options i st').

(** [TabletServerChecksumCallbacks::Progress] (ksck.cc:352), which the
    client calls while the scan is in flight. *)
Definition Progress (i : nat) (rows_summed disk_bytes_summed : Z)
    (st : ScanState) : ScanState :=
  match in_flight st !! i with
  | None => st
  | Some cb =>
      if cb_reported cb then st
      else
        {| reporter :=
             ReportProgress (reporter st) rows_summed disk_bytes_summed;
           tablet_server_queues := tablet_server_queues st;
           in_flight := in_flight st; scans := scans st |}
  end.

(** The steps of the callbacks: the client of a tablet server calls
    [Progress] or [Finished] for a scan in flight, and a thread that is in
    [Finished] goes on after [ReportResult]. *)
Inductive scan_event : Set :=
  | ev_Progress (cb : nat) (rows_summed disk_bytes_summed : Z)
  | ev_Finished (cb : nat) (status : Status) (checksum : N)
  | ev_Finished_next (cb : nat).

Definition scan_step (options : ChecksumOptions) (st : ScanState)
    (ev : scan_event) : outcome ScanState :=
  match ev with
  | ev_Progress i rows bytes => Ret (Progress i rows bytes st)
  | ev_Finished i status checksum => Finished_report i status checksum st
  | ev_Finished_next i => Ret (Finished_next options i st)
  end.

(** What the checksum phase gets from outside: the steps of the callbacks
    that run while the scans are being started, a batch after each
    iteration of the loop that starts them; the steps that run from then
    until [WaitFor] returns; whether the deadline passed before [WaitFor]
    saw the latch at zero; the steps that run between the return of
    [WaitFor] and the copy of the results; and the progress lines of
    [WaitFor], which depend on the clock. *)
Record ScanEnv : Set := {
  events_while_starting : list (list scan_event);
  events_while_waiting : list scan_event;
  deadline_passed : bool;
  events_before_copy : list scan_event;
  wait_progress : list line
}.

(** [ChecksumResultReporter::WaitFor] (ksck.cc:279): [true] only when the
    latch is at zero.  The clock is outside: [deadline_passed] says that
    the loop found [rem_ms <= 0] (ksck.cc:288-290) before it saw the latch
    at zero, whatever the timeout is. *)
Definition WaitFor (env : ScanEnv) (r : ChecksumResultReporter) : bool :=
  bool_decide (responses_ r = 0) && negb (deadline_passed env).

(** ** Ksck::ChecksumData (ksck.cc:378) *)

(** The selection of the tablets (ksck.cc:385-395): the entries of
    [tablet_table_map] in the order of insertion, and
    [num_tablet_replicas]. *)
Definition ChecksumData_select (k : Ksck)
  : list (KsckTablet * KsckTable) * nat :=
  foldl
    (λ acc table,
       if negb (MatchesAnyPattern (table_filters_ k) (table_name table))
       then acc
       else
         foldl
           (λ (acc : list (KsckTablet * KsckTable) * nat) tablet,
              if negb (MatchesAnyPattern (tablet_id_filters_ k)
                         (tablet_id tablet))
              then acc
              else (acc.1 ++ [(tablet, table)],
                    acc.2 + length (replicas tablet)))
           acc (tablets table))
    ([], 0) (tables (cluster_ k)).

(** The message of the NotFound status (ksck.cc:397-406). *)
Definition no_replicas_message (k : Ksck) : string :=
  let nonempty (l : list string) := negb (bool_decide (l = [])) in
  "No tablet replicas found."
  +:+ (if nonempty (table_filters_ k) || nonempty (tablet_id_filters_ k) then
         " Filter: "
         +:+ (if nonempty (table_filters_ k)
              then "table_filters=" +:+ JoinStrings (table_filters_ k) ","
              else "")
         +:+ (if nonempty (tablet_id_filters_ k)
              then "tablet_id_filters="
                   +:+ JoinStrings (tablet_id_filters_ k) ","
              else "")
       else "").

(** One replica is put on the queue of its server (ksck.cc:421-426); the
    queues hold at most [num_tablet_replicas] items each. *)
Definition enqueue_replica (k : Ksck) (num_tablet_replicas : nat)
    (tablet : KsckTablet) (table : KsckTable)
    (queues : TabletServerQueueMap) (replica : KsckTabletReplica)
  : outcome TabletServerQueueMap :=
  ts ← FindOrDie (tablet_servers (cluster_ k)) (ts_uuid replica);
  let queue := default {| queue_server := ts; queue_items := [] |}
                       (queues !! ts_uuid replica) in
  if bool_decide (length (queue_items queue) < num_tablet_replicas) then
    Ret (<[ts_uuid replica :=
             {| queue_server := queue_server queue;
                queue_items := queue_items queue
                               ++ [(table_schema table, tablet_id tablet)] |}]>
           queues)
  else Die "CHECK_EQ(QUEUE_SUCCESS, queue->Put(...))".

(** The queues of all selected tablets (ksck.cc:417-428). *)
Definition ChecksumData_enqueue (k : Ksck) (num_tablet_replicas : nat)
    (tablet_table_map : list (KsckTablet * KsckTable))
  : outcome TabletServerQueueMap :=
  for_each
    (λ queues entry,
       for_each (enqueue_replica k num_tablet_replicas entry.1 entry.2)
                (replicas entry.1) queues)
    (umap_order tablet_table_map) ∅.

Definition with_snapshot_timestamp (options : ChecksumOptions) (t : N)
  : ChecksumOptions :=
  {| timeout := timeout options; scan_concurrency := scan_concurrency options;
     use_snapshot := use_snapshot options; snapshot_timestamp := t |}.

(** The snapshot timestamp (ksck.cc:430-444): the options to scan with and
    the line that is logged, or the status to return. *)
Definition ChecksumData_timestamp (options : ChecksumOptions)
    (queues : TabletServerQueueMap)
  : Status + ChecksumOptions * list line :=
  if use_snapshot options
     && bool_decide (snapshot_timestamp options = kCurrentTimestamp) then
    let options :=
      match List.find (λ ts, is_healthy (queue_server ts.2))
                      (umap_entries queues) with
      | Some ts =>
          with_snapshot_timestamp options
            (current_timestamp (queue_server ts.2))
      | None => options
      end in
    if bool_decide (snapshot_timestamp options = kCurrentTimestamp) then
      inl (ServiceUnavailable
             "No tablet servers were available to fetch the current timestamp")
    else
      inr (options,
           [Info ("Using snapshot timestamp: "
                  +:+ pretty (snapshot_timestamp options))])
  else inr (options, []).

(** One iteration of the loop that starts the scans of a server
    (ksck.cc:454-462). *)
Definition start_scan (options : ChecksumOptions) (key : string)
    (tablet_server : KsckTabletServer) (st : ScanState) : ScanState :=
  match BlockingGet (tablet_server_queues st) key with
  | Some (table_tablet, queues) =>
      {| reporter := reporter st; tablet_server_queues := queues;
         in_flight :=
           in_flight st
           ++ [{| cb_tablet_server := tablet_server; cb_queue := key;
                  cb_tablet_id := table_tablet.2; cb_reported := false |}];
         scans := scans st
                  ++ [scan_call tablet_server table_tablet options] |}
  | None => st
  end.

(** The loop [for (int i = 0; i < options.scan_concurrency; i++)] for one
    server (ksck.cc:453-463), [n] iterations from now; after each
    iteration the callbacks of the next batch run. *)
Fixpoint kick_off_server (options : ChecksumOptions) (key : string)
    (tablet_server : KsckTabletServer) (n : nat)
    (acc : ScanState * list (list scan_event))
  : outcome (ScanState * list (list scan_event)) :=
  match n with
  | 0 => Ret acc
  | S n' =>
      st ← for_each (scan_step options) (default [] (head acc.2))
             (start_scan options key tablet_server acc.1);
      kick_off_server options key tablet_server n' (st, tail acc.2)
  end.

(** The start of the scans (ksck.cc:449-464). *)
Definition ChecksumData_kick_off (options : ChecksumOptions)
    (queues : TabletServerQueueMap) (rep : ChecksumResultReporter)
    (batches : list (list scan_event)) : outcome ScanState :=
  acc ← for_each
          (λ (acc : ScanState * list (list scan_event)) entry,
             kick_off_server options entry.1 (queue_server entry.2)
               (Z.to_nat (scan_concurrency options)) acc)
          (umap_entries queues)
          ({| reporter := rep; tablet_server_queues := queues;
              in_flight := []; scans := [] |}, batches);
  Ret acc.1.

(** The counters of the result loop, and what it prints. *)
Record ChecksumTally : Set := {
  num_errors : nat;
  num_mismatches : nat;
  num_results : nat;
  tally_output : list line
}.

Definition print (t : ChecksumTally) (out : list line) : ChecksumTally :=
  {| num_errors := num_errors t; num_mismatches := num_mismatches t;
     num_results := num_results t; tally_output := tally_output t ++ out |}.

(** The local variables of the loop over the results of one tablet. *)
Record ReplicaWalk : Set := {
  seen_first_replica : bool;
  first_checksum : N;
  tally : ChecksumTally
}.

Definition dashes23 : string := "-----------------------".

(** The body of the loop over the results of a tablet (ksck.cc:488-511). *)
Definition walk_replica (k : Ksck) (table : KsckTable) (tablet : KsckTablet)
    (w : ReplicaWalk) (r : string * (Status * N)) : outcome ReplicaWalk :=
  let replica_uuid := r.1 in
  ts ← FindOrDie (tablet_servers (cluster_ k)) replica_uuid;
  let status := r.2.1 in
  let checksum := r.2.2 in
  let status_str :=
    if ok status then "Checksum: " +:+ pretty checksum
    else "Error: " +:+ Status_ToString status in
  let t := print (tally w)
             [Cout ("T " +:+ tablet_id tablet +:+ " P " +:+ uuid ts +:+ " ("
                    +:+ address ts +:+ "): " +:+ status_str)] in
  let count (e m : nat) (out : list line) : ChecksumTally :=
    {| num_errors := e + num_errors t;
       num_mismatches := m + num_mismatches t;
       num_results := S (num_results t);
       tally_output := tally_output t ++ out |} in
  if negb (ok status) then
    Ret {| seen_first_replica := seen_first_replica w;
           first_checksum := first_checksum w; tally := count 1 0 [] |}
  else if negb (seen_first_replica w) then
    Ret {| seen_first_replica := true; first_checksum := checksum;
           tally := count 0 0 [] |}
  else if negb (bool_decide (checksum = first_checksum w)) then
    Ret {| seen_first_replica := seen_first_replica w;
           first_checksum := first_checksum w;
           tally := count 0 1
                      [Error (">> Mismatch found in table "
                              +:+ table_name table +:+ " tablet "
                              +:+ tablet_id tablet)] |}
  else
    Ret {| seen_first_replica := seen_first_replica w;
           first_checksum := first_checksum w; tally := count 0 0 [] |}.

(** The body of the loop over the tablets of a table (ksck.cc:477-513);
    the flag is [printed_table_name]. *)
Definition walk_tablet (k : Ksck) (checksums : TabletResultMap)
    (table : KsckTable) (acc : bool * ChecksumTally) (tablet : KsckTablet)
  : outcome (bool * ChecksumTally) :=
  match checksums !! tablet_id tablet with
  | None => Ret acc
  | Some replica_results =>
      let t := if acc.1 then acc.2
               else print acc.2 [Cout dashes23; Cout (table_name table);
                                 Cout dashes23] in
      w ← for_each (walk_replica k table tablet)
            (umap_entries replica_results)
            {| seen_first_replica := false; first_checksum := 0;
               tally := t |};
      Ret (true, tally w)
  end.

(** The body of the loop over the tables (ksck.cc:475-515). *)
Definition walk_table (k : Ksck) (checksums : TabletResultMap)
    (t : ChecksumTally) (table : KsckTable) : outcome ChecksumTally :=
  '(printed_table_name, t) ←
    for_each (walk_tablet k checksums table) (tablets table) (false, t);
  Ret (if printed_table_name : bool then print t [Cout ""] else t).

Definition ChecksumData_walk (k : Ksck) (checksums : TabletResultMap)
  : outcome ChecksumTally :=
  for_each (walk_table k checksums) (tables (cluster_ k))
    {| num_errors := 0; num_mismatches := 0; num_results := 0;
       tally_output := [] |}.

(** The terminal status (ksck.cc:516-531). *)
Definition ChecksumData_status (options : ChecksumOptions)
    (num_tablet_replicas : nat) (timed_out : bool) (t : ChecksumTally)
  : outcome Status :=
  if negb (bool_decide (num_results t = num_tablet_replicas)) then
    if timed_out then
      Ret (TimedOut
             ("Checksum scan did not complete within the timeout of "
              +:+ MonoDelta_ToString (timeout options)
              +:+ ": Received results for " +:+ pretty (num_results t)
              +:+ " out of " +:+ pretty num_tablet_replicas
              +:+ " expected replicas"))
    else
      Die ("Unexpected error: only got " +:+ pretty (num_results t)
           +:+ " out of " +:+ pretty num_tablet_replicas
           +:+ " replica results")
  else if negb (bool_decide (num_mismatches t = 0)) then
    Ret (Corruption (pretty (num_mismatches t)
                     +:+ " checksum mismatches were detected"))
  else if negb (bool_decide (num_errors t = 0)) then
    Ret (Aborted (pretty (num_errors t) +:+ " errors were detected"))
  else Ret Status_OK.

(** What a run that reached the result loop saw: [num_tablet_replicas],
    [timed_out], the copy of the results and the counters. *)
Record ScanSummary : Type := {
  num_tablet_replicas : nat;
  timed_out : bool;
  checksums : TabletResultMap;
  counters : ChecksumTally
}.

(** The result of [ChecksumData]: the status it returns, the scans it
    started before it returned, what it printed, and the summary of the
    result loop when it got there. *)
Record ChecksumRun : Type := {
  run_status : Status;
  run_scans : list ScanCall;
  run_output : list line;
  run_summary : option ScanSummary
}.

Definition ChecksumData (k : Ksck) (opts : ChecksumOptions) (env : ScanEnv)
  : outcome ChecksumRun :=
  let '(tablet_table_map, num_tablet_replicas) := ChecksumData_select k in
  if bool_decide (num_tablet_replicas = 0) then
    Ret {| run_status := NotFound (no_replicas_message k);
           run_scans := []; run_output := []; run_summary := None |}
  else
    queues ← ChecksumData_enqueue k num_tablet_replicas tablet_table_map;
    match ChecksumData_timestamp opts queues with
    | inl s =>
        Ret {| run_status := s; run_scans := []; run_output := [];
               run_summary := None |}
    | inr (options, log) =>
        st ← ChecksumData_kick_off options queues
                (new_reporter num_tablet_replicas)
                (events_while_starting env);
        st ← for_each (scan_step options) (events_while_waiting env) st;
        let timed_out := negb (WaitFor env (reporter st)) in
        st ← for_each (scan_step options) (events_before_copy env) st;
        let checksums := checksums_ (reporter st) in
        t ← ChecksumData_walk k checksums;
        s ← ChecksumData_status options num_tablet_replicas timed_out t;
        Ret {| run_status := s; run_scans := scans st;
               run_output := log ++ wait_progress env ++ tally_output t;
               run_summary :=
                 Some {| num_tablet_replicas := num_tablet_replicas;
                         timed_out := timed_out; checksums := checksums;
                         counters := t |} |}
    end.

End Ksck.

(** ** KsckCluster::FetchTableAndTabletInfo (ksck.cc:126) *)

(** What the cluster gets from the master: the status of [Connect], and
    for each retrieval the status it returns together with what it leaves
    in the object it was handed.  [RetrieveTabletsList] is called once for
    each table; its answer may depend on the number of calls before it. *)
Record KsckMaster : Type := {
  Connect : Status;
  RetrieveTablesList : list KsckTable → Status * list KsckTable;
  RetrieveTabletServers :
    gmap string KsckTabletServer → Status * gmap string KsckTabletServer;
  RetrieveTabletsList : nat → KsckTable → Status * KsckTable
}.

(** The loop over [tables()] (ksck.cc:130-132): [behind] are the tables
    behind the iterator, [ahead] the ones ahead of it; the result holds
    the tables as the loop leaves them. *)
Fixpoint RetrieveTabletsLists (master : KsckMaster)
    (behind ahead : list KsckTable) : Status * list KsckTable :=
  match ahead with
  | [] => (Status_OK, behind)
  | table :: rest =>
      let '(s, table') := RetrieveTabletsList master (length behind) table in
      if ok s then RetrieveTabletsLists master (behind ++ [table']) rest
      else (s, behind ++ table' :: rest)
  end.

(** [RETURN_NOT_OK] after each call of the master. *)
Definition FetchTableAndTabletInfo (master : KsckMaster) (cluster : KsckCluster)
  : Status * KsckCluster :=
  if negb (ok (Connect master)) then (Connect master, cluster) else
  let '(s, tbls) := RetrieveTablesList master (tables cluster) in
  let cluster := {| tables := tbls; tablet_servers := tablet_servers cluster |} in
  if negb (ok s) then (s, cluster) else
  let '(s, servers) := RetrieveTabletServers master (tablet_servers cluster) in
  let cluster := {| tables := tables cluster; tablet_servers := servers |} in
  if negb (ok s) then (s, cluster) else
  let '(s, tbls) := RetrieveTabletsLists master [] (tables cluster) in
  (s, {| tables := tbls; tablet_servers := tablet_servers cluster |}).

(** ** Notions the properties are stated with *)

(** The values of a map with string keys, each unfolded by [f], in the
    order of [map_to_list]. *)
Definition flatten_map {V A} (f : string → V → list A) (m : gmap string V)
  : list A :=
  kv ← map_to_list m; f kv.1 kv.2.

(** All tablets of the snapshot, table by table. *)
Definition all_tablets (c : KsckCluster) : list KsckTablet :=
  table ← tables c; tablets table.

(** The invariants of the data model (spec, section 3) that the checksum
    phase relies on: tablet ids are unique, the replicas of a tablet sit on
    different servers, every replica names a server of the directory, and
    the directory is keyed by uuid. *)
Definition snapshot_wf (c : KsckCluster) : Prop :=
  NoDup (tablet_id <$> all_tablets c)
  ∧ Forall (λ tablet,
              NoDup (ts_uuid <$> replicas tablet)
              ∧ Forall (λ replica,
                          is_Some (tablet_servers c !! ts_uuid replica))
                       (replicas tablet))
           (all_tablets c)
  ∧ map_Forall (λ key ts, uuid ts = key) (tablet_servers c).

#[global] Instance snapshot_wf_dec c : Decision (snapshot_wf c).
Proof. unfold snapshot_wf. apply _. Defined.

(** The work items of a list of tablets: one (tablet id, server) pair for
    each replica. *)
Definition work_items (tablets : list KsckTablet) : list (string * string) :=
  tablet ← tablets;
  replica ← replicas tablet; [(tablet_id tablet, ts_uuid replica)].

(** The work items that wait in the queues. *)
Definition queued (queues : gmap string ServerQueue) : list (string * string) :=
  flatten_map
    (λ key q, (λ item : Schema * string, (item.2, key)) <$> queue_items q)
    queues.

(** The work items that were not reported yet: scanned by a callbacks
    object that has not reported, or queued. *)
Definition pending (st : ScanState) : list (string * string) :=
  ((λ cb, (cb_tablet_id cb, cb_queue cb))
   <$> List.filter (λ cb, negb (cb_reported cb)) (in_flight st))
  ++ queued (tablet_server_queues st).

(** The recorded results: tablet id, replica uuid, status and checksum. *)
Definition recorded (c : gmap string (gmap string (Status * N)))
  : list (string * string * (Status * N)) :=
  flatten_map
    (λ tid m,
       (λ e : string * (Status * N), (tid, e.1, e.2)) <$> map_to_list m)
    c.

Definition recorded_keys (c : gmap string (gmap string (Status * N)))
  : list (string * string) :=
  fst <$> recorded c.

(** The invariant of the scheduler: the reported and the pending work
    items together are the work items [W], the latch counts the pending
    ones, and a callbacks object reports under the key of its queue. *)
Definition scan_inv (W : list (string * string)) (st : ScanState) : Prop :=
  recorded_keys (checksums_ (reporter st)) ++ pending st ≡ₚ W
  ∧ responses_ (reporter st) = length (pending st)
  ∧ Forall (λ cb, uuid (cb_tablet_server cb) = cb_queue cb) (in_flight st).

(** The servers of the queues are the entries of the directory. *)
Definition queues_of_directory (k : Ksck) (queues : gmap string ServerQueue)
  : Prop :=
  ∀ key q, queues !! key = Some q →
           tablet_servers (cluster_ k) !! key = Some (queue_server q).

(** The failed scans among the results of a tablet. *)
Definition errors_in (rs : list (string * (Status * N))) : nat :=
  length (List.filter (λ r, negb (ok r.2.1)) rs).

(** The successful results among [rs] whose checksum is not [reference]. *)
Definition mismatches_after (reference : N)
    (rs : list (string * (Status * N))) : nat :=
  length (List.filter
            (λ r, ok r.2.1 && negb (bool_decide (r.2.2 = reference))) rs).

(** The mismatches of a tablet, in the words of the spec (section 4.4): the
    first successful replica's checksum is the reference; every subsequent
    successful replica whose checksum differs is a mismatch. *)
Fixpoint mismatches_in (rs : list (string * (Status * N))) : nat :=
  match rs with
  | [] => 0
  | r :: rs' =>
      if ok r.2.1 then mismatches_after r.2.2 rs' else mismatches_in rs'
  end.

(** The failed scans in a list of recorded results. *)
Definition visited_errors (l : list (string * string * (Status * N))) : nat :=
  length (List.filter (λ e, negb (ok e.2.1)) l).

(** [t'] is [t] with [e] errors, [m] mismatches and [r] results more. *)
Definition counted (t t' : ChecksumTally) (e m r : nat) : Prop :=
  num_errors t' = e + num_errors t
  ∧ num_mismatches t' = m + num_mismatches t
  ∧ num_results t' = r + num_results t.

(** The servers of the recorded results are in the directory. *)
Definition results_known (k : Ksck)
    (c : gmap string (gmap string (Status * N))) : Prop :=
  ∀ tid m u, c !! tid = Some m → is_Some (m !! u) →
             is_Some (tablet_servers (cluster_ k) !! u).

(** A replica on a server of the directory that was fetched. *)
Definition replica_alive (k : Ksck) (replica : KsckTabletReplica) : bool :=
  match tablet_servers (cluster_ k) !! ts_uuid replica with
  | Some ts => is_healthy ts
  | None => false
  end.

(** A replica that its server reports as RUNNING. *)
Definition replica_running (k : Ksck) (tablet : KsckTablet)
    (replica : KsckTabletReplica) : bool :=
  match tablet_servers (cluster_ k) !! ts_uuid replica with
  | Some ts =>
      is_healthy ts
      && bool_decide (state <$> tablet_status_map_ ts !! tablet_id tablet
                      = Some RUNNING)
  | None => false
  end.

Section Specification.
Context {ext : Externals}.

(** The (tablet, table) pairs that pass both filters, in source order. *)
Definition selected_from (k : Ksck) (tbls : list KsckTable)
  : list (KsckTablet * KsckTable) :=
  table ← List.filter
            (λ t, MatchesAnyPattern (table_filters_ k) (table_name t)) tbls;
  (λ tablet, (tablet, table))
  <$> List.filter
        (λ t, MatchesAnyPattern (tablet_id_filters_ k) (tablet_id t))
        (tablets table).

Definition selected (k : Ksck) : list (KsckTablet * KsckTable) :=
  selected_from k (tables (cluster_ k)).

(** The results of a tablet in the order in which the result loop visits
    them. *)
Definition tablet_results (c : gmap string (gmap string (Status * N)))
    (tablet : KsckTablet) : list (string * (Status * N)) :=
  match c !! tablet_id tablet with
  | Some replica_results => umap_entries replica_results
  | None => []
  end.

(** The results that the result loop visits for a list of tablets. *)
Definition visited (c : gmap string (gmap string (Status * N)))
    (tablets : list KsckTablet) : list (string * string * (Status * N)) :=
  tablet ← tablets;
  (λ r : string * (Status * N), (tablet_id tablet, r.1, r.2))
  <$> tablet_results c tablet.

(** The mismatches of a list of tablets, tablet by tablet. *)
Fixpoint mismatches_of (c : gmap string (gmap string (Status * N)))
    (tablets : list KsckTablet) : nat :=
  match tablets with
  | [] => 0
  | tablet :: rest =>
      mismatches_in (tablet_results c tablet) + mismatches_of c rest
  end.

(** The terminal status in the words of the spec (section 4.4): first
    match wins among TimedOut, Corruption, Aborted and OK. *)
Definition terminal_status (opts : ChecksumOptions) (s : ScanSummary)
  : Status :=
  let t := counters s in
  if timed_out s && bool_decide (num_results t < num_tablet_replicas s) then
    TimedOut ("Checksum scan did not complete within the timeout of "
              +:+ MonoDelta_ToString (timeout opts)
              +:+ ": Received results for " +:+ pretty (num_results t)
              +:+ " out of " +:+ pretty (num_tablet_replicas s)
              +:+ " expected replicas")
  else if bool_decide (num_mismatches t ≠ 0) then
    Corruption (pretty (num_mismatches t)
                +:+ " checksum mismatches were detected")
  else if bool_decide (num_errors t ≠ 0) then
    Aborted (pretty (num_errors t) +:+ " errors were detected")
  else Status_OK.

End Specification.

Arguments work_items : simpl never.
Arguments flatten_map : simpl never.
Arguments visited : simpl never.
Arguments tablet_results : simpl never.

(** ** Further notions: verdicts, calls of the master, scans *)

(** The statuses of the calls that [FetchTableAndTabletInfo] makes when
    none fails, in the order of the calls. *)
Definition master_calls (master : KsckMaster) (cluster : KsckCluster)
  : list Status :=
  [Connect master;
   (RetrieveTablesList master (tables cluster)).1;
   (RetrieveTabletServers master (tablet_servers cluster)).1]
  ++ imap (λ i table, (RetrieveTabletsList master i table).1)
          (RetrieveTablesList master (tables cluster)).2.

(** The servers of the directory whose [FetchInfo] fails. *)
Definition unreachable (env : FetchEnv) (cluster : KsckCluster) : nat :=
  length (List.filter (λ e : string * KsckTabletServer,
                         negb (ok (FetchInfo env e.2).1))
                      (map_to_list (tablet_servers cluster))).

(** The callbacks objects that are alive on the queue of [key]: each one
    has a scan in flight, or has reported its result and is about to take
    the next item of the queue. *)
Definition in_flight_on (key : string) (st : ScanState) : nat :=
  length (List.filter (λ cb, bool_decide (cb_queue cb = key)) (in_flight st)).

(** The number of items that wait in the queue of [key]. *)
Definition queue_length (key : string) (queues : gmap string ServerQueue) : nat :=
  match queues !! key with
  | Some q => length (queue_items q)
  | None => 0
  end.

(** No work waits on an idle server: a queue that holds an item has a
    callbacks object alive. *)
Definition busy (key : string) (st : ScanState) : Prop :=
  ∀ q, tablet_server_queues st !! key = Some q → queue_items q ≠ [] →
       0 < in_flight_on key st.

(** The work item of a scan: the tablet and the server it was sent to. *)
Definition scan_item (c : ScanCall) : string * string :=
  (scan_tablet_id c, scan_server c).

(** The scans that were started account for the work items that left the
    queues. *)
Definition scans_inv (W : list (string * string)) (st : ScanState) : Prop :=
  (scan_item <$> scans st) ++ queued (tablet_server_queues st) ≡ₚ W.

(** The queue items satisfy [P], and the scans were started with [options]
    and with an item that satisfies [P]. *)
Definition calls_inv (P : Schema * string → Prop) (options : ChecksumOptions)
    (st : ScanState) : Prop :=
  (∀ key q item, tablet_server_queues st !! key = Some q →
                 item ∈ queue_items q → P item)
  ∧ Forall (λ c, scan_options c = options ∧ P (scan_schema c, scan_tablet_id c))
           (scans st).

(** The result that is recorded for a replica of a tablet. *)
Definition result_of (c : gmap string (gmap string (Status * N)))
    (tablet_id replica_uuid : string) : option (Status * N) :=
  c !! tablet_id ≫= (λ m, m !! replica_uuid).

(** Two successful scans of one tablet returned different checksums. *)
Definition disagree (c : gmap string (gmap string (Status * N))) : Prop :=
  ∃ tid m u1 u2 s1 s2 c1 c2,
    c !! tid = Some m ∧ m !! u1 = Some (s1, c1) ∧ m !! u2 = Some (s2, c2)
    ∧ ok s1 = true ∧ ok s2 = true ∧ c1 ≠ c2.

(** A recorded scan failed. *)
Definition failed (c : gmap string (gmap string (Status * N))) : Prop :=
  ∃ tid u v, (tid, u, v) ∈ recorded c ∧ ok v.1 = false.

Section Verdicts.
Context {ext : Externals}.

(** The verdict of [VerifyTablet]; an abort counts as bad. *)
Definition tablet_verdict (k : Ksck) (tablet : KsckTablet)
    (table_num_replicas : Z) : bool :=
  match VerifyTablet k tablet table_num_replicas with
  | Ret (good, _) => good
  | Die _ => false
  end.

(** The verdict of [VerifyTable]; an abort counts as bad. *)
Definition table_verdict (k : Ksck) (table : KsckTable) : bool :=
  match VerifyTable k table with
  | Ret (good, _) => good
  | Die _ => false
  end.

(** The tables that pass the table filters and are not healthy. *)
Definition bad_tables (k : Ksck) : list KsckTable :=
  List.filter
    (λ table, MatchesAnyPattern (table_filters_ k) (table_name table)
              && negb (table_verdict k table))
    (tables (cluster_ k)).

(** [patterns'] lets through no more names than [patterns]. *)
Definition narrower (patterns' patterns : list string) : Prop :=
  ∀ str, MatchesAnyPattern patterns' str = true →
         MatchesAnyPattern patterns str = true.

(** The item of a selected tablet: the schema of its table and its id. *)
Definition selected_item (k : Ksck) (item : Schema * string) : Prop :=
  ∃ e, e ∈ selected k ∧ item = (table_schema e.2, tablet_id e.1).

End Verdicts.

(** ** A reference implementation of the external functions

    Used to run the model on concrete clusters. *)

(** Modelled from the spec: a pattern is a glob with [*] and [?], matched
    case-sensitively (section 4.3); [MatchPattern] is declared in
    kudu/gutil/strings/util.h. *)
Fixpoint glob_match (pattern : string) : string → bool :=
  match pattern with
  | EmptyString => λ str, bool_decide (str = "")
  | String c pattern' =>
      if bool_decide (c = "*"%char) then
        fix star (str : string) : bool :=
          glob_match pattern' str
          || match str with
             | EmptyString => false
             | String _ str' => star str'
             end
      else λ str,
        match str with
        | EmptyString => false
        | String d str' =>
            (bool_decide (c = "?"%char) || bool_decide (c = d))
            && glob_match pattern' str'
        end
  end.

Definition StatusCode_name (c : StatusCode) : string :=
  match c with
  | kOk => "OK"
  | kNotFound => "Not found"
  | kCorruption => "Corruption"
  | kNetworkError => "Network error"
  | kServiceUnavailable => "Service unavailable"
  | kTimedOut => "Timed out"
  | kAborted => "Aborted"
  | kRuntimeError => "Runtime error"
  | kIllegalState => "Illegal state"
  | kRemoteError => "Remote error"
  end.

Definition TabletStatePB_reference_name (st : TabletStatePB) : string :=
  match st with
  | UNKNOWN => "UNKNOWN"
  | BOOTSTRAPPING => "BOOTSTRAPPING"
  | RUNNING => "RUNNING"
  | STOPPED => "STOPPED"
  | FAILED => "FAILED"
  | TOMBSTONED => "TOMBSTONED"
  | OTHER_STATE tag => pretty tag
  end.

#[export] Instance reference_externals : Externals := {|
  MatchPattern str pattern := glob_match pattern str;
  TabletStatePB_Name := TabletStatePB_reference_name;
  TabletDataState_Name := pretty;
  Status_ToString s :=
    if ok s then "OK" else StatusCode_name (code s) +:+ ": " +:+ message s;
  MonoDelta_ToString d := pretty d +:+ "ns";
  KsckTabletServer_ToString ts := uuid ts +:+ " (" +:+ address ts +:+ ")";
  umap_order A l := l;
  umap_order_perm A l := reflexivity l
|}.

(** ** The scenarios of the spec (section 8)

    One table [t1] with replication factor 3 and one tablet [abc] with a
    leader on [u1] and followers on [u2] and [u3]. *)

Definition scenario_server (u : string) (st : FetchState) (now : N)
  : KsckTabletServer :=
  {| uuid := u; address := "host-" +:+ u; state_ := st;
     tablet_status_map_ :=
       match st with
       | kFetched => {[ "abc" := {| state := RUNNING; last_status := "";
                                    tablet_data_state := 0 |} ]}
       | _ => ∅
       end;
     timestamp_ := now |}.

Definition scenario_tablet : KsckTablet :=
  {| tablet_id := "abc";
     replicas :=
       [ {| ts_uuid := "u1"; is_leader := true; is_follower := false |};
         {| ts_uuid := "u2"; is_leader := false; is_follower := true |};
         {| ts_uuid := "u3"; is_leader := false; is_follower := true |} ];
     tablet_table_name := "t1" |}.

Definition scenario_table : KsckTable :=
  {| table_name := "t1"; table_schema := "key INT32"; num_replicas := 3;
     tablets := [scenario_tablet] |}.

(** The cluster, with the fetch state of [u3] and the timestamp that the
    servers report. *)
Definition scenario_cluster (u3_state : FetchState) (now : N) : KsckCluster :=
  {| tables := [scenario_table];
     tablet_servers :=
       list_to_map [("u1", scenario_server "u1" kFetched now);
                    ("u2", scenario_server "u2" kFetched now);
                    ("u3", scenario_server "u3" u3_state now)] |}.

Definition scenario_ksck (u3_state : FetchState) (now : N)
    (table_filters tablet_id_filters : list string) : Ksck :=
  {| cluster_ := scenario_cluster u3_state now;
     table_filters_ := table_filters;
     tablet_id_filters_ := tablet_id_filters;
     check_replica_count_ := true |}.

(** The default options: one hour, four scans per server, a snapshot scan
    at the current timestamp. *)
Definition scenario_options : ChecksumOptions :=
  {| timeout := 3600000000000%Z; scan_concurrency := 4%Z;
     use_snapshot := true; snapshot_timestamp := 0%N |}.

(** The scans finish one after the other with [results], each time the
    oldest one in flight, and each [Finished] runs to its end before the
    next one starts. *)
Definition scenario_env (results : list (Status * N)) (deadline : bool)
  : ScanEnv :=
  {| events_while_starting := [];
     events_while_waiting :=
       r ← results; [ev_Finished 0 r.1 r.2; ev_Finished_next 0];
     deadline_passed := deadline; events_before_copy := [];
     wait_progress := [] |}.

(** A deadline that falls inside [Finished]: the table has the two
    tablets [abc] and [abd], each with its only replica on [u1], and one
    scan at a time is allowed; the first scan reports its result, and
    [WaitFor] returns before the callbacks object takes [abd] from the
    queue. *)
Definition scenario_two_tablets : Ksck :=
  {| cluster_ :=
       {| tables :=
            [ {| table_name := "t1"; table_schema := "key INT32";
                 num_replicas := 1;
                 tablets :=
                   [ {| tablet_id := "abc";
                        replicas :=
                          [ {| ts_uuid := "u1"; is_leader := true;
                               is_follower := false |} ];
                        tablet_table_name := "t1" |};
                     {| tablet_id := "abd";
                        replicas :=
                          [ {| ts_uuid := "u1"; is_leader := true;
                               is_follower := false |} ];
                        tablet_table_name := "t1" |} ] |} ];
          tablet_servers :=
            list_to_map [("u1", scenario_server "u1" kFetched 12345)] |};
     table_filters_ := []; tablet_id_filters_ := [];
     check_replica_count_ := true |}.

Definition scenario_deadline_in_Finished : ScanEnv :=
  {| events_while_starting := [];
     events_while_waiting := [ev_Finished 0 Status_OK 42%N];
     deadline_passed := true; events_before_copy := [];
     wait_progress := [] |}.

(** A network on which [FetchInfo] fails for the servers of [down]. *)
Definition scenario_fetch (down : list string) : FetchEnv :=
  {| pool_build := Status_OK;
     FetchInfo ts :=
       if bool_decide (uuid ts ∈ down) then
         (NetworkError "connection refused",
          scenario_server (uuid ts) kFetchFailed 0)
       else (Status_OK, scenario_server (uuid ts) kFetched 12345) |}.

(** * Properties *)

(** ** The verifier *)

Section Verifier.
Context {ext : Externals}.

Lemma ReplicaState_healthy ts tid :
  is_healthy ts = true →
  ReplicaState ts tid
  = Ret (match tablet_status_map_ ts !! tid with
         | Some status_pb => state status_pb
         | None => UNKNOWN
         end).
Proof.
  unfold is_healthy, ReplicaState. intros Hh%bool_decide_eq_true.
  rewrite decide_True by done. by destruct (_ !! _).
Qed.

Lemma VerifyTablet_replica_returns k tablet r replica :
  ∃ r', VerifyTablet_replica k tablet r replica = Ret r'
        ∧ errors r' = errors r
        ∧ alive_count r' = (if replica_alive k replica then 1 else 0) + alive_count r
        ∧ running_count r' = (if replica_running k tablet replica then 1 else 0) + running_count r
        ∧ leaders_count r' = (if is_leader replica then 1 else 0) + leaders_count r.
Proof.
  unfold VerifyTablet_replica, replica_alive, replica_running.
  destruct (tablet_servers (cluster_ k) !! ts_uuid replica) as [ts|]; simpl.
  - destruct (is_healthy ts) eqn:Hh; simpl.
    + rewrite ReplicaState_healthy by done. simpl.
      destruct (tablet_status_map_ ts !! tablet_id tablet) as [pb|] eqn:Hpb; simpl.
      * unfold map_at. rewrite Hpb.
        destruct (state pb) eqn:Hst; simpl;
          destruct (is_leader replica), (is_follower replica);
          eexists; (split; [reflexivity|]); simpl;
          rewrite ?bool_decide_eq_true_2, ?bool_decide_eq_false_2 by congruence; done.
      * destruct (is_leader replica), (is_follower replica);
          eexists; (split; [reflexivity|]); done.
    + destruct (is_leader replica), (is_follower replica);
        eexists; (split; [reflexivity|]); done.
  - destruct (is_leader replica), (is_follower replica);
      eexists; (split; [reflexivity|]); done.
Qed.

Lemma VerifyTablet_loop k tablet rs r :
  ∃ r', for_each (VerifyTablet_replica k tablet) rs r = Ret r'
        ∧ errors r' = errors r
        ∧ alive_count r' = length (List.filter (replica_alive k) rs) + alive_count r
        ∧ running_count r'
          = length (List.filter (replica_running k tablet) rs) + running_count r
        ∧ leaders_count r' = length (List.filter is_leader rs) + leaders_count r.
Proof.
  revert r. induction rs as [|x rs IH]; intros r; simpl.
  - by eexists.
  - destruct (VerifyTablet_replica_returns k tablet r x)
      as (r1 & -> & He & Ha & Hr & Hl); simpl.
    destruct (IH r1) as (r2 & -> & He2 & Ha2 & Hr2 & Hl2).
    eexists; split; [done|].
    rewrite He2, Ha2, Hr2, Hl2, He, Ha, Hr, Hl.
    destruct (replica_alive k x), (replica_running k tablet x), (is_leader x);
      simpl; repeat split; lia.
Qed.

Lemma majority_errors_distinct tablet :
  no_live_majority_error tablet ≠ no_running_majority_error tablet
  ∧ no_leader_error ≠ no_live_majority_error tablet
  ∧ no_leader_error ≠ no_running_majority_error tablet.
Proof.
  unfold no_live_majority_error, no_running_majority_error, no_leader_error.
  split; [|split].
  - intros Heq. apply (inj (String.app (tablet_str tablet))) in Heq.
    discriminate.
  - unfold tablet_str. simpl. discriminate.
  - unfold tablet_str. simpl. discriminate.
Qed.

Lemma VerifyTablet_report_returns k tablet R :
  ∃ r0, for_each (VerifyTablet_replica k tablet) (replicas tablet)
          (VerifyTablet_init k tablet R) = Ret r0
        ∧ VerifyTablet_report k tablet R = Ret (VerifyTablet_checks tablet R r0)
        ∧ errors r0 = []
        ∧ alive_count r0 = length (List.filter (replica_alive k) (replicas tablet))
        ∧ running_count r0
          = length (List.filter (replica_running k tablet) (replicas tablet))
        ∧ leaders_count r0 = length (List.filter is_leader (replicas tablet)).
Proof.
  destruct (VerifyTablet_loop k tablet (replicas tablet) (VerifyTablet_init k tablet R))
    as (r0 & Hloop & He & Ha & Hr & Hl).
  exists r0. unfold VerifyTablet_report. rewrite Hloop. simpl in *.
  repeat split; try done; lia.
Qed.

Lemma VerifyTablet_checks_counts tablet R r :
  alive_count (VerifyTablet_checks tablet R r) = alive_count r
  ∧ running_count (VerifyTablet_checks tablet R r) = running_count r
  ∧ leaders_count (VerifyTablet_checks tablet R r) = leaders_count r
  ∧ warnings (VerifyTablet_checks tablet R r) = warnings r
  ∧ infos (VerifyTablet_checks tablet R r) = infos r.
Proof.
  unfold VerifyTablet_checks.
  repeat case_bool_decide; done.
Qed.

Lemma VerifyTablet_checks_errors tablet R r :
  errors r = [] →
  errors (VerifyTablet_checks tablet R r)
  = (if bool_decide (leaders_count r = 0) then [no_leader_error] else [])
    ++ (if bool_decide (Z.of_nat (alive_count r) < MajoritySize R)%Z
        then [no_live_majority_error tablet]
        else if bool_decide (Z.of_nat (running_count r) < MajoritySize R)%Z
             then [no_running_majority_error tablet]
             else []).
Proof.
  intros He. unfold VerifyTablet_checks.
  repeat case_bool_decide; simpl; rewrite He; done.
Qed.

Lemma VerifyTablet_returns k tablet R :
  ∃ r, VerifyTablet_report k tablet R = Ret r
       ∧ VerifyTablet k tablet R
         = Ret (negb (has_issues r), VerifyTablet_print tablet r).
Proof.
  destruct (VerifyTablet_report_returns k tablet R) as (r0 & _ & Hr & _).
  eexists; split; [done|]. unfold VerifyTablet. by rewrite Hr.
Qed.

Lemma has_issues_spec r :
  has_issues r = true ↔ warnings r ≠ [] ∨ errors r ≠ [].
Proof.
  unfold has_issues. rewrite orb_true_iff, !negb_true_iff, !bool_decide_eq_false.
  done.
Qed.

(** C8: for a tablet server whose fetch status is FETCHED,
    [ReplicaState] never fails, whatever the tablet id: it returns the
    state stored in the tablet-status map of the server when the id is
    present and UNKNOWN when it is absent, so the CHECK on the fetch
    status does not fire. *)
Theorem ReplicaState_total_when_fetched (ts : KsckTabletServer) (tablet_id : string) :
  state_ ts = kFetched →
  ReplicaState ts tablet_id
  = Ret (match tablet_status_map_ ts !! tablet_id with
         | Some status_pb => state status_pb
         | None => UNKNOWN
         end)
  ∧ (tablet_status_map_ ts !! tablet_id = None →
     ReplicaState ts tablet_id = Ret UNKNOWN).
Proof.
  intros Hf. assert (is_healthy ts = true) as Hh.
  { by apply bool_decide_eq_true. }
  split.
  - by apply ReplicaState_healthy.
  - intros Hn. rewrite ReplicaState_healthy by done. by rewrite Hn.
Qed.

(** C3: for a tablet verified against replication factor [R], the
    verifier takes majority = ⌊R/2⌋ + 1 and, when a majority is missing,
    emits exactly one of the two majority errors: the one about live
    tablet servers when alive_count is below the majority (the RUNNING one
    is then not emitted as well), else the one about the RUNNING state
    when running_count is below the majority; it emits neither when both
    counts reach the majority.  An emitted error is printed on an ERROR
    line and makes the tablet bad.  [alive_count] and [running_count] are
    the replicas on fetched servers and those reported RUNNING. *)
Theorem VerifyTablet_majority_errors (k : Ksck) (tablet : KsckTablet) (R : Z) :
  ∃ r, VerifyTablet_report k tablet R = Ret r
    ∧ alive_count r = length (List.filter (replica_alive k) (replicas tablet))
    ∧ running_count r
      = length (List.filter (replica_running k tablet) (replicas tablet))
    ∧ MajoritySize R = (R / 2 + 1)%Z
    ∧ ((Z.of_nat (alive_count r) < R / 2 + 1)%Z →
       no_live_majority_error tablet ∈ errors r
       ∧ no_running_majority_error tablet ∉ errors r)
    ∧ (¬ (Z.of_nat (alive_count r) < R / 2 + 1)%Z →
       (Z.of_nat (running_count r) < R / 2 + 1)%Z →
       no_running_majority_error tablet ∈ errors r
       ∧ no_live_majority_error tablet ∉ errors r)
    ∧ (¬ (Z.of_nat (alive_count r) < R / 2 + 1)%Z →
       ¬ (Z.of_nat (running_count r) < R / 2 + 1)%Z →
       (no_live_majority_error tablet ∉ errors r)
       ∧ (no_running_majority_error tablet ∉ errors r))
    ∧ (∀ e, e ∈ errors r →
       ∃ out, VerifyTablet k tablet R = Ret (false, out) ∧ Error e ∈ out).
Proof.
  destruct (VerifyTablet_report_returns k tablet R)
    as (r0 & _ & Hr & He & Ha & Hrun & _).
  destruct (VerifyTablet_checks_counts tablet R r0) as (Ha' & Hr' & _).
  destruct (majority_errors_distinct tablet) as (Hd1 & Hd2 & Hd3).
  exists (VerifyTablet_checks tablet R r0).
  rewrite Ha', Hr', (VerifyTablet_checks_errors _ _ _ He).
  split; [done|]. split; [done|]. split; [done|]. split; [done|].
  unfold MajoritySize.
  split; [|split; [|split]].
  - intros Hlt. rewrite (bool_decide_eq_true_2 _ Hlt).
    split; [set_solver|]. destruct (bool_decide _); set_solver.
  - intros Hge Hlt.
    rewrite (bool_decide_eq_false_2 (_ < _)%Z) by lia.
    rewrite (bool_decide_eq_true_2 _ Hlt).
    split; [set_solver|]. destruct (bool_decide _); set_solver.
  - intros Hge Hge'.
    rewrite !(bool_decide_eq_false_2 (_ < _)%Z) by lia.
    destruct (bool_decide _); set_solver.
  - intros e Hin.
    unfold VerifyTablet. rewrite Hr. simpl.
    assert (has_issues (VerifyTablet_checks tablet R r0) = true) as Hi.
    { apply has_issues_spec. right.
      rewrite (VerifyTablet_checks_errors _ _ _ He). intros Hnil.
      unfold MajoritySize in Hnil. rewrite Hnil in Hin. set_solver. }
    rewrite Hi. eexists; split; [done|].
    unfold VerifyTablet_print. rewrite Hi.
    rewrite (VerifyTablet_checks_errors _ _ _ He).
    rewrite !elem_of_app, !list_elem_of_fmap. right. right. left.
    by exists e.
Qed.

(** C4: [VerifyTablet] never aborts; it returns bad ([false]) exactly
    when the reducer collected a warning or an error; for a bad tablet it
    prints, after the two header lines, all warnings, then all errors, then
    all infos, then an empty line; for a clean tablet it prints nothing,
    the infos included. *)
Theorem VerifyTablet_verdict_and_output (k : Ksck) (tablet : KsckTablet) (R : Z) :
  ∃ r good out,
    VerifyTablet_report k tablet R = Ret r
    ∧ VerifyTablet k tablet R = Ret (good, out)
    ∧ (good = false ↔ warnings r ≠ [] ∨ errors r ≠ [])
    ∧ (good = false →
       out = [Warn ("Detected problems with " +:+ tablet_str tablet);
              Cerr dashes60]
             ++ (Warn <$> warnings r) ++ (Error <$> errors r)
             ++ (Info <$> infos r) ++ [Cerr ""])
    ∧ (good = true → out = []).
Proof.
  destruct (VerifyTablet_returns k tablet R) as (r & Hr & Hv).
  exists r, (negb (has_issues r)), (VerifyTablet_print tablet r).
  split; [done|]. split; [done|].
  rewrite <- has_issues_spec. unfold VerifyTablet_print.
  destruct (has_issues r); simpl; repeat split; done.
Qed.

Lemma filter_none {A} (f : A → bool) l :
  (∀ x, x ∈ l → f x = false) → List.filter f l = [].
Proof.
  induction l as [|x l IH]; intros Hf; simpl; [done|].
  rewrite Hf by left. apply IH. intros ??. apply Hf. by right.
Qed.

Lemma filter_nil_iff {A} (f : A → bool) l :
  List.filter f l = [] ↔ ∀ x, x ∈ l → f x = false.
Proof.
  split; [|apply filter_none].
  induction l as [|y l IH]; intros Hnil x Hin; [by apply elem_of_nil in Hin|].
  simpl in Hnil. destruct (f y) eqn:Hy; [done|].
  apply elem_of_cons in Hin as [->|Hin]; [done|]. by apply IH.
Qed.

Lemma CheckTablesConsistency_table_skip k acc table :
  MatchesAnyPattern (table_filters_ k) (table_name table) = false →
  CheckTablesConsistency_table k acc table = Ret acc.
Proof. intros Hm. unfold CheckTablesConsistency_table. by rewrite Hm. Qed.

(** C10: when the filters select nothing, the metadata phase succeeds:
    [CheckTablesConsistency] returns OK when no table name matches the
    table filters, and [VerifyTable] reports a table healthy when none of
    its tablets matches the tablet-id filters. *)
Theorem nothing_to_verify_is_healthy (k : Ksck) :
  ((∀ table, table ∈ tables (cluster_ k) →
      MatchesAnyPattern (table_filters_ k) (table_name table) = false) →
   CheckTablesConsistency k
   = Ret (Status_OK, [Info "The cluster doesn't have any matching tables"]))
  ∧ (∀ table,
       (∀ tablet, tablet ∈ tablets table →
          MatchesAnyPattern (tablet_id_filters_ k) (tablet_id tablet) = false) →
       VerifyTable k table
       = Ret (true, [Info ("Table " +:+ table_name table
                           +:+ " has 0 matching tablets")])).
Proof.
  split.
  - intros Hnone. unfold CheckTablesConsistency.
    assert (∀ acc, for_each (CheckTablesConsistency_table k)
                     (tables (cluster_ k)) acc = Ret acc) as ->; [|done].
    revert Hnone. generalize (tables (cluster_ k)).
    intros ts. induction ts as [|t ts IH]; intros Hnone acc; [done|].
    cbn [for_each]. rewrite CheckTablesConsistency_table_skip by (apply Hnone; left).
    simpl. apply IH. intros ??. apply Hnone. by right.
  - intros table Hnone. unfold VerifyTable. by rewrite filter_none.
Qed.

End Verifier.

(** ** The fleet fetcher *)

Section Fetch.
Context {ext : Externals}.

Lemma filter_some {A} (f : A → bool) l x :
  x ∈ l → f x = true → 0 < length (List.filter f l).
Proof.
  induction l as [|y l IH]; intros Hin Hx; [by apply elem_of_nil in Hin|].
  simpl. apply elem_of_cons in Hin as [<-|Hin].
  - rewrite Hx. simpl. lia.
  - destruct (f y); simpl; [lia|]. by apply IH.
Qed.

Lemma fetch_task_spec env acc entry :
  bad_servers (fetch_task env acc entry)
  = (if ok (FetchInfo env entry.2).1 then 0 else 1) + bad_servers acc
  ∧ fetched_servers (fetch_task env acc entry)
    = <[entry.1 := (FetchInfo env entry.2).2]> (fetched_servers acc).
Proof.
  unfold fetch_task, ConnectToTabletServer.
  destruct (FetchInfo env entry.2) as [s ts']. simpl. by destruct (ok s).
Qed.

Lemma fetch_tasks_spec env es acc :
  NoDup es.*1 →
  bad_servers (foldl (fetch_task env) acc es)
  = length (List.filter (λ e, negb (ok (FetchInfo env e.2).1)) es) + bad_servers acc
  ∧ ∀ key,
      fetched_servers (foldl (fetch_task env) acc es) !! key
      = match (list_to_map es : gmap string KsckTabletServer) !! key with
        | Some ts => Some (FetchInfo env ts).2
        | None => fetched_servers acc !! key
        end.
Proof.
  revert acc. induction es as [|[k0 ts0] es IH]; intros acc Hnodup.
  - split; [done|]. intros key. rewrite list_to_map_nil, lookup_empty. done.
  - rewrite fmap_cons in Hnodup. apply NoDup_cons in Hnodup as [Hnotin Hnodup].
    cbn [foldl]. destruct (IH (fetch_task env acc (k0, ts0)) Hnodup) as [Hbad Hlookup].
    destruct (fetch_task_spec env acc (k0, ts0)) as [Hb1 Hs1]. simpl in *.
    split.
    + rewrite Hbad, Hb1.
      destruct (ok (FetchInfo env ts0).1); simpl; lia.
    + intros key. rewrite Hlookup, Hs1.
      destruct (decide (key = k0)) as [->|Hne].
      * rewrite lookup_insert_eq.
        rewrite (not_elem_of_list_to_map_1 _ _ Hnotin).
        by rewrite lookup_insert_eq.
      * rewrite !lookup_insert_ne by done. done.
Qed.

Lemma unhealthy_replica_warning k tablet r replica ts :
  tablet_servers (cluster_ k) !! ts_uuid replica = Some ts →
  is_healthy ts = false →
  ∃ r', VerifyTablet_replica k tablet r replica = Ret r'
        ∧ unavailable_warning (KsckTabletServer_ToString ts) ∈ warnings r'.
Proof.
  intros Hts Hh. unfold VerifyTablet_replica. rewrite Hts, Hh. simpl.
  eexists; split; [done|].
  destruct (is_leader replica), (is_follower replica); simpl;
    apply elem_of_app; right; by left.
Qed.

(** C7: [FetchInfoFromTabletServers] returns NotFound when the directory
    of tablet servers is empty.  Otherwise, once the pool is built and its
    workers are done, it returns OK when every [FetchInfo] succeeded and
    NetworkError when one failed, and in both cases keeps the snapshot:
    the tables are untouched and every server is still in the directory,
    as [FetchInfo] left it.  A server whose fetch failed is unhealthy
    there (by the contract of [FetchInfo]), so that the verifier warns
    about each replica placed on it. *)
Theorem FetchInfoFromTabletServers_status (env : FetchEnv) (cluster : KsckCluster) :
  (tablet_servers cluster = ∅ →
   FetchInfoFromTabletServers env cluster
   = (NotFound "No tablet servers found", cluster, []))
  ∧ (tablet_servers cluster ≠ ∅ → ok (pool_build env) = true →
     ∃ status cluster' out,
       FetchInfoFromTabletServers env cluster = (status, cluster', out)
       ∧ ((∀ key ts, tablet_servers cluster !! key = Some ts →
             ok (FetchInfo env ts).1 = true) →
          status = Status_OK)
       ∧ (∀ key ts, tablet_servers cluster !! key = Some ts →
            ok (FetchInfo env ts).1 = false →
            status = NetworkError "Not all Tablet Servers are reachable")
       ∧ tables cluster' = tables cluster
       ∧ (∀ key, tablet_servers cluster' !! key
                 = (λ ts, (FetchInfo env ts).2) <$> tablet_servers cluster !! key)
       ∧ (FetchInfo_contract env →
          ∀ key ts, tablet_servers cluster !! key = Some ts →
            ok (FetchInfo env ts).1 = false →
            ∃ ts', tablet_servers cluster' !! key = Some ts'
                   ∧ is_healthy ts' = false
                   ∧ ∀ k tablet r replica,
                       cluster_ k = cluster' → ts_uuid replica = key →
                       ∃ r', VerifyTablet_replica k tablet r replica = Ret r'
                             ∧ unavailable_warning (KsckTabletServer_ToString ts')
                               ∈ warnings r')).
Proof.
  unfold FetchInfoFromTabletServers. split.
  - intros ->. by rewrite map_size_empty.
  - intros Hne Hpool. rewrite bool_decide_eq_false_2; [|by rewrite map_size_empty_iff].
    rewrite Hpool. cbn [negb].
    set (acc0 := {| bad_servers := 0; fetched_servers := tablet_servers cluster;
                    fetch_output := [] |}).
    assert (umap_entries (tablet_servers cluster) ≡ₚ map_to_list (tablet_servers cluster))
      as Hperm by apply umap_order_perm.
    assert (NoDup (umap_entries (tablet_servers cluster)).*1) as Hnodup.
    { rewrite Hperm. apply NoDup_fst_map_to_list. }
    destruct (fetch_tasks_spec env _ acc0 Hnodup) as [Hbad Hlookup].
    assert ((list_to_map (umap_entries (tablet_servers cluster))
             : gmap string KsckTabletServer) = tablet_servers cluster) as Hmap.
    { rewrite (list_to_map_proper _ _ Hnodup Hperm). apply list_to_map_to_list. }
    assert (∀ key, fetched_servers (foldl (fetch_task env) acc0
                                      (umap_entries (tablet_servers cluster))) !! key
                   = (λ ts, (FetchInfo env ts).2) <$> tablet_servers cluster !! key)
      as Hservers.
    { intros key. rewrite Hlookup, Hmap. simpl.
      by destruct (tablet_servers cluster !! key). }
    assert (∀ key ts, tablet_servers cluster !! key = Some ts →
              ok (FetchInfo env ts).1 = false →
              bad_servers (foldl (fetch_task env) acc0
                             (umap_entries (tablet_servers cluster))) ≠ 0) as Hsome.
    { intros key ts Hts Hfail. rewrite Hbad.
      pose proof (filter_some (λ e : string * KsckTabletServer,
                                 negb (ok (FetchInfo env e.2).1))
                    (umap_entries (tablet_servers cluster)) (key, ts)) as Hpos.
      simpl in Hpos. rewrite Hfail in Hpos.
      assert ((key, ts) ∈ umap_entries (tablet_servers cluster)) as Hin.
      { rewrite Hperm. by apply elem_of_map_to_list. }
      specialize (Hpos Hin eq_refl). lia. }
    assert ((∀ key ts, tablet_servers cluster !! key = Some ts →
               ok (FetchInfo env ts).1 = true) →
            bad_servers (foldl (fetch_task env) acc0
                           (umap_entries (tablet_servers cluster))) = 0) as Hall.
    { intros Hok. rewrite Hbad. rewrite filter_none; [done|].
      intros [key ts] Hin. rewrite Hperm in Hin. apply elem_of_map_to_list in Hin.
      simpl. by rewrite (Hok key ts Hin). }
    case_bool_decide as Hzero.
    + eexists _, _, _. split; [done|]. simpl.
      split; [done|]. split; [|split; [done|split; [done|]]].
      { intros key ts Hts Hfail. by destruct (Hsome key ts Hts Hfail). }
      intros Hcontract key ts Hts Hfail. by destruct (Hsome key ts Hts Hfail).
    + eexists _, _, _. split; [done|]. simpl.
      split; [|split; [done|split; [done|split; [done|]]]].
      { intros Hok. destruct Hzero. by apply Hall. }
      intros Hcontract key ts Hts Hfail.
      exists (FetchInfo env ts).2. rewrite Hservers, Hts. split; [done|].
      assert (is_healthy (FetchInfo env ts).2 = false) as Hunhealthy.
      { destruct (Hcontract ts) as [_ Hstate]. rewrite Hfail in Hstate.
        unfold is_healthy. apply bool_decide_eq_false_2. by rewrite Hstate. }
      split; [done|]. intros k tablet r replica Hk Hkey.
      apply unhealthy_replica_warning; [|done].
      by rewrite Hk, Hkey, Hservers, Hts.
Qed.

End Fetch.

(** ** The checksum orchestrator

    *** Maps flattened to lists *)

Section FlattenMap.
Context {V A : Type} (f : string → V → list A).

Lemma flatten_map_lookup (m : gmap string V) k v :
  m !! k = Some v → flatten_map f m ≡ₚ f k v ++ flatten_map f (delete k m).
Proof.
  intros Hk. unfold flatten_map.
  rewrite <- (map_to_list_delete m k v Hk). done.
Qed.

Lemma flatten_map_insert (m : gmap string V) k v :
  flatten_map f (<[k:=v]> m) ≡ₚ f k v ++ flatten_map f (delete k m).
Proof.
  unfold flatten_map. rewrite <- insert_delete_eq.
  rewrite map_to_list_insert by apply lookup_delete_eq. done.
Qed.

Lemma flatten_map_insert_fresh (m : gmap string V) k v :
  m !! k = None → flatten_map f (<[k:=v]> m) ≡ₚ f k v ++ flatten_map f m.
Proof. intros Hk. rewrite flatten_map_insert. by rewrite delete_id. Qed.

Lemma flatten_map_empty : flatten_map f (∅ : gmap string V) = [].
Proof. unfold flatten_map. by rewrite map_to_list_empty. Qed.

Lemma elem_of_flatten_map (m : gmap string V) x :
  x ∈ flatten_map f m ↔ ∃ k v, m !! k = Some v ∧ x ∈ f k v.
Proof.
  unfold flatten_map. rewrite list_elem_of_bind. split.
  - intros ([k v] & Hx & Hkv%elem_of_map_to_list). eauto.
  - intros (k & v & Hkv & Hx). exists (k, v). split; [done|].
    by apply elem_of_map_to_list.
Qed.
End FlattenMap.

(** *** The selection of the tablets *)

Section Select.
Context {ext : Externals}.

Lemma work_items_cons tablet l :
  work_items (tablet :: l)
  = ((λ replica, (tablet_id tablet, ts_uuid replica)) <$> replicas tablet)
    ++ work_items l.
Proof.
  unfold work_items. cbn [mbind list_bind]. by f_equal.
Qed.

Lemma work_items_app l1 l2 :
  work_items (l1 ++ l2) = work_items l1 ++ work_items l2.
Proof. unfold work_items. by rewrite bind_app. Qed.

Lemma length_work_items_cons tablet l :
  length (work_items (tablet :: l)) = length (replicas tablet) + length (work_items l).
Proof. by rewrite work_items_cons, length_app, length_fmap. Qed.

Lemma select_tablets k table (tablets : list KsckTablet)
    (acc : list (KsckTablet * KsckTable) * nat) :
  foldl
    (λ (acc : list (KsckTablet * KsckTable) * nat) tablet,
       if negb (MatchesAnyPattern (tablet_id_filters_ k) (tablet_id tablet))
       then acc
       else (acc.1 ++ [(tablet, table)], acc.2 + length (replicas tablet)))
    acc tablets
  = (acc.1 ++ ((λ tablet, (tablet, table))
               <$> List.filter (λ t, MatchesAnyPattern (tablet_id_filters_ k) (tablet_id t))
                               tablets),
     acc.2 + length (work_items
                       (List.filter (λ t, MatchesAnyPattern (tablet_id_filters_ k) (tablet_id t))
                                    tablets))).
Proof.
  revert acc. induction tablets as [|t ts IH]; intros [sel n]; simpl.
  - by rewrite app_nil_r, Nat.add_0_r.
  - destruct (MatchesAnyPattern _ (tablet_id t)); simpl; rewrite IH; simpl; [|done].
    rewrite length_work_items_cons, <- app_assoc. simpl. f_equal. lia.
Qed.

Lemma fst_selected_tablets (table : KsckTable) (l : list KsckTablet) :
  ((λ tablet, (tablet, table)) <$> l).*1 = l.
Proof. rewrite <- list_fmap_compose. simpl. apply list_fmap_id. Qed.

Lemma ChecksumData_select_spec k :
  ChecksumData_select k = (selected k, length (work_items (selected k).*1)).
Proof.
  unfold ChecksumData_select, selected.
  assert (∀ tbls (acc : list (KsckTablet * KsckTable) * nat),
    foldl
      (λ acc table,
         if negb (MatchesAnyPattern (table_filters_ k) (table_name table))
         then acc
         else
           foldl
             (λ (acc : list (KsckTablet * KsckTable) * nat) tablet,
                if negb (MatchesAnyPattern (tablet_id_filters_ k) (tablet_id tablet))
                then acc
                else (acc.1 ++ [(tablet, table)], acc.2 + length (replicas tablet)))
             acc (tablets table))
      acc tbls
    = (acc.1 ++ selected_from k tbls,
       acc.2 + length (work_items (selected_from k tbls).*1))) as Hfold.
  { unfold selected_from.
    induction tbls as [|t ts IH]; intros [sel n]; simpl.
    - by rewrite app_nil_r, Nat.add_0_r.
    - destruct (MatchesAnyPattern _ (table_name t)); simpl; [|by rewrite IH].
      rewrite select_tablets, IH. simpl.
      rewrite fmap_app, work_items_app, length_app, fst_selected_tablets, <- app_assoc.
      by rewrite Nat.add_assoc. }
  rewrite Hfold. simpl. done.
Qed.

End Select.

(** *** The queues of the servers *)

Section Enqueue.
Context {ext : Externals}.

Lemma filter_sublist {A} (f : A → bool) l : List.filter f l `sublist_of` l.
Proof.
  induction l as [|x l IH]; simpl; [constructor|].
  destruct (f x); by constructor.
Qed.

Lemma selected_sublist k : (selected k).*1 `sublist_of` all_tablets (cluster_ k).
Proof.
  unfold selected, selected_from, all_tablets.
  induction (tables (cluster_ k)) as [|t ts IH]; simpl; [constructor|].
  destruct (MatchesAnyPattern _ (table_name t)); simpl.
  - rewrite fmap_app, fst_selected_tablets.
    apply sublist_app; [apply filter_sublist|done].
  - by apply sublist_inserts_l.
Qed.

Lemma work_items_NoDup (l : list KsckTablet) :
  NoDup (tablet_id <$> l) →
  Forall (λ tablet, NoDup (ts_uuid <$> replicas tablet)) l →
  NoDup (work_items l).
Proof.
  induction l as [|t l IH]; intros Hids Hreps.
  - constructor.
  - rewrite work_items_cons. rewrite fmap_cons in Hids.
    apply NoDup_cons in Hids as [Hnotin Hids].
    apply Forall_cons in Hreps as [Hr Hreps].
    apply NoDup_app. split; [|split].
    + apply (NoDup_fmap_1 snd). rewrite <- list_fmap_compose.
      exact Hr.
    + intros [tid u] Hin1 Hin2.
      apply list_elem_of_fmap in Hin1 as (r & [= -> ->] & _).
      apply Hnotin. unfold work_items in Hin2.
      apply list_elem_of_bind in Hin2 as (t' & Hin2 & Ht').
      apply list_elem_of_bind in Hin2 as (r' & Hin2 & _).
      apply list_elem_of_singleton in Hin2 as [= -> _].
      apply list_elem_of_fmap. by exists t'.
    + by apply IH.
Qed.

Lemma elem_of_work_items (l : list KsckTablet) tid u :
  (tid, u) ∈ work_items l
  ↔ ∃ tablet replica, tablet ∈ l ∧ replica ∈ replicas tablet
                      ∧ tid = tablet_id tablet ∧ u = ts_uuid replica.
Proof.
  unfold work_items. rewrite list_elem_of_bind. split.
  - intros (t & Hin & Ht). apply list_elem_of_bind in Hin as (r & Hin & Hr).
    apply list_elem_of_singleton in Hin as [= -> ->]. eauto 6.
  - intros (t & r & Ht & Hr & -> & ->). exists t. split; [|done].
    apply list_elem_of_bind. exists r. split; [|done]. by left.
Qed.

Lemma length_queue_le_queued (queues : gmap string ServerQueue) key q :
  queues !! key = Some q → length (queue_items q) ≤ length (queued queues).
Proof.
  intros Hq. unfold queued.
  rewrite (flatten_map_lookup _ _ _ _ Hq), length_app, length_fmap. lia.
Qed.

Lemma enqueue_replica_spec k n tablet table queues replica :
  is_Some (tablet_servers (cluster_ k) !! ts_uuid replica) →
  length (queued queues) < n →
  queues_of_directory k queues →
  ∃ queues',
    enqueue_replica k n tablet table queues replica = Ret queues'
    ∧ queued queues' ≡ₚ queued queues ++ [(tablet_id tablet, ts_uuid replica)]
    ∧ queues_of_directory k queues'.
Proof.
  intros [ts Hts] Hlen Hdir. unfold enqueue_replica, FindOrDie.
  rewrite Hts. simpl.
  destruct (queues !! ts_uuid replica) as [q|] eqn:Hq; simpl.
  - pose proof (length_queue_le_queued _ _ _ Hq).
    rewrite bool_decide_eq_true_2 by lia.
    eexists; split; [done|]. split.
    + unfold queued. rewrite flatten_map_insert. simpl.
      rewrite (flatten_map_lookup _ queues _ _ Hq).
      rewrite fmap_app. simpl.
      rewrite <- !app_assoc. apply Permutation_app_head. apply Permutation_app_comm.
    + intros key q' Hq'. destruct (decide (key = ts_uuid replica)) as [->|Hne].
      * rewrite lookup_insert_eq in Hq'. injection Hq' as <-. simpl. by apply Hdir.
      * rewrite lookup_insert_ne in Hq' by done. by apply Hdir.
  - rewrite bool_decide_eq_true_2 by lia.
    eexists; split; [done|]. split.
    + unfold queued. rewrite flatten_map_insert_fresh by done. simpl.
      apply Permutation_cons_append.
    + intros key q' Hq'. destruct (decide (key = ts_uuid replica)) as [->|Hne].
      * rewrite lookup_insert_eq in Hq'. by injection Hq' as <-.
      * rewrite lookup_insert_ne in Hq' by done. by apply Hdir.
Qed.

Lemma enqueue_tablet_spec k n tablet table (rs : list KsckTabletReplica) queues :
  Forall (λ replica, is_Some (tablet_servers (cluster_ k) !! ts_uuid replica)) rs →
  length (queued queues) + length rs ≤ n →
  queues_of_directory k queues →
  ∃ queues',
    for_each (enqueue_replica k n tablet table) rs queues = Ret queues'
    ∧ queued queues'
      ≡ₚ queued queues ++ ((λ replica, (tablet_id tablet, ts_uuid replica)) <$> rs)
    ∧ queues_of_directory k queues'.
Proof.
  revert queues. induction rs as [|r rs IH]; intros queues Hrs Hlen Hdir; simpl.
  - eexists; split; [done|]. by rewrite app_nil_r.
  - apply Forall_cons in Hrs as [Hr Hrs]. simpl in Hlen.
    destruct (enqueue_replica_spec k n tablet table queues r)
      as (q1 & -> & Hperm & Hdir1); [done|lia|done|]. simpl.
    destruct (IH q1) as (q2 & -> & Hperm2 & Hdir2); [done| |done|].
    { rewrite Hperm, length_app. simpl. lia. }
    eexists; split; [done|]. split; [|done].
    rewrite Hperm2, Hperm, <- app_assoc. done.
Qed.

Lemma enqueue_spec k n (es : list (KsckTablet * KsckTable)) queues :
  Forall (λ tablet,
            Forall (λ replica, is_Some (tablet_servers (cluster_ k) !! ts_uuid replica))
                   (replicas tablet)) es.*1 →
  length (queued queues) + length (work_items es.*1) ≤ n →
  queues_of_directory k queues →
  ∃ queues',
    for_each
      (λ queues entry,
         for_each (enqueue_replica k n entry.1 entry.2) (replicas entry.1) queues)
      es queues = Ret queues'
    ∧ queued queues' ≡ₚ queued queues ++ work_items es.*1
    ∧ queues_of_directory k queues'.
Proof.
  revert queues. induction es as [|[t tb] es IH]; intros queues Hes Hlen Hdir.
  - simpl. eexists; split; [done|]. by rewrite app_nil_r.
  - rewrite fmap_cons in Hes, Hlen. simpl in Hes, Hlen.
    apply Forall_cons in Hes as [He Hes].
    rewrite length_work_items_cons in Hlen.
    cbn [for_each]. simpl.
    destruct (enqueue_tablet_spec k n t tb (replicas t) queues)
      as (q1 & -> & Hperm & Hdir1); [done|lia|done|]. simpl.
    destruct (IH q1) as (q2 & Hq2 & Hperm2 & Hdir2); [done| |done|].
    { rewrite Hperm, length_app, length_fmap. lia. }
    rewrite Hq2.
    eexists; split; [done|]. split; [|done].
    rewrite Hperm2, Hperm. simpl. rewrite work_items_cons, <- app_assoc. done.
Qed.

End Enqueue.

(** *** The scheduler keeps its invariant *)

Section Scheduler.
Context {ext : Externals}.

Lemma elem_of_recorded c tid u v :
  (tid, u, v) ∈ recorded c ↔ ∃ m, c !! tid = Some m ∧ m !! u = Some v.
Proof.
  unfold recorded. rewrite elem_of_flatten_map. split.
  - intros (k & m & Hm & Hin). apply list_elem_of_fmap in Hin as ([u' v'] & [= -> -> ->] & Hin).
    apply elem_of_map_to_list in Hin. eauto.
  - intros (m & Hm & Hu). exists tid, m. split; [done|].
    apply list_elem_of_fmap. exists (u, v). split; [done|].
    by apply elem_of_map_to_list.
Qed.

Lemma elem_of_recorded_keys c tid u :
  (tid, u) ∈ recorded_keys c ↔ ∃ m, c !! tid = Some m ∧ is_Some (m !! u).
Proof.
  unfold recorded_keys. rewrite list_elem_of_fmap. split.
  - intros ([[tid' u'] v] & [= -> ->] & Hin). apply elem_of_recorded in Hin as (m & ? & ?).
    exists m. eauto.
  - intros (m & Hm & [v Hv]). exists (tid, u, v). split; [done|].
    apply elem_of_recorded. eauto.
Qed.

Lemma ReportResult_spec r tid u status checksum :
  (tid, u) ∉ recorded_keys (checksums_ r) →
  ∃ r', ReportResult r tid u status checksum = Ret r'
        ∧ recorded (checksums_ r') ≡ₚ (tid, u, (status, checksum)) :: recorded (checksums_ r)
        ∧ responses_ r' = Nat.pred (responses_ r)
        ∧ expected_count_ r' = expected_count_ r.
Proof.
  intros Hfresh. unfold ReportResult.
  destruct (checksums_ r !! tid) as [m|] eqn:Hm; simpl.
  - destruct (m !! u) as [v|] eqn:Hu.
    { exfalso. apply Hfresh, elem_of_recorded_keys. eauto. }
    eexists; split; [done|]. simpl. split; [|done].
    unfold recorded. rewrite flatten_map_insert.
    rewrite (flatten_map_lookup _ (checksums_ r) _ _ Hm).
    rewrite map_to_list_insert by done. done.
  - rewrite lookup_empty.
    eexists; split; [done|]. simpl. split; [|done].
    unfold recorded. rewrite flatten_map_insert_fresh by done.
    rewrite insert_empty, map_to_list_singleton. done.
Qed.

Lemma BlockingGet_Some (queues : gmap string ServerQueue) key item queues' :
  BlockingGet queues key = Some (item, queues') →
  queued queues ≡ₚ (item.2, key) :: queued queues'.
Proof.
  unfold BlockingGet. destruct (queues !! key) as [q|] eqn:Hq; [|done].
  destruct (queue_items q) as [|x rest] eqn:Hitems; [done|].
  intros [= <- <-]. unfold queued.
  rewrite flatten_map_insert, (flatten_map_lookup _ queues _ _ Hq), Hitems.
  done.
Qed.

Lemma insert_Permutation_delete {A} (l : list A) i y :
  i < length l → <[i:=y]> l ≡ₚ y :: delete i l.
Proof.
  revert i. induction l as [|x l IH]; intros [|i] Hi; simpl in *; try lia.
  - done.
  - rewrite IH by lia. apply Permutation_swap.
Qed.

Lemma filter_Permutation {A} (f : A → bool) l1 l2 :
  l1 ≡ₚ l2 → List.filter f l1 ≡ₚ List.filter f l2.
Proof.
  induction 1 as [|x l1 l2 _ IH|x y l|l1 l2 l3 _ IH1 _ IH2]; simpl.
  - done.
  - destruct (f x); by rewrite IH.
  - destruct (f x), (f y); try done. apply Permutation_swap.
  - by rewrite IH1.
Qed.

(** The callbacks objects that have not reported, when the one at
    position [i] is replaced. *)
Lemma unreported_insert (l : list TabletServerChecksumCallbacks) i cb cb' :
  l !! i = Some cb →
  List.filter (λ cb, negb (cb_reported cb)) l
  ≡ₚ (if cb_reported cb then [] else [cb])
     ++ List.filter (λ cb, negb (cb_reported cb)) (delete i l)
  ∧ List.filter (λ cb, negb (cb_reported cb)) (<[i:=cb']> l)
    ≡ₚ (if cb_reported cb' then [] else [cb'])
       ++ List.filter (λ cb, negb (cb_reported cb)) (delete i l).
Proof.
  intros Hcb. split.
  - rewrite (filter_Permutation _ _ _ (delete_Permutation _ _ _ Hcb)). simpl.
    by destruct (cb_reported cb).
  - rewrite (filter_Permutation _ _ _
               (insert_Permutation_delete _ _ cb' (lookup_lt_Some _ _ _ Hcb))).
    simpl. by destruct (cb_reported cb').
Qed.

Lemma Progress_inv W i rows bytes st :
  scan_inv W st → scan_inv W (Progress i rows bytes st).
Proof.
  unfold Progress. destruct (in_flight st !! i) as [cb|]; [|done].
  by destruct (cb_reported cb).
Qed.

Lemma Finished_report_inv W i status checksum st :
  NoDup W → scan_inv W st →
  ∃ st', Finished_report i status checksum st = Ret st' ∧ scan_inv W st'.
Proof.
  intros HW (Hperm & Hresp & Hcbs). unfold Finished_report.
  destruct (in_flight st !! i) as [cb|] eqn:Hcb; [|by eexists].
  destruct (cb_reported cb) eqn:Hrep; [by eexists|].
  assert (uuid (cb_tablet_server cb) = cb_queue cb) as Huuid.
  { eapply Forall_lookup_1 in Hcbs; [|done]. done. }
  set (cb' := {| cb_tablet_server := cb_tablet_server cb; cb_queue := cb_queue cb;
                 cb_tablet_id := cb_tablet_id cb; cb_reported := true |}).
  destruct (unreported_insert _ _ _ cb' Hcb) as [Hold Hnew].
  rewrite Hrep in Hold. simpl in Hold, Hnew.
  set (rest := ((λ cb, (cb_tablet_id cb, cb_queue cb))
                <$> List.filter (λ cb, negb (cb_reported cb)) (delete i (in_flight st)))
               ++ queued (tablet_server_queues st)).
  assert (pending st ≡ₚ (cb_tablet_id cb, cb_queue cb) :: rest) as Hpend.
  { unfold pending, rest. by rewrite Hold. }
  assert ((cb_tablet_id cb, uuid (cb_tablet_server cb))
          ∉ recorded_keys (checksums_ (reporter st))) as Hfresh.
  { rewrite Huuid. rewrite <- Hperm, Hpend in HW.
    apply NoDup_app in HW as (_ & Hdisj & _).
    intros Hin. apply (Hdisj _ Hin). by left. }
  destruct (ReportResult_spec (reporter st) _ _ status checksum Hfresh)
    as (rep & -> & Hrec & Hpred & _). simpl.
  assert (recorded_keys (checksums_ rep)
          ≡ₚ (cb_tablet_id cb, cb_queue cb) :: recorded_keys (checksums_ (reporter st)))
    as Hkeys.
  { unfold recorded_keys. rewrite Hrec. simpl. by rewrite Huuid. }
  eexists; split; [done|].
  assert (pending {| reporter := rep;
                     tablet_server_queues := tablet_server_queues st;
                     in_flight := <[i:=cb']> (in_flight st);
                     scans := scans st |} ≡ₚ rest) as Hpend'.
  { unfold pending, rest. simpl. by rewrite Hnew. }
  split; [|split]; simpl.
  - rewrite Hkeys, Hpend', <- Hperm, Hpend. simpl.
    by rewrite <- Permutation_middle.
  - rewrite Hpend', Hpred, Hresp, Hpend. done.
  - by apply Forall_insert.
Qed.

Lemma Finished_next_inv W options i st :
  scan_inv W st → scan_inv W (Finished_next options i st).
Proof.
  intros (Hperm & Hresp & Hcbs). unfold Finished_next.
  destruct (in_flight st !! i) as [cb|] eqn:Hcb; [|done].
  destruct (cb_reported cb) eqn:Hrep; [|done].
  assert (uuid (cb_tablet_server cb) = cb_queue cb) as Huuid.
  { eapply Forall_lookup_1 in Hcbs; [|done]. done. }
  destruct (BlockingGet _ _) as [[item queues]|] eqn:Hget.
  - apply BlockingGet_Some in Hget.
    set (cb' := {| cb_tablet_server := cb_tablet_server cb; cb_queue := cb_queue cb;
                   cb_tablet_id := item.2; cb_reported := false |}).
    destruct (unreported_insert _ _ _ cb' Hcb) as [Hold Hnew].
    rewrite Hrep in Hold. simpl in Hold, Hnew.
    assert (pending {| reporter := reporter st; tablet_server_queues := queues;
                       in_flight := <[i:=cb']> (in_flight st);
                       scans := scans st
                                ++ [scan_call (cb_tablet_server cb) item options] |}
            ≡ₚ pending st) as Hpend.
    { unfold pending. simpl. rewrite Hnew, Hold, Hget. simpl.
      by rewrite <- Permutation_middle. }
    split; [|split]; simpl.
    + by rewrite Hpend.
    + by rewrite Hpend.
    + by apply Forall_insert.
  - destruct (unreported_insert _ _ _ cb Hcb) as [Hold _].
    rewrite Hrep in Hold. simpl in Hold.
    assert (pending {| reporter := reporter st;
                       tablet_server_queues := tablet_server_queues st;
                       in_flight := delete i (in_flight st);
                       scans := scans st |}
            ≡ₚ pending st) as Hpend.
    { unfold pending. simpl. by rewrite Hold. }
    split; [|split]; simpl.
    + by rewrite Hpend.
    + by rewrite Hpend.
    + by apply Forall_delete.
Qed.

Lemma scan_step_inv W options st ev :
  NoDup W → scan_inv W st →
  ∃ st', scan_step options st ev = Ret st' ∧ scan_inv W st'.
Proof.
  intros HW Hinv. destruct ev as [i rows bytes|i status checksum|i]; simpl.
  - eexists; split; [done|]. by apply Progress_inv.
  - by apply Finished_report_inv.
  - eexists; split; [done|]. by apply Finished_next_inv.
Qed.

Lemma scan_steps_inv W options evs st :
  NoDup W → scan_inv W st →
  ∃ st', for_each (scan_step options) evs st = Ret st' ∧ scan_inv W st'.
Proof.
  intros HW. revert st. induction evs as [|ev evs IH]; intros st Hinv.
  - by eexists.
  - cbn [for_each].
    destruct (scan_step_inv W options st ev HW Hinv) as (st1 & -> & Hinv1).
    simpl. by apply IH.
Qed.

(** The two steps of [Finished] in a row are [Finished]. *)
Lemma Finished_steps options i status checksum st :
  for_each (scan_step options) [ev_Finished i status checksum; ev_Finished_next i] st
  = Finished options i status checksum st.
Proof.
  unfold Finished. simpl. by destruct (Finished_report i status checksum st).
Qed.

(** Once all results are reported, the steps that are left only delete
    callbacks objects. *)
Lemma BlockingGet_None (queues : gmap string ServerQueue) key :
  queued queues = [] → BlockingGet queues key = None.
Proof.
  intros Hq. unfold BlockingGet.
  destruct (queues !! key) as [q|] eqn:Hkey; [|done].
  destruct (queue_items q) as [|item rest] eqn:Hitems; [done|].
  assert ((item.2, key) ∈ queued queues) as Hin.
  { unfold queued. apply elem_of_flatten_map. exists key, q. split; [done|].
    rewrite Hitems. by left. }
  rewrite Hq in Hin. by apply elem_of_nil in Hin.
Qed.

Lemma scan_step_quiet options st ev :
  pending st = [] →
  ∃ st', scan_step options st ev = Ret st'
         ∧ reporter st' = reporter st ∧ scans st' = scans st
         ∧ pending st' = [].
Proof.
  intros Hp. pose proof Hp as Hp'. unfold pending in Hp'.
  apply app_eq_nil in Hp' as [Hcbs Hq]. apply fmap_nil_inv in Hcbs.
  assert (∀ j cb, in_flight st !! j = Some cb → cb_reported cb = true) as Hall.
  { intros j cb Hcb. apply list_elem_of_lookup_2 in Hcb.
    rewrite filter_nil_iff in Hcbs. specialize (Hcbs cb Hcb).
    by apply negb_false_iff in Hcbs. }
  destruct ev as [i rows bytes|i status checksum|i]; simpl.
  - unfold Progress. destruct (in_flight st !! i) as [cb|] eqn:Hcb; [|by eexists].
    rewrite (Hall i cb Hcb). by eexists.
  - unfold Finished_report.
    destruct (in_flight st !! i) as [cb|] eqn:Hcb; [|by eexists].
    rewrite (Hall i cb Hcb). by eexists.
  - unfold Finished_next.
    destruct (in_flight st !! i) as [cb|] eqn:Hcb; [|by eexists].
    rewrite (Hall i cb Hcb), (BlockingGet_None _ _ Hq).
    eexists; split; [done|]. split; [done|]. split; [done|].
    unfold pending. simpl. rewrite Hq, app_nil_r.
    destruct (unreported_insert _ _ _ cb Hcb) as [Hold _].
    rewrite Hcbs, (Hall i cb Hcb) in Hold. simpl in Hold.
    apply Permutation_nil in Hold. by rewrite Hold.
Qed.

Lemma scan_steps_quiet options evs st :
  pending st = [] →
  ∃ st', for_each (scan_step options) evs st = Ret st'
         ∧ reporter st' = reporter st ∧ scans st' = scans st
         ∧ pending st' = [].
Proof.
  revert st. induction evs as [|ev evs IH]; intros st Hp.
  - by eexists.
  - cbn [for_each].
    destruct (scan_step_quiet options st ev Hp) as (st1 & -> & Hr1 & Hs1 & Hp1).
    simpl. destruct (IH st1 Hp1) as (st2 & -> & Hr2 & Hs2 & Hp2).
    eexists; split; [done|]. by rewrite Hr2, Hs2.
Qed.

End Scheduler.

(** *** The result loop *)

Section Walk.
Context {ext : Externals}.

Lemma counted_trans t1 t2 t3 e m r e' m' r' :
  counted t1 t2 e m r → counted t2 t3 e' m' r' →
  counted t1 t3 (e + e') (m + m') (r + r').
Proof. unfold counted. intros (?&?&?) (?&?&?). repeat split; lia. Qed.

Lemma walk_replica_spec k table tablet w u status checksum :
  is_Some (tablet_servers (cluster_ k) !! u) →
  ∃ w', walk_replica k table tablet w (u, (status, checksum)) = Ret w'
        ∧ num_results (tally w') = S (num_results (tally w))
        ∧ num_errors (tally w') = (if ok status then 0 else 1) + num_errors (tally w)
        ∧ num_mismatches (tally w')
          = (if ok status && seen_first_replica w
                && negb (bool_decide (checksum = first_checksum w))
             then 1 else 0) + num_mismatches (tally w)
        ∧ seen_first_replica w' = (ok status || seen_first_replica w)
        ∧ first_checksum w'
          = (if ok status && negb (seen_first_replica w) then checksum
             else first_checksum w).
Proof.
  intros [ts Hts]. unfold walk_replica, FindOrDie. simpl. rewrite Hts. simpl.
  destruct (ok status), (seen_first_replica w); simpl;
    try destruct (bool_decide (checksum = first_checksum w)); simpl;
    eexists; (split; [reflexivity|]); simpl; done.
Qed.

Lemma walk_replicas k table tablet rs w :
  Forall (λ r, is_Some (tablet_servers (cluster_ k) !! r.1)) rs →
  ∃ w', for_each (walk_replica k table tablet) rs w = Ret w'
        ∧ counted (tally w) (tally w') (errors_in rs)
            (if seen_first_replica w then mismatches_after (first_checksum w) rs
             else mismatches_in rs)
            (length rs).
Proof.
  revert w. induction rs as [|[u [status checksum]] rs IH]; intros w Hrs.
  - simpl. eexists; split; [done|]. by destruct (seen_first_replica w).
  - apply Forall_cons in Hrs as [Hts Hrs]. cbn [for_each].
    destruct (walk_replica_spec k table tablet w u status checksum Hts)
      as (w1 & -> & Hr & He & Hm & Hseen & Hfirst).
    destruct (IH w1 Hrs) as (w2 & Hw2 & He2 & Hm2 & Hr2).
    exists w2. split; [done|].
    rewrite Hseen, Hfirst in Hm2.
    unfold counted, errors_in, mismatches_after in *. cbn [List.filter mismatches_in].
    simpl fst; simpl snd.
    destruct (ok status), (seen_first_replica w); simpl in *;
      try destruct (bool_decide (checksum = first_checksum w)); simpl in *;
      repeat split; unfold mismatches_after; lia.
Qed.

Lemma tablet_results_known k c tablet :
  results_known k c →
  Forall (λ r, is_Some (tablet_servers (cluster_ k) !! r.1)) (tablet_results c tablet).
Proof.
  intros Hknown. unfold tablet_results.
  destruct (c !! tablet_id tablet) as [m|] eqn:Hm; [|constructor].
  apply Forall_forall. intros [u v] Hin. simpl.
  unfold umap_entries in Hin. rewrite umap_order_perm in Hin.
  apply elem_of_map_to_list in Hin. eapply Hknown; [done|]. eauto.
Qed.

Lemma walk_tablet_spec k c table acc tablet :
  results_known k c →
  ∃ acc', walk_tablet k c table acc tablet = Ret acc'
          ∧ counted acc.2 acc'.2 (errors_in (tablet_results c tablet))
              (mismatches_in (tablet_results c tablet))
              (length (tablet_results c tablet)).
Proof.
  intros Hknown. pose proof (tablet_results_known k c tablet Hknown) as Hrs.
  unfold walk_tablet, tablet_results in *.
  destruct (c !! tablet_id tablet) as [m|]; [|by eexists].
  edestruct walk_replicas as (w' & -> & Hc); [exact Hrs|].
  eexists; split; [done|]. simpl in *. by destruct acc.1.
Qed.

Lemma visited_cons c tablet l :
  visited c (tablet :: l)
  = ((λ r : string * (Status * N), (tablet_id tablet, r.1, r.2))
     <$> tablet_results c tablet) ++ visited c l.
Proof. done. Qed.

Lemma visited_app c l1 l2 : visited c (l1 ++ l2) = visited c l1 ++ visited c l2.
Proof. unfold visited. by rewrite bind_app. Qed.

Lemma mismatches_of_app c l1 l2 :
  mismatches_of c (l1 ++ l2) = mismatches_of c l1 + mismatches_of c l2.
Proof. induction l1 as [|t l1 IH]; simpl; [done|]. rewrite IH. lia. Qed.

Lemma visited_errors_app l1 l2 :
  visited_errors (l1 ++ l2) = visited_errors l1 + visited_errors l2.
Proof. unfold visited_errors. by rewrite List.filter_app, length_app. Qed.

Lemma visited_errors_tablet (tid : string) (rs : list (string * (Status * N))) :
  visited_errors ((λ r : string * (Status * N), (tid, r.1, r.2)) <$> rs) = errors_in rs.
Proof.
  unfold visited_errors, errors_in.
  induction rs as [|[u [status checksum]] rs IH]; simpl; [done|].
  destruct (ok status); simpl; [exact IH|f_equal; exact IH].
Qed.

Lemma walk_tablets_spec k c table tablets acc :
  results_known k c →
  ∃ acc', for_each (walk_tablet k c table) tablets acc = Ret acc'
          ∧ counted acc.2 acc'.2 (visited_errors (visited c tablets))
              (mismatches_of c tablets) (length (visited c tablets)).
Proof.
  intros Hknown. revert acc. induction tablets as [|t ts IH]; intros acc.
  - simpl. by eexists.
  - cbn [for_each].
    destruct (walk_tablet_spec k c table acc t Hknown) as (acc1 & -> & Hc1). simpl.
    destruct (IH acc1) as (acc2 & -> & Hc2).
    eexists; split; [done|].
    rewrite visited_cons, visited_errors_app, length_app, length_fmap,
      visited_errors_tablet.
    by eapply counted_trans.
Qed.

Lemma walk_table_spec k c t table :
  results_known k c →
  ∃ t', walk_table k c t table = Ret t'
        ∧ counted t t' (visited_errors (visited c (tablets table)))
            (mismatches_of c (tablets table)) (length (visited c (tablets table))).
Proof.
  intros Hknown. unfold walk_table.
  destruct (walk_tablets_spec k c table (tablets table) (false, t) Hknown)
    as ([printed t1] & -> & Hc1). simpl in Hc1. simpl.
  eexists; split; [done|]. by destruct printed.
Qed.

Lemma walk_tables_spec k c tbls t :
  results_known k c →
  ∃ t', for_each (walk_table k c) tbls t = Ret t'
        ∧ counted t t' (visited_errors (visited c (table ← tbls; tablets table)))
            (mismatches_of c (table ← tbls; tablets table))
            (length (visited c (table ← tbls; tablets table))).
Proof.
  intros Hknown. revert t. induction tbls as [|tb tbls IH]; intros t.
  - simpl. by eexists.
  - cbn [for_each].
    destruct (walk_table_spec k c t tb Hknown) as (t1 & -> & Hc1). simpl.
    destruct (IH t1) as (t2 & -> & Hc2).
    eexists; split; [done|].
    rewrite visited_app, visited_errors_app, length_app, mismatches_of_app.
    by eapply counted_trans.
Qed.

End Walk.

(** *** The result loop visits every recorded result once *)

Section Visited.
Context {ext : Externals}.

Lemma visited_errors_Permutation l1 l2 :
  l1 ≡ₚ l2 → visited_errors l1 = visited_errors l2.
Proof.
  unfold visited_errors. induction 1 as [|x l1 l2 _ IH|x y l|l1 l2 l3 _ IH1 _ IH2]; simpl.
  - done.
  - destruct (negb _); simpl; by rewrite IH.
  - by destruct (negb (ok x.2.1)), (negb (ok y.2.1)).
  - by rewrite IH1.
Qed.

Lemma visited_ext c c' l :
  (∀ tablet, tablet ∈ l → c !! tablet_id tablet = c' !! tablet_id tablet) →
  visited c l = visited c' l.
Proof.
  induction l as [|t l IH]; intros Hext; [done|].
  rewrite !visited_cons. unfold tablet_results.
  rewrite (Hext t) by left. f_equal. apply IH. intros ??. apply Hext. by right.
Qed.

Lemma visited_recorded c l :
  NoDup (tablet_id <$> l) →
  (∀ tid u, (tid, u) ∈ recorded_keys c → tid ∈ tablet_id <$> l) →
  visited c l ≡ₚ recorded c.
Proof.
  revert c. induction l as [|t l IH]; intros c Hnodup Hdom.
  - assert (recorded c = []) as ->; [|done].
    apply elem_of_nil_inv. intros [[tid u] v] Hin.
    assert ((tid, u) ∈ recorded_keys c) as Hk.
    { apply list_elem_of_fmap. by exists (tid, u, v). }
    apply Hdom in Hk. by apply elem_of_nil in Hk.
  - rewrite fmap_cons in Hnodup. apply NoDup_cons in Hnodup as [Hnotin Hnodup].
    rewrite visited_cons. unfold tablet_results.
    destruct (c !! tablet_id t) as [m|] eqn:Hm.
    + unfold recorded at 1. rewrite (flatten_map_lookup _ c _ _ Hm).
      unfold umap_entries. rewrite umap_order_perm.
      apply Permutation_app_head.
      rewrite (visited_ext c (delete (tablet_id t) c)).
      * apply IH; [done|]. intros tid u Hin.
        apply elem_of_recorded_keys in Hin as (m' & Hm' & Hu).
        destruct (decide (tid = tablet_id t)) as [->|Hne].
        { by rewrite lookup_delete_eq in Hm'. }
        rewrite lookup_delete_ne in Hm' by done.
        assert (tid ∈ tablet_id <$> t :: l) as Hin.
        { apply (Hdom tid u), elem_of_recorded_keys. eauto. }
        rewrite fmap_cons in Hin. apply elem_of_cons in Hin as [?|?]; done.
      * intros tb Htb. rewrite lookup_delete_ne; [done|].
        intros Heq. apply Hnotin. rewrite Heq. apply list_elem_of_fmap. eauto.
    + simpl. apply IH; [done|]. intros tid u Hin.
      pose proof (Hdom tid u Hin) as Hin'.
      rewrite fmap_cons in Hin'. apply elem_of_cons in Hin' as [->|?]; [|done].
      apply elem_of_recorded_keys in Hin as (m' & Hm' & _). congruence.
Qed.

End Visited.

(** *** The start of the scans *)

Section KickOff.
Context {ext : Externals}.

Lemma start_scan_inv W options key ts st :
  uuid ts = key → scan_inv W st → scan_inv W (start_scan options key ts st).
Proof.
  intros Huuid Hinv. unfold start_scan.
  destruct (BlockingGet _ _) as [[item queues]|] eqn:Hget; [|done].
  apply BlockingGet_Some in Hget. destruct Hinv as (Hperm & Hresp & Hcbs).
  split; [|split]; simpl.
  - rewrite <- Hperm. unfold pending. simpl.
    rewrite List.filter_app, fmap_app, Hget. simpl.
    apply Permutation_app_head. rewrite <- app_assoc. simpl.
    by rewrite <- Permutation_middle.
  - rewrite Hresp. unfold pending. simpl.
    rewrite List.filter_app, fmap_app, Hget, !length_app. simpl.
    rewrite ?length_app. simpl. lia.
  - apply Forall_app. split; [done|]. by constructor.
Qed.

Lemma kick_off_server_inv W options key ts n acc :
  NoDup W → uuid ts = key → scan_inv W acc.1 →
  ∃ acc', kick_off_server options key ts n acc = Ret acc' ∧ scan_inv W acc'.1.
Proof.
  intros HW Huuid. revert acc.
  induction n as [|n IH]; intros [st batches] Hinv; simpl; [by eexists|].
  destruct (scan_steps_inv W options (default [] (head batches))
              (start_scan options key ts st) HW) as (st' & -> & Hinv').
  { by apply start_scan_inv. }
  simpl. by apply IH.
Qed.

Lemma kick_off_inv W options (queues : gmap string ServerQueue) rep batches :
  NoDup W →
  map_Forall (λ key q, uuid (queue_server q) = key) queues →
  queued queues ≡ₚ W →
  checksums_ rep = ∅ →
  responses_ rep = length W →
  ∃ st, ChecksumData_kick_off options queues rep batches = Ret st
        ∧ scan_inv W st.
Proof.
  intros HW Hservers Hq Hc Hresp. unfold ChecksumData_kick_off.
  assert (Forall (λ entry : string * ServerQueue,
                    uuid (queue_server entry.2) = entry.1)
                 (umap_entries queues)) as Hentries.
  { apply Forall_forall. intros [key q] Hin.
    unfold umap_entries in Hin. rewrite umap_order_perm in Hin.
    apply elem_of_map_to_list in Hin. by apply (Hservers key q). }
  assert (scan_inv W {| reporter := rep; tablet_server_queues := queues;
                        in_flight := []; scans := [] |}) as Hinit.
  { split; [|split]; simpl.
    - unfold recorded_keys, recorded, pending. simpl.
      rewrite Hc, flatten_map_empty. done.
    - unfold pending. simpl. by rewrite Hresp, Hq.
    - constructor. }
  assert (∀ es (acc : ScanState * list (list scan_event)),
            Forall (λ entry : string * ServerQueue,
                      uuid (queue_server entry.2) = entry.1) es →
            scan_inv W acc.1 →
            ∃ acc',
              for_each
                (λ (acc : ScanState * list (list scan_event)) entry,
                   kick_off_server options entry.1 (queue_server entry.2)
                     (Z.to_nat (scan_concurrency options)) acc)
                es acc = Ret acc'
              ∧ scan_inv W acc'.1) as Hloop.
  { induction es as [|e es IH]; intros acc Hes Hinv; simpl; [by eexists|].
    apply Forall_cons in Hes as [He Hes].
    destruct (kick_off_server_inv W options e.1 (queue_server e.2)
                (Z.to_nat (scan_concurrency options)) acc HW He Hinv)
      as (acc1 & -> & Hinv1).
    simpl. by apply IH. }
  destruct (Hloop (umap_entries queues)
              ({| reporter := rep; tablet_server_queues := queues;
                  in_flight := []; scans := [] |}, batches) Hentries Hinit)
    as (acc & -> & Hinv).
  simpl. by eexists.
Qed.

Lemma scan_steps_idle options evs st :
  in_flight st = [] → for_each (scan_step options) evs st = Ret st.
Proof.
  intros Hidle. induction evs as [|ev evs IH]; simpl; [done|].
  destruct ev as [i rows bytes|i status checksum|i]; simpl.
  - unfold Progress. rewrite Hidle. simpl. exact IH.
  - unfold Finished_report. rewrite Hidle. simpl. exact IH.
  - unfold Finished_next. rewrite Hidle. simpl. exact IH.
Qed.

End KickOff.

(** *** A whole run *)

Section Run.
Context {ext : Externals}.

Lemma ChecksumData_timestamp_timeout opts queues options log :
  ChecksumData_timestamp opts queues = inr (options, log) →
  timeout options = timeout opts.
Proof.
  unfold ChecksumData_timestamp.
  destruct (use_snapshot opts && _); [|by intros [= <- _]].
  destruct (List.find _ _); simpl; case_bool_decide; try done; by intros [= <- _].
Qed.

(** What the resolution of the snapshot timestamp does when it is asked
    for: it looks for the first healthy server of the queue map, and it
    fails both when there is none and when that server reports the
    timestamp 0, which is [kCurrentTimestamp]. *)
Lemma ChecksumData_timestamp_spec opts (queues : gmap string ServerQueue) :
  use_snapshot opts = true →
  snapshot_timestamp opts = kCurrentTimestamp →
  ChecksumData_timestamp opts queues
  = match List.find (λ ts, is_healthy (queue_server ts.2))
                    (umap_entries queues) with
    | Some ts =>
        if bool_decide (current_timestamp (queue_server ts.2) = kCurrentTimestamp)
        then inl (ServiceUnavailable
                    "No tablet servers were available to fetch the current timestamp")
        else inr (with_snapshot_timestamp opts
                    (current_timestamp (queue_server ts.2)),
                  [Info ("Using snapshot timestamp: "
                         +:+ pretty (current_timestamp (queue_server ts.2)))])
    | None =>
        inl (ServiceUnavailable
               "No tablet servers were available to fetch the current timestamp")
    end.
Proof.
  intros Huse Hzero. unfold ChecksumData_timestamp.
  rewrite Huse, Hzero, bool_decide_eq_true_2 by done. simpl.
  destruct (List.find _ _) as [ts|]; simpl.
  - by case_bool_decide.
  - by rewrite Hzero, bool_decide_eq_true_2.
Qed.

Lemma ChecksumData_status_timeout options opts n timed_out t :
  timeout options = timeout opts →
  ChecksumData_status options n timed_out t = ChecksumData_status opts n timed_out t.
Proof. intros Ht. unfold ChecksumData_status. by rewrite Ht. Qed.

Lemma ChecksumData_spec k opts env :
  snapshot_wf (cluster_ k) →
  ∃ r, ChecksumData k opts env = Ret r
    ∧ (run_summary r = None →
       code (run_status r) = kNotFound ∨ code (run_status r) = kServiceUnavailable)
    ∧ ∀ s, run_summary r = Some s →
        num_tablet_replicas s = length (work_items (selected k).*1)
        ∧ recorded_keys (checksums s) ⊆+ work_items (selected k).*1
        ∧ num_results (counters s) = length (recorded (checksums s))
        ∧ num_errors (counters s) = visited_errors (recorded (checksums s))
        ∧ num_mismatches (counters s)
          = mismatches_of (checksums s) (all_tablets (cluster_ k))
        ∧ num_results (counters s) ≤ num_tablet_replicas s
        ∧ (num_results (counters s) < num_tablet_replicas s → timed_out s = true)
        ∧ ChecksumData_status opts (num_tablet_replicas s) (timed_out s) (counters s)
          = Ret (run_status r).
Proof.
  intros (Hids & Hreps & Huuids).
  unfold ChecksumData. rewrite ChecksumData_select_spec.
  set (L := (selected k).*1). set (W := work_items L).
  case_bool_decide as Hn.
  { eexists; split; [done|]. split; [by left|]. by intros s [=]. }
  pose proof (selected_sublist k) as Hsub. fold L in Hsub.
  assert (Forall (λ tablet,
            NoDup (ts_uuid <$> replicas tablet)
            ∧ Forall (λ replica, is_Some (tablet_servers (cluster_ k) !! ts_uuid replica))
                     (replicas tablet)) L) as HL.
  { apply Forall_forall. intros tablet Hin.
    eapply Forall_forall in Hreps; [exact Hreps|]. by eapply elem_of_sublist. }
  assert (NoDup W) as HW.
  { apply work_items_NoDup.
    - eapply sublist_NoDup; [exact Hids|]. by apply fmap_sublist.
    - eapply Forall_impl; [exact HL|]. by intros ? [? _]. }
  assert ((umap_order (selected k)).*1 ≡ₚ L) as Hes.
  { unfold L. by rewrite umap_order_perm. }
  assert (work_items (umap_order (selected k)).*1 ≡ₚ W) as HWes.
  { unfold W, work_items. by rewrite Hes. }
  destruct (enqueue_spec k (length W) (umap_order (selected k)) ∅)
    as (queues & Henq & Hq & Hdir).
  { rewrite Hes. eapply Forall_impl; [exact HL|]. by intros ? [_ ?]. }
  { unfold queued at 1. rewrite flatten_map_empty, HWes. simpl. lia. }
  { intros key q. by rewrite lookup_empty. }
  unfold ChecksumData_enqueue. rewrite Henq. simpl.
  unfold queued at 2 in Hq. rewrite flatten_map_empty in Hq. simpl in Hq.
  rewrite HWes in Hq.
  destruct (ChecksumData_timestamp opts queues) as [s0|[options log]] eqn:Hts.
  { eexists; split; [done|]. split; [|by intros s [=]]. intros _. right. simpl.
    unfold ChecksumData_timestamp in Hts.
    destruct (use_snapshot opts && _); [|done].
    case_bool_decide; [|done]. by injection Hts as <-. }
  apply ChecksumData_timestamp_timeout in Hts.
  destruct (kick_off_inv W options queues (new_reporter (length W))
              (events_while_starting env) HW) as (st0 & -> & Hinv0); [|done..|].
  { intros key q Hkq. apply Hdir in Hkq. by apply Huuids in Hkq. }
  simpl.
  destruct (scan_steps_inv W options (events_while_waiting env) _ HW Hinv0)
    as (st1 & -> & Hinv1). simpl.
  destruct (scan_steps_inv W options (events_before_copy env) _ HW Hinv1)
    as (st2 & Hst2 & Hinv2). rewrite Hst2. simpl.
  set (c := checksums_ (reporter st2)).
  destruct Hinv2 as (Hperm2 & Hresp2 & _). fold c in Hperm2.
  assert (∀ tid u, (tid, u) ∈ recorded_keys c →
            ∃ tablet replica, tablet ∈ L ∧ replica ∈ replicas tablet
                              ∧ tid = tablet_id tablet ∧ u = ts_uuid replica) as Hkeys.
  { intros tid u Hin. apply elem_of_work_items. fold W. rewrite <- Hperm2.
    apply elem_of_app. by left. }
  assert (results_known k c) as Hknown.
  { intros tid m u Hm Hu.
    destruct (Hkeys tid u) as (tablet & replica & Ht & Hr & -> & ->).
    { apply elem_of_recorded_keys. eauto. }
    eapply Forall_forall in HL as [_ HLr]; [|exact Ht].
    eapply Forall_forall in HLr; [|exact Hr]. done. }
  assert (visited c (all_tablets (cluster_ k)) ≡ₚ recorded c) as Hvis.
  { apply visited_recorded; [done|]. intros tid u Hin.
    destruct (Hkeys tid u Hin) as (tablet & _ & Ht & _ & -> & _).
    apply list_elem_of_fmap. exists tablet. split; [done|].
    by eapply elem_of_sublist. }
  destruct (walk_tables_spec k c (tables (cluster_ k))
              {| num_errors := 0; num_mismatches := 0; num_results := 0;
                 tally_output := [] |} Hknown) as (t & Hwalk & He & Hm & Hr).
  unfold ChecksumData_walk. rewrite Hwalk. simpl in He, Hm, Hr. simpl.
  fold (all_tablets (cluster_ k)) in He, Hm, Hr.
  rewrite (visited_errors_Permutation _ _ Hvis) in He. rewrite Hvis in Hr.
  rewrite !Nat.add_0_r in *.
  assert (length (recorded c) + length (pending st2) = length W) as Hlen.
  { rewrite <- Hperm2, length_app. unfold recorded_keys. by rewrite length_fmap. }
  assert (num_results t < length W → negb (WaitFor env (reporter st1)) = true) as Htimed.
  { intros Hlt. destruct (WaitFor env (reporter st1)) eqn:Hwait; [|done]. exfalso.
    unfold WaitFor in Hwait. apply andb_true_iff in Hwait as [Hzero _].
    apply bool_decide_eq_true in Hzero.
    destruct Hinv1 as (_ & Hresp1 & _). rewrite Hresp1 in Hzero.
    apply length_zero_iff_nil in Hzero.
    destruct (scan_steps_quiet options (events_before_copy env) st1 Hzero)
      as (st2' & Hst2' & _ & _ & Hp2).
    rewrite Hst2' in Hst2. injection Hst2 as ->.
    rewrite Hp2 in Hlen. simpl in Hlen. lia. }
  assert (num_results t ≤ length W) as Hle by lia.
  assert (∃ status, ChecksumData_status options (length W)
                      (negb (WaitFor env (reporter st1))) t = Ret status)
    as [status Hstatus].
  { unfold ChecksumData_status. case_bool_decide as Heq; simpl; [|].
    - repeat case_bool_decide; simpl; by eexists.
    - rewrite Htimed by lia. by eexists. }
  rewrite Hstatus. simpl. eexists; split; [done|]. split; [done|].
  intros s [= <-]. simpl.
  rewrite <- (ChecksumData_status_timeout options opts) by done.
  repeat split; try done.
  fold L W. rewrite <- Hperm2. by apply submseteq_inserts_r.
Qed.

End Run.

(** *** Status, bounds, mismatches and empty selections *)

Section Claims.
Context {ext : Externals}.

Lemma ChecksumData_status_terminal opts s status :
  num_results (counters s) ≤ num_tablet_replicas s →
  ChecksumData_status opts (num_tablet_replicas s) (timed_out s) (counters s) = Ret status →
  status = terminal_status opts s.
Proof.
  intros Hle. unfold ChecksumData_status, terminal_status.
  destruct (timed_out s); repeat case_bool_decide; simpl; try lia;
    try done; by intros [= <-].
Qed.

(** C9: over a well-formed snapshot [ChecksumData] never aborts, so the
    CHECK on [timed_out] holds whenever it is reached: the recorded
    results are work items of the filtered replicas, each at most once,
    their number [num_results] is at most [num_tablet_replicas], and when
    it is smaller [WaitFor] has timed out. *)
Theorem ChecksumData_results_bounded (k : Ksck) (opts : ChecksumOptions) (env : ScanEnv) :
  snapshot_wf (cluster_ k) →
  ∃ r, ChecksumData k opts env = Ret r
    ∧ ∀ s, run_summary r = Some s →
        num_tablet_replicas s = length (work_items (selected k).*1)
        ∧ fst <$> recorded (checksums s) ⊆+ work_items (selected k).*1
        ∧ num_results (counters s) = length (recorded (checksums s))
        ∧ num_results (counters s) ≤ num_tablet_replicas s
        ∧ (num_results (counters s) < num_tablet_replicas s → timed_out s = true).
Proof.
  intros Hwf. destruct (ChecksumData_spec k opts env Hwf) as (r & Hr & _ & Hs).
  exists r. split; [done|]. intros s Hsum.
  destruct (Hs s Hsum) as (Hn & Hsub & Hres & _ & _ & Hle & Hlt & _).
  done.
Qed.

Lemma mismatches_of_elem c tablet l :
  tablet ∈ l → mismatches_in (tablet_results c tablet) ≤ mismatches_of c l.
Proof.
  induction l as [|t l IH]; intros Hin; [by apply elem_of_nil in Hin|].
  apply elem_of_cons in Hin as [->|Hin]; simpl; [lia|].
  specialize (IH Hin). lia.
Qed.

Lemma Permutation_pair_inv (x y a b : N) :
  [x; y] ≡ₚ [a; b] → (x = a ∧ y = b) ∨ (x = b ∧ y = a).
Proof.
  intros Hp.
  assert (x ∈ [a; b]) as Hx by (rewrite <- Hp; left).
  apply elem_of_cons in Hx as [->|Hx].
  - apply Permutation_cons_inv, Permutation_singleton_r in Hp. injection Hp as ->. by left.
  - apply list_elem_of_singleton in Hx as ->.
    rewrite <- (Permutation_swap a b []) in Hp.
    apply Permutation_cons_inv, Permutation_singleton_r in Hp. injection Hp as ->. by right.
Qed.

Lemma Permutation_AAB_inv (l : list N) (A B : N) :
  l ≡ₚ [A; A; B] → l = [A; A; B] ∨ l = [A; B; A] ∨ l = [B; A; A].
Proof.
  intros Hp. pose proof (Permutation_length Hp) as Hlen.
  destruct l as [|x [|y [|z [|]]]]; try done.
  assert (x ∈ [A; A; B]) as Hx by (rewrite <- Hp; left).
  apply elem_of_cons in Hx as [->|Hx].
  - apply Permutation_cons_inv, Permutation_pair_inv in Hp as [[-> ->]|[-> ->]]; auto.
  - apply elem_of_cons in Hx as [->|Hx].
    + apply Permutation_cons_inv, Permutation_pair_inv in Hp as [[-> ->]|[-> ->]]; auto.
    + apply list_elem_of_singleton in Hx as ->.
      assert ([A; A; B] ≡ₚ [B; A; A]) as Hrot.
      { change ([A; A] ++ [B] ≡ₚ [B] ++ [A; A]). apply Permutation_app_comm. }
      rewrite Hrot in Hp.
      apply Permutation_cons_inv, Permutation_pair_inv in Hp as [[-> ->]|[-> ->]]; auto.
Qed.

Lemma mismatches_in_AAB (rs : list (string * (Status * N))) (A B : N) :
  A ≠ B →
  Forall (λ r, ok r.2.1 = true) rs →
  (λ r, r.2.2) <$> rs ≡ₚ [A; A; B] →
  mismatches_in rs
  = (if bool_decide ((λ r, r.2.2) <$> head rs = Some B) then 2 else 1).
Proof.
  intros Hne Hok Hp. apply Permutation_AAB_inv in Hp.
  destruct rs as [|[u1 [s1 c1]] [|[u2 [s2 c2]] [|[u3 [s3 c3]] [|]]]];
    try (by destruct Hp as [Hp|[Hp|Hp]]).
  apply Forall_cons in Hok as [Hok1 Hok].
  apply Forall_cons in Hok as [Hok2 Hok].
  apply Forall_cons in Hok as [Hok3 _].
  simpl in *. unfold mismatches_after. simpl. rewrite Hok1, Hok2, Hok3. simpl.
  destruct Hp as [Hp|[Hp|Hp]]; injection Hp as -> -> ->;
    repeat (case_bool_decide; simpl; try congruence).
Qed.

(** C2, as amended: the mismatches that [ChecksumData] counts are, tablet
    by tablet, the successful results after the first successful one whose
    checksum differs from the checksum of that first one.  For a tablet
    whose results are all successful with the checksums {A, A, B}, A ≠ B,
    this is one mismatch when the result map yields an A first and two
    when it yields B first; the run counts at least as many, and when all
    expected results were recorded its status is Corruption. *)
Theorem ChecksumData_mismatch_count (k : Ksck) (opts : ChecksumOptions) (env : ScanEnv)
    (tablet : KsckTablet) (A B : N) :
  snapshot_wf (cluster_ k) →
  tablet ∈ all_tablets (cluster_ k) →
  A ≠ B →
  ∃ r, ChecksumData k opts env = Ret r
    ∧ ∀ s, run_summary r = Some s →
        num_mismatches (counters s)
        = mismatches_of (checksums s) (all_tablets (cluster_ k))
        ∧ (Forall (λ r, ok r.2.1 = true) (tablet_results (checksums s) tablet) →
           (λ r, r.2.2) <$> tablet_results (checksums s) tablet ≡ₚ [A; A; B] →
           mismatches_in (tablet_results (checksums s) tablet)
           = (if bool_decide ((λ r, r.2.2) <$> head (tablet_results (checksums s) tablet)
                              = Some B)
              then 2 else 1)
           ∧ mismatches_in (tablet_results (checksums s) tablet)
             ≤ num_mismatches (counters s)
           ∧ (num_results (counters s) = num_tablet_replicas s →
              run_status r
              = Corruption (pretty (num_mismatches (counters s))
                            +:+ " checksum mismatches were detected"))).
Proof.
  intros Hwf Htablet Hne.
  destruct (ChecksumData_spec k opts env Hwf) as (r & Hr & _ & Hs).
  exists r. split; [done|]. intros s Hsum.
  destruct (Hs s Hsum) as (Hn & _ & Hres & Herr & Hmis & Hle & _ & Hstatus).
  split; [done|]. intros Hok Hp.
  pose proof (mismatches_in_AAB _ A B Hne Hok Hp) as Hcount.
  pose proof (mismatches_of_elem (checksums s) tablet _ Htablet) as Hge.
  rewrite <- Hmis in Hge.
  split; [done|]. split; [done|].
  intros Hall. apply ChecksumData_status_terminal in Hstatus; [|done].
  rewrite Hstatus. unfold terminal_status.
  rewrite (bool_decide_eq_false_2 (_ < _)) by lia. rewrite andb_false_r.
  rewrite bool_decide_eq_true_2; [done|].
  rewrite Hcount in Hge. case_bool_decide; lia.
Qed.

Lemma selected_from_nil k tbls :
  (∀ table tablet, table ∈ tbls → tablet ∈ tablets table →
     MatchesAnyPattern (table_filters_ k) (table_name table)
     && MatchesAnyPattern (tablet_id_filters_ k) (tablet_id tablet) = false) →
  selected_from k tbls = [].
Proof.
  unfold selected_from. induction tbls as [|t ts IH]; intros Hnone; simpl; [done|].
  destruct (MatchesAnyPattern _ (table_name t)) eqn:Ht; simpl.
  - rewrite filter_none.
    + simpl. apply IH. intros ????. apply Hnone; [by right|done].
    + intros tb Htb. specialize (Hnone t tb). rewrite Ht in Hnone. apply Hnone; [left|done].
  - apply IH. intros ????. apply Hnone; [by right|done].
Qed.

Lemma string_app_nil_r (s : string) : s +:+ "" = s.
Proof.
  induction s as [|c s IH]; [done|].
  change (String c (s +:+ "") = String c s). by rewrite IH.
Qed.

Lemma string_app_assoc (s1 s2 s3 : string) :
  (s1 +:+ s2) +:+ s3 = s1 +:+ (s2 +:+ s3).
Proof.
  induction s1 as [|c s1 IH]; [done|].
  change (String c ((s1 +:+ s2) +:+ s3) = String c (s1 +:+ s2 +:+ s3)).
  by rewrite IH.
Qed.

(** C6: when no (table, tablet) pair passes both filters, [ChecksumData]
    returns NotFound and starts no scan; the message is
    "No tablet replicas found." followed by the filters that are not
    empty. *)
Theorem ChecksumData_nothing_selected (k : Ksck) (opts : ChecksumOptions) (env : ScanEnv) :
  (∀ table tablet, table ∈ tables (cluster_ k) → tablet ∈ tablets table →
     MatchesAnyPattern (table_filters_ k) (table_name table)
     && MatchesAnyPattern (tablet_id_filters_ k) (tablet_id tablet) = false) →
  ChecksumData k opts env
  = Ret {| run_status := NotFound (no_replicas_message k);
           run_scans := []; run_output := []; run_summary := None |}
  ∧ no_replicas_message k
    = "No tablet replicas found."
      +:+ match table_filters_ k, tablet_id_filters_ k with
          | [], [] => ""
          | _ :: _, [] =>
              " Filter: table_filters=" +:+ JoinStrings (table_filters_ k) ","
          | [], _ :: _ =>
              " Filter: tablet_id_filters=" +:+ JoinStrings (tablet_id_filters_ k) ","
          | _ :: _, _ :: _ =>
              " Filter: table_filters=" +:+ JoinStrings (table_filters_ k) ","
              +:+ "tablet_id_filters=" +:+ JoinStrings (tablet_id_filters_ k) ","
          end.
Proof.
  intros Hnone. split.
  - unfold ChecksumData. rewrite ChecksumData_select_spec.
    unfold selected. rewrite selected_from_nil by done. done.
  - unfold no_replicas_message.
    destruct (table_filters_ k) as [|f fs], (tablet_id_filters_ k) as [|g gs];
      cbn [bool_decide decide_rel negb orb]; simpl negb; simpl orb.
    all: rewrite ?bool_decide_eq_true_2, ?bool_decide_eq_false_2 by done; simpl negb;
      simpl orb; cbv iota.
    all: rewrite ?string_app_nil_r, ?string_app_assoc; try done.
Qed.

End Claims.

(** ** The master *)

Section Master.

Lemma RetrieveTabletsLists_status master behind ahead :
  (RetrieveTabletsLists master behind ahead).1
  = default Status_OK
      (List.find (λ s, negb (ok s))
         (imap (λ i table, (RetrieveTabletsList master (length behind + i) table).1)
               ahead)).
Proof.
  revert behind. induction ahead as [|t ahead IH]; intros behind; [done|].
  cbn [RetrieveTabletsLists imap]. rewrite Nat.add_0_r.
  destruct (RetrieveTabletsList master (length behind) t) as [s t'] eqn:Ht.
  cbn [fst List.find]. destruct (ok s) eqn:Hs; simpl; [|done].
  rewrite IH. f_equal. f_equal. apply imap_ext. intros i x _. simpl.
  rewrite length_app. simpl. do 2 f_equal. lia.
Qed.

Lemma RetrieveTabletsLists_tables master behind ahead :
  ok (RetrieveTabletsLists master behind ahead).1 = true →
  (RetrieveTabletsLists master behind ahead).2
  = behind ++ imap (λ i table, (RetrieveTabletsList master (length behind + i) table).2)
                 ahead.
Proof.
  revert behind. induction ahead as [|t ahead IH]; intros behind.
  - intros _. simpl. by rewrite app_nil_r.
  - cbn [RetrieveTabletsLists imap]. rewrite Nat.add_0_r.
    destruct (RetrieveTabletsList master (length behind) t) as [s t'] eqn:Ht.
    destruct (ok s) eqn:Hs; simpl; [|by rewrite Hs].
    intros Hok. rewrite (IH _ Hok), <- app_assoc. simpl. do 2 f_equal.
    apply imap_ext. intros i x _. simpl.
    rewrite length_app. simpl. do 2 f_equal. lia.
Qed.

(** X1: [KsckCluster::FetchTableAndTabletInfo] returns the status of the
    first call of the master that fails, in the order [Connect],
    [RetrieveTablesList], [RetrieveTabletServers] and [RetrieveTabletsList]
    table by table, and OK when none fails; on success the snapshot holds
    the tables of the master, each as [RetrieveTabletsList] left it, and
    the master's directory of tablet servers. *)
Theorem FetchTableAndTabletInfo_first_failure (master : KsckMaster)
    (cluster : KsckCluster) :
  (FetchTableAndTabletInfo master cluster).1
  = default Status_OK (List.find (λ s, negb (ok s)) (master_calls master cluster))
  ∧ (ok (FetchTableAndTabletInfo master cluster).1 = true →
     (FetchTableAndTabletInfo master cluster).2
     = {| tables :=
            imap (λ i table, (RetrieveTabletsList master i table).2)
                 (RetrieveTablesList master (tables cluster)).2;
          tablet_servers :=
            (RetrieveTabletServers master (tablet_servers cluster)).2 |}).
Proof.
  unfold FetchTableAndTabletInfo, master_calls.
  cbn [app List.find].
  destruct (ok (Connect master)) eqn:Hc; cbn [negb].
  2:{ split; [done|]. simpl. by rewrite Hc. }
  destruct (RetrieveTablesList master (tables cluster)) as [s1 tbls] eqn:H1.
  cbn [fst snd tables tablet_servers].
  destruct (ok s1) eqn:Hs1; cbn [negb].
  2:{ split; [done|]. simpl. by rewrite Hs1. }
  destruct (RetrieveTabletServers master (tablet_servers cluster)) as [s2 servers] eqn:H2.
  cbn [fst snd tables tablet_servers].
  destruct (ok s2) eqn:Hs2; cbn [negb].
  2:{ split; [done|]. simpl. by rewrite Hs2. }
  pose proof (RetrieveTabletsLists_status master [] tbls) as Hst.
  pose proof (RetrieveTabletsLists_tables master [] tbls) as Htb.
  destruct (RetrieveTabletsLists master [] tbls) as [s3 tbls'].
  simpl in Hst, Htb. simpl. split; [done|].
  intros Hok. by rewrite (Htb Hok).
Qed.

End Master.

(** ** The verdicts of the verifier *)

Section VerifierReport.
Context {ext : Externals}.

Lemma VerifyTablet_replica_warnings k tablet r replica r' :
  VerifyTablet_replica k tablet r replica = Ret r' →
  length (warnings r')
  = (if replica_running k tablet replica then 0 else 1) + length (warnings r).
Proof.
  unfold VerifyTablet_replica, replica_running.
  destruct (tablet_servers (cluster_ k) !! ts_uuid replica) as [ts|]; simpl.
  - destruct (is_healthy ts) eqn:Hh; simpl.
    + rewrite ReplicaState_healthy by done. simpl.
      destruct (tablet_status_map_ ts !! tablet_id tablet) as [pb|] eqn:Hpb; simpl.
      * unfold map_at. rewrite Hpb.
        destruct (state pb) eqn:Hst; simpl;
          destruct (is_leader replica), (is_follower replica);
          intros [= <-]; simpl;
          rewrite ?bool_decide_eq_true_2, ?bool_decide_eq_false_2 by congruence;
          rewrite ?length_app; simpl; lia.
      * destruct (is_leader replica), (is_follower replica);
          intros [= <-]; simpl; rewrite ?length_app; simpl; lia.
    + destruct (is_leader replica), (is_follower replica);
        intros [= <-]; simpl; rewrite ?length_app; simpl; lia.
  - destruct (is_leader replica), (is_follower replica);
      intros [= <-]; simpl; rewrite ?length_app; simpl; lia.
Qed.

Lemma VerifyTablet_loop_warnings k tablet rs r r' :
  for_each (VerifyTablet_replica k tablet) rs r = Ret r' →
  length (warnings r')
  = length (List.filter (λ replica, negb (replica_running k tablet replica)) rs)
    + length (warnings r).
Proof.
  revert r. induction rs as [|x rs IH]; intros r; simpl.
  - by intros [= <-].
  - destruct (VerifyTablet_replica k tablet r x) as [r1|] eqn:Hx; simpl; [|done].
    intros Hloop. rewrite (IH _ Hloop), (VerifyTablet_replica_warnings _ _ _ _ _ Hx).
    destruct (replica_running k tablet x); simpl; lia.
Qed.

Lemma filter_all {A} (f : A → bool) l :
  (∀ x, x ∈ l → f x = true) → List.filter f l = l.
Proof.
  induction l as [|y l IH]; intros Hall; [done|]. simpl.
  rewrite Hall by left. f_equal. apply IH. intros ??. apply Hall. by right.
Qed.

Lemma replica_running_alive k tablet replica :
  replica_running k tablet replica = true → replica_alive k replica = true.
Proof.
  unfold replica_running, replica_alive.
  destruct (_ !! _); [|done]. by intros [? _]%andb_true_iff.
Qed.

(** The report of a tablet: which warnings and errors there are. *)
Lemma VerifyTablet_report_issues k tablet R :
  ∃ r, VerifyTablet_report k tablet R = Ret r
    ∧ (warnings r = []
       ↔ (check_replica_count_ k = true →
          Z.of_nat (length (replicas tablet)) = size_t_of_int R)
         ∧ ∀ replica, replica ∈ replicas tablet →
                      replica_running k tablet replica = true)
    ∧ errors r
      = (if bool_decide (List.filter is_leader (replicas tablet) = [])
         then [no_leader_error] else [])
        ++ (if bool_decide
                 (Z.of_nat (length (List.filter (replica_alive k) (replicas tablet)))
                  < MajoritySize R)%Z
            then [no_live_majority_error tablet]
            else if bool_decide
                      (Z.of_nat (length (List.filter (replica_running k tablet)
                                           (replicas tablet)))
                       < MajoritySize R)%Z
                 then [no_running_majority_error tablet]
                 else []).
Proof.
  destruct (VerifyTablet_report_returns k tablet R)
    as (r0 & Hloop & Hr & He & Ha & Hrun & Hl).
  destruct (VerifyTablet_checks_counts tablet R r0) as (_ & _ & _ & Hw & _).
  exists (VerifyTablet_checks tablet R r0). split; [done|]. split.
  - rewrite Hw. rewrite <- length_zero_iff_nil.
    rewrite (VerifyTablet_loop_warnings _ _ _ _ _ Hloop).
    unfold VerifyTablet_init. cbn [warnings].
    rewrite Nat.eq_add_0, !length_zero_iff_nil, filter_nil_iff.
    split.
    + intros [Hall Hinit]. split.
      * intros Hcheck. rewrite Hcheck in Hinit. simpl in Hinit.
        by case_bool_decide.
      * intros replica Hin. specialize (Hall replica Hin).
        by apply negb_false_iff in Hall.
    + intros [Hcount Hall]. split.
      * intros replica Hin. by rewrite (Hall replica Hin).
      * destruct (check_replica_count_ k); [|done]. simpl.
        by rewrite bool_decide_eq_true_2 by auto.
  - rewrite (VerifyTablet_checks_errors _ _ _ He), Ha, Hrun, Hl.
    f_equal. destruct (List.filter is_leader (replicas tablet)); done.
Qed.

End VerifierReport.

Section VerifierVerdicts.
Context {ext : Externals}.

(** X2: [VerifyTablet] never aborts, and returns true exactly when the
    number of replicas is the replication factor of the table (when that
    is checked), every replica sits on a fetched server of the directory
    that reports it RUNNING, one replica is a leader, and the replicas
    reach the majority size. *)
Theorem VerifyTablet_healthy_iff (k : Ksck) (tablet : KsckTablet) (R : Z) :
  ∃ good out,
    VerifyTablet k tablet R = Ret (good, out)
    ∧ (good = true
       ↔ (check_replica_count_ k = true →
          Z.of_nat (length (replicas tablet)) = size_t_of_int R)
         ∧ (∀ replica, replica ∈ replicas tablet →
                       replica_running k tablet replica = true)
         ∧ (∃ replica, replica ∈ replicas tablet ∧ is_leader replica = true)
         ∧ (MajoritySize R ≤ Z.of_nat (length (replicas tablet)))%Z).
Proof.
  destruct (VerifyTablet_report_issues k tablet R) as (r & Hr & Hw & He).
  unfold VerifyTablet. rewrite Hr. simpl. eexists _, _. split; [done|].
  rewrite negb_true_iff, <- not_true_iff_false, has_issues_spec.
  split.
  - intros Hnone.
    assert (warnings r = []) as Hwn.
    { destruct (warnings r); [done|]. destruct Hnone. by left. }
    assert (errors r = []) as Hen.
    { destruct (errors r); [done|]. destruct Hnone. by right. }
    apply Hw in Hwn as [Hcount Hall]. split; [done|]. split; [done|].
    rewrite He in Hen. apply app_eq_nil in Hen as [Hlead Hmaj].
    split.
    + clear He Hmaj.
      destruct (List.filter is_leader (replicas tablet)) as [|x l] eqn:Hf; [done|].
      exists x. assert (x ∈ List.filter is_leader (replicas tablet)) as Hin.
      { rewrite Hf. left. }
      apply list_elem_of_In, filter_In in Hin as [Hin Hx].
      by apply list_elem_of_In in Hin.
    + rewrite (filter_all (replica_running k tablet)) in Hmaj by done.
      clear He.
      destruct (bool_decide (Z.of_nat (length (List.filter (replica_alive k)
                                                 (replicas tablet)))
                             < MajoritySize R)%Z); [done|].
      destruct (bool_decide (Z.of_nat (length (replicas tablet)) < MajoritySize R)%Z)
        eqn:Hlt; [done|].
      apply bool_decide_eq_false in Hlt. lia.
  - intros (Hcount & Hall & (x & Hx & Hlx) & Hmaj) [Hwn|Hen].
    + apply Hwn, Hw. done.
    + apply Hen. rewrite He.
      rewrite (filter_all (replica_running k tablet)) by done.
      rewrite (filter_all (replica_alive k)).
      2:{ intros y Hy. eapply replica_running_alive. by apply Hall. }
      rewrite bool_decide_eq_false_2.
      2:{ intros Hnil. pose proof (filter_some is_leader _ _ Hx Hlx) as Hpos.
          rewrite Hnil in Hpos. simpl in Hpos. lia. }
      rewrite !(bool_decide_eq_false_2 (_ < _)%Z) by lia. done.
Qed.

Lemma Error_inj s1 s2 : Error s1 = Error s2 → s1 = s2.
Proof. unfold Error. intros [= Heq]. exact Heq. Qed.

Lemma elem_of_VerifyTablet_print tablet r e :
  Error e ∈ VerifyTablet_print tablet r ↔ has_issues r = true ∧ e ∈ errors r.
Proof.
  unfold VerifyTablet_print. destruct (has_issues r).
  - rewrite !elem_of_app, !list_elem_of_fmap. split.
    + intros [Hin|[Hin|[Hin|[Hin|Hin]]]].
      * apply elem_of_cons in Hin as [Hin|Hin]; [discriminate Hin|].
        apply list_elem_of_singleton in Hin. discriminate Hin.
      * destruct Hin as (w & Hw & _). discriminate Hw.
      * destruct Hin as (e' & He' & Hin). apply Error_inj in He' as ->. done.
      * destruct Hin as (w & Hw & _). discriminate Hw.
      * apply list_elem_of_singleton in Hin. discriminate Hin.
    + intros [_ Hin]. right. right. left. by exists e.
  - split; [by intros ?%elem_of_nil|by intros [? _]].
Qed.

(** X3: [VerifyTablet] prints the error "No leader detected" exactly
    when no replica of the tablet is a leader, and the tablet is then bad,
    whatever the state of its replicas. *)
Theorem VerifyTablet_no_leader (k : Ksck) (tablet : KsckTablet) (R : Z) :
  ∃ good out,
    VerifyTablet k tablet R = Ret (good, out)
    ∧ (Error no_leader_error ∈ out
       ↔ ∀ replica, replica ∈ replicas tablet → is_leader replica = false)
    ∧ (Error no_leader_error ∈ out → good = false).
Proof.
  destruct (VerifyTablet_report_issues k tablet R) as (r & Hr & Hw & He).
  destruct (majority_errors_distinct tablet) as (_ & Hd1 & Hd2).
  unfold VerifyTablet. rewrite Hr. simpl. eexists _, _. split; [done|].
  rewrite elem_of_VerifyTablet_print.
  assert (no_leader_error ∈ errors r
          ↔ ∀ replica, replica ∈ replicas tablet → is_leader replica = false) as Hiff.
  { rewrite He, <- filter_nil_iff. case_bool_decide as Hl.
    - split; [done|]. intros _. apply elem_of_app. left. by left.
    - split; [|done]. intros Hin. exfalso.
      apply elem_of_app in Hin as [Hin|Hin]; [by apply elem_of_nil in Hin|].
      repeat case_bool_decide; set_solver. }
  split.
  - rewrite <- Hiff. split; [by intros [_ ?]|]. intros Hin. split; [|done].
    apply has_issues_spec. right. intros Hnil. rewrite Hnil in Hin.
    by apply elem_of_nil in Hin.
  - intros [Hi _]. by rewrite Hi.
Qed.

Lemma VerifyTablet_good_silent k tablet R out :
  VerifyTablet k tablet R = Ret (true, out) → out = [].
Proof.
  destruct (VerifyTablet_returns k tablet R) as (r & _ & ->).
  intros [= Hg <-]. unfold VerifyTablet_print.
  apply negb_true_iff in Hg. by rewrite Hg.
Qed.

Lemma VerifyTable_loop k R (l : list KsckTablet) (acc : nat * list line) :
  ∃ out,
    for_each
      (λ (acc : nat * list line) tablet,
         '(good, out) ← VerifyTablet k tablet R;
         Ret (if good : bool then acc.1 else S acc.1, acc.2 ++ out))
      l acc
    = Ret (length (List.filter (λ tablet, negb (tablet_verdict k tablet R)) l)
           + acc.1, out).
Proof.
  revert acc. induction l as [|t l IH]; intros [n o]; simpl; [by eexists|].
  destruct (VerifyTablet_returns k t R) as (r & _ & Hv).
  unfold tablet_verdict at 1. rewrite Hv. simpl.
  destruct (has_issues r) eqn:Hi; simpl.
  - destruct (IH (S n, o ++ VerifyTablet_print t r)) as (out & ->).
    exists out. simpl. f_equal. f_equal. lia.
  - destruct (IH (n, o ++ VerifyTablet_print t r)) as (out & ->).
    by exists out.
Qed.

Lemma tablet_verdict_true k tablet R :
  tablet_verdict k tablet R = true ↔ VerifyTablet k tablet R = Ret (true, []).
Proof.
  unfold tablet_verdict. split; [|by intros ->].
  destruct (VerifyTablet k tablet R) as [[good out]|] eqn:Hv; [|done].
  intros ->. by rewrite (VerifyTablet_good_silent _ _ _ _ Hv).
Qed.

(** [VerifyTable] returns, and says whether all matching tablets are good. *)
Lemma VerifyTable_returns k table :
  ∃ out,
    VerifyTable k table
    = Ret (forallb (λ tablet, tablet_verdict k tablet (num_replicas table))
             (List.filter
                (λ t, MatchesAnyPattern (tablet_id_filters_ k) (tablet_id t))
                (tablets table)),
           out).
Proof.
  unfold VerifyTable.
  set (matching := List.filter _ (tablets table)).
  destruct matching as [|t l] eqn:Hm.
  { by eexists. }
  rewrite <- Hm. clear Hm.
  destruct (VerifyTable_loop k (num_replicas table) matching (0, [])) as (out & ->).
  simpl. rewrite Nat.add_0_r.
  set (bad := List.filter _ matching).
  assert (bad = [] ↔ forallb (λ tablet, tablet_verdict k tablet (num_replicas table))
                       matching = true) as Hiff.
  { unfold bad. rewrite filter_nil_iff, forallb_forall.
    split; intros Hall x Hx.
    - apply list_elem_of_In in Hx. specialize (Hall x Hx).
      by apply negb_false_iff in Hall.
    - apply list_elem_of_In in Hx. by rewrite (Hall x Hx). }
  case_bool_decide as Hz.
  - apply length_zero_iff_nil in Hz. eexists.
    by rewrite (proj1 Hiff Hz).
  - eexists. destruct (forallb _ _); [|done].
    destruct Hz. by rewrite (proj2 Hiff eq_refl).
Qed.

(** X4: [VerifyTable] never aborts, and reports the table healthy
    exactly when [VerifyTablet] returns true, and so prints nothing, for
    every tablet of the table whose id passes the tablet-id filters. *)
Theorem VerifyTable_verdict (k : Ksck) (table : KsckTable) :
  ∃ good out,
    VerifyTable k table = Ret (good, out)
    ∧ (good = true
       ↔ ∀ tablet, tablet ∈ tablets table →
           MatchesAnyPattern (tablet_id_filters_ k) (tablet_id tablet) = true →
           VerifyTablet k tablet (num_replicas table) = Ret (true, [])).
Proof.
  destruct (VerifyTable_returns k table) as (out & Hv).
  eexists _, out. split; [done|].
  rewrite forallb_forall. split.
  - intros Hall tablet Hin Hm. apply tablet_verdict_true, Hall.
    apply filter_In. split; [by apply list_elem_of_In|done].
  - intros Hall tablet Hin. apply filter_In in Hin as [Hin Hm].
    apply tablet_verdict_true, Hall; [by apply list_elem_of_In|done].
Qed.

Lemma CheckTablesConsistency_table_spec k acc table :
  ∃ out,
    CheckTablesConsistency_table k acc table
    = Ret {| tables_checked :=
               (if MatchesAnyPattern (table_filters_ k) (table_name table)
                then 1 else 0) + tables_checked acc;
             bad_tables_count :=
               (if MatchesAnyPattern (table_filters_ k) (table_name table)
                   && negb (table_verdict k table)
                then 1 else 0) + bad_tables_count acc;
             tables_output := out |}.
Proof.
  unfold CheckTablesConsistency_table.
  destruct (MatchesAnyPattern _ (table_name table)) eqn:Hm; simpl.
  - destruct (VerifyTable_returns k table) as (out & Hv).
    unfold table_verdict. rewrite Hv. simpl.
    destruct (forallb _ _); simpl; by eexists.
  - exists (tables_output acc). by destruct acc.
Qed.

Lemma CheckTablesConsistency_loop k (tbls : list KsckTable) acc :
  ∃ out,
    for_each (CheckTablesConsistency_table k) tbls acc
    = Ret {| tables_checked :=
               length (List.filter
                         (λ table, MatchesAnyPattern (table_filters_ k) (table_name table))
                         tbls) + tables_checked acc;
             bad_tables_count :=
               length (List.filter
                         (λ table, MatchesAnyPattern (table_filters_ k) (table_name table)
                                   && negb (table_verdict k table))
                         tbls) + bad_tables_count acc;
             tables_output := out |}.
Proof.
  revert acc. induction tbls as [|t l IH]; intros acc.
  - exists (tables_output acc). by destruct acc.
  - cbn [for_each].
    destruct (CheckTablesConsistency_table_spec k acc t) as (out & ->). simpl.
    destruct (IH {| tables_checked :=
                      (if MatchesAnyPattern (table_filters_ k) (table_name t)
                       then 1 else 0) + tables_checked acc;
                    bad_tables_count :=
                      (if MatchesAnyPattern (table_filters_ k) (table_name t)
                          && negb (table_verdict k t)
                       then 1 else 0) + bad_tables_count acc;
                    tables_output := out |}) as (out' & ->).
    exists out'. simpl.
    destruct (MatchesAnyPattern _ _), (table_verdict k t); simpl;
      do 2 f_equal; lia.
Qed.


Lemma length_filter_andb_le {A} (f g : A → bool) l :
  length (List.filter (λ x, f x && g x) l) ≤ length (List.filter f l).
Proof.
  induction l as [|x l IH]; simpl; [done|].
  destruct (f x), (g x); simpl; lia.
Qed.

Lemma elem_of_bad_tables k table :
  table ∈ bad_tables k
  ↔ table ∈ tables (cluster_ k)
    ∧ MatchesAnyPattern (table_filters_ k) (table_name table) = true
    ∧ ∃ out, VerifyTable k table = Ret (false, out).
Proof.
  unfold bad_tables.
  rewrite list_elem_of_In, filter_In, <- list_elem_of_In, andb_true_iff.
  unfold table_verdict. destruct (VerifyTable_returns k table) as (o & ->).
  destruct (forallb _ _); simpl.
  - split; [by intros (? & ? & ?)|]. by intros (? & ? & ? & [=]).
  - split; [|by intros (? & ? & ?)]. intros (? & ? & _). eauto.
Qed.

Lemma CheckTablesConsistency_returns k :
  ∃ out,
    CheckTablesConsistency k
    = Ret (if bool_decide (bad_tables k = []) then Status_OK
           else Corruption (pretty (length (bad_tables k)) +:+ " table(s) are bad"),
           out).
Proof.
  unfold CheckTablesConsistency.
  destruct (CheckTablesConsistency_loop k (tables (cluster_ k))
              {| tables_checked := 0; bad_tables_count := 0; tables_output := [] |})
    as (out & ->).
  simpl. rewrite !Nat.add_0_r. fold (bad_tables k).
  set (checked := List.filter _ (tables (cluster_ k))).
  assert (length (bad_tables k) ≤ length checked) as Hle.
  { apply length_filter_andb_le. }
  case_bool_decide as Hc.
  - eexists. rewrite bool_decide_eq_true_2; [done|].
    destruct (bad_tables k); [done|]. simpl in Hle. lia.
  - case_bool_decide as Hb.
    + eexists. apply length_zero_iff_nil in Hb. by rewrite bool_decide_eq_true_2.
    + eexists. rewrite bool_decide_eq_false_2; [done|].
      intros Hnil. by rewrite Hnil in Hb.
Qed.

(** X5: [CheckTablesConsistency] never aborts; it returns OK when no
    table that passes the table filters is bad, and otherwise Corruption
    with the number of bad tables in its message; the bad tables are the
    tables of the snapshot that pass the table filters and for which
    [VerifyTable] returns false. *)
Theorem CheckTablesConsistency_verdict (k : Ksck) :
  ∃ status out,
    CheckTablesConsistency k = Ret (status, out)
    ∧ (bad_tables k = [] → status = Status_OK)
    ∧ (bad_tables k ≠ [] →
       status = Corruption (pretty (length (bad_tables k)) +:+ " table(s) are bad"))
    ∧ ∀ table, table ∈ bad_tables k
        ↔ table ∈ tables (cluster_ k)
          ∧ MatchesAnyPattern (table_filters_ k) (table_name table) = true
          ∧ ∃ out', VerifyTable k table = Ret (false, out').
Proof.
  destruct (CheckTablesConsistency_returns k) as (out & Hc).
  eexists _, out. split; [exact Hc|]. split; [|split].
  - intros Hnil. by rewrite bool_decide_eq_true_2.
  - intros Hne. by rewrite bool_decide_eq_false_2.
  - apply elem_of_bad_tables.
Qed.

Lemma VerifyTablet_ext k k' tablet R :
  cluster_ k' = cluster_ k → check_replica_count_ k' = check_replica_count_ k →
  VerifyTablet k' tablet R = VerifyTablet k tablet R.
Proof.
  destruct k, k'. simpl. intros -> ->. reflexivity.
Qed.

Lemma table_verdict_narrower k k' table :
  cluster_ k' = cluster_ k → check_replica_count_ k' = check_replica_count_ k →
  narrower (tablet_id_filters_ k') (tablet_id_filters_ k) →
  table_verdict k table = true → table_verdict k' table = true.
Proof.
  intros Hc Hr Hn. unfold table_verdict.
  destruct (VerifyTable_returns k table) as (o & ->).
  destruct (VerifyTable_returns k' table) as (o' & ->).
  rewrite !forallb_forall. intros Hall tablet Hin.
  apply filter_In in Hin as [Hin Hm].
  unfold tablet_verdict. rewrite (VerifyTablet_ext k k') by done.
  apply (Hall tablet). apply filter_In. split; [done|]. by apply Hn.
Qed.

(** X6: narrowing the filters keeps a healthy verdict: when
    [CheckTablesConsistency] returns OK, it also returns OK on the same
    snapshot with table filters and tablet-id filters that let through no
    more names. *)
Theorem healthy_verdict_survives_narrowing (k k' : Ksck) :
  cluster_ k' = cluster_ k →
  check_replica_count_ k' = check_replica_count_ k →
  narrower (table_filters_ k') (table_filters_ k) →
  narrower (tablet_id_filters_ k') (tablet_id_filters_ k) →
  (∃ out, CheckTablesConsistency k = Ret (Status_OK, out)) →
  ∃ out', CheckTablesConsistency k' = Ret (Status_OK, out').
Proof.
  intros Hc Hr Hnt Hni [out Hok].
  destruct (CheckTablesConsistency_returns k) as (o & Hk).
  destruct (CheckTablesConsistency_returns k') as (o' & Hk').
  rewrite Hk in Hok. clear Hk.
  destruct (bool_decide (bad_tables k = [])) eqn:Hbad; [|discriminate Hok].
  apply bool_decide_eq_true in Hbad.
  exists o'. rewrite Hk'. rewrite bool_decide_eq_true_2; [done|].
  unfold bad_tables in *. rewrite Hc. rewrite filter_nil_iff in Hbad.
  apply filter_nil_iff. intros table Hin. specialize (Hbad table Hin).
  destruct (MatchesAnyPattern (table_filters_ k') (table_name table)) eqn:Hm; [|done].
  rewrite (Hnt _ Hm) in Hbad. simpl in *.
  apply negb_false_iff in Hbad. apply negb_false_iff.
  by apply (table_verdict_narrower k k').
Qed.

End VerifierVerdicts.

(** ** The counts of the fleet fetcher *)

Section FetchCounts.
Context {ext : Externals}.

Lemma length_filter_Permutation {A} (f : A → bool) l1 l2 :
  l1 ≡ₚ l2 → length (List.filter f l1) = length (List.filter f l2).
Proof.
  induction 1 as [|x l1 l2 _ IH|x y l|l1 l2 l3 _ IH1 _ IH2]; simpl.
  - done.
  - destruct (f x); simpl; by rewrite IH.
  - by destruct (f x), (f y).
  - by rewrite IH1.
Qed.

Lemma fetch_task_output env acc entry :
  length (fetch_output (fetch_task env acc entry))
  = (if ok (FetchInfo env entry.2).1 then 0 else 1) + length (fetch_output acc).
Proof.
  unfold fetch_task, ConnectToTabletServer.
  destruct (FetchInfo env entry.2) as [s ts']. simpl.
  destruct (ok s); simpl; rewrite ?length_app, ?app_nil_r; simpl; lia.
Qed.

Lemma fetch_tasks_output env es acc :
  length (fetch_output (foldl (fetch_task env) acc es))
  = length (List.filter (λ e, negb (ok (FetchInfo env e.2).1)) es)
    + length (fetch_output acc)
  ∧ bad_servers (foldl (fetch_task env) acc es)
    = length (List.filter (λ e, negb (ok (FetchInfo env e.2).1)) es)
      + bad_servers acc.
Proof.
  revert acc. induction es as [|e es IH]; intros acc; [done|].
  cbn [foldl]. destruct (IH (fetch_task env acc e)) as [-> ->].
  rewrite fetch_task_output. destruct (fetch_task_spec env acc e) as [-> _].
  simpl. destruct (ok (FetchInfo env e.2).1); simpl; lia.
Qed.

(** The warnings of the tasks, in the order in which the tasks run. *)
Lemma fetch_tasks_lines env es acc :
  fetch_output (foldl (fetch_task env) acc es)
  = fetch_output acc
    ++ ((λ e : string * KsckTabletServer,
           Warn ("Unable to connect to Tablet Server "
                 +:+ KsckTabletServer_ToString (FetchInfo env e.2).2 +:+ ": "
                 +:+ Status_ToString (FetchInfo env e.2).1))
        <$> List.filter (λ e, negb (ok (FetchInfo env e.2).1)) es).
Proof.
  revert acc. induction es as [|e es IH]; intros acc.
  - simpl. by rewrite app_nil_r.
  - cbn [foldl List.filter]. rewrite IH. unfold fetch_task.
    unfold ConnectToTabletServer.
    destruct (FetchInfo env e.2) as [s ts'] eqn:Hfetch. simpl.
    destruct (ok s); simpl.
    + by rewrite app_nil_r.
    + rewrite Hfetch. simpl. by rewrite <- app_assoc.
Qed.

(** X7: for a directory that is not empty,
    [FetchInfoFromTabletServers] returns the status of the pool builder,
    the snapshot untouched and no output when the pool cannot be built;
    otherwise it returns OK exactly when no server is unreachable, and its
    output is, for each unreachable server, the warning "Unable to connect
    to Tablet Server" with the server and the status of its [FetchInfo],
    followed by the summary line, which counts the reachable and the
    unreachable servers. *)
Theorem FetchInfoFromTabletServers_counts (env : FetchEnv) (cluster : KsckCluster) :
  tablet_servers cluster ≠ ∅ →
  ∃ status cluster' out,
    FetchInfoFromTabletServers env cluster = (status, cluster', out)
    ∧ (ok (pool_build env) = false →
       status = pool_build env ∧ cluster' = cluster ∧ out = [])
    ∧ (ok (pool_build env) = true →
       (status = Status_OK ↔ unreachable env cluster = 0)
       ∧ length out = S (unreachable env cluster)
       ∧ last out
         = Some (if bool_decide (unreachable env cluster = 0)
                 then Info ("Fetched info from all "
                            +:+ pretty (size (tablet_servers cluster))
                            +:+ " Tablet Servers")
                 else Warn ("Fetched info from "
                            +:+ pretty (size (tablet_servers cluster)
                                        - unreachable env cluster)
                            +:+ " Tablet Servers, "
                            +:+ pretty (unreachable env cluster)
                            +:+ " weren't reachable"))
       ∧ ∃ warned,
           out
           = warned
             ++ [if bool_decide (unreachable env cluster = 0)
                 then Info ("Fetched info from all "
                            +:+ pretty (size (tablet_servers cluster))
                            +:+ " Tablet Servers")
                 else Warn ("Fetched info from "
                            +:+ pretty (size (tablet_servers cluster)
                                        - unreachable env cluster)
                            +:+ " Tablet Servers, "
                            +:+ pretty (unreachable env cluster)
                            +:+ " weren't reachable")]
           ∧ warned
             ≡ₚ (λ e : string * KsckTabletServer,
                   Warn ("Unable to connect to Tablet Server "
                         +:+ KsckTabletServer_ToString (FetchInfo env e.2).2
                         +:+ ": " +:+ Status_ToString (FetchInfo env e.2).1))
                <$> List.filter (λ e, negb (ok (FetchInfo env e.2).1))
                      (map_to_list (tablet_servers cluster))).
Proof.
  intros Hne. unfold FetchInfoFromTabletServers.
  rewrite bool_decide_eq_false_2; [|by rewrite map_size_empty_iff].
  destruct (ok (pool_build env)) eqn:Hpool; cbn [negb].
  2:{ eexists _, _, _. split; [done|]. split; [done|]. by intros [=]. }
  set (acc0 := {| bad_servers := 0; fetched_servers := tablet_servers cluster;
                  fetch_output := [] |}).
  destruct (fetch_tasks_output env (umap_entries (tablet_servers cluster)) acc0)
    as [Hout Hbad].
  assert (length (List.filter (λ e : string * KsckTabletServer,
                                 negb (ok (FetchInfo env e.2).1))
                              (umap_entries (tablet_servers cluster)))
          = unreachable env cluster) as Hun.
  { apply length_filter_Permutation, umap_order_perm. }
  rewrite Hun in Hout, Hbad. simpl in Hout, Hbad. rewrite Nat.add_0_r in Hout, Hbad.
  assert (fetch_output (foldl (fetch_task env) acc0
                          (umap_entries (tablet_servers cluster)))
          ≡ₚ (λ e : string * KsckTabletServer,
                Warn ("Unable to connect to Tablet Server "
                      +:+ KsckTabletServer_ToString (FetchInfo env e.2).2
                      +:+ ": " +:+ Status_ToString (FetchInfo env e.2).1))
             <$> List.filter (λ e, negb (ok (FetchInfo env e.2).1))
                   (map_to_list (tablet_servers cluster))) as Hlines.
  { rewrite fetch_tasks_lines. simpl. apply fmap_Permutation.
    apply filter_Permutation, umap_order_perm. }
  rewrite Hbad. case_bool_decide as Hz.
  - eexists _, _, _. split; [done|]. split; [by intros [=]|]. intros _.
    split; [done|].
    rewrite length_app, Hout, last_snoc. simpl. split; [lia|]. split; [done|].
    eexists. split; [done|]. exact Hlines.
  - eexists _, _, _. split; [done|]. split; [by intros [=]|]. intros _.
    split; [done|].
    rewrite length_app, Hout, last_snoc. simpl. split; [lia|]. split; [done|].
    eexists. split; [done|]. exact Hlines.
Qed.

End FetchCounts.

(** ** The checksum orchestrator, continued

    *** More invariants of the scheduler *)

Section SchedulerMore.
Context {ext : Externals}.

(** X8: [ReportResult] aborts when a result is already recorded for
    the replica; otherwise the result is what a lookup finds afterwards,
    the results of all other replicas are untouched, and the latch is
    counted down by one. *)
Theorem ReportResult_round_trip (r : ChecksumResultReporter)
    (tablet_id replica_uuid : string) (status : Status) (checksum : N) :
  (is_Some (result_of (checksums_ r) tablet_id replica_uuid) →
   ReportResult r tablet_id replica_uuid status checksum
   = Die "InsertOrDie: duplicate key")
  ∧ (result_of (checksums_ r) tablet_id replica_uuid = None →
     ∃ r', ReportResult r tablet_id replica_uuid status checksum = Ret r'
       ∧ result_of (checksums_ r') tablet_id replica_uuid = Some (status, checksum)
       ∧ (∀ tid u, (tid, u) ≠ (tablet_id, replica_uuid) →
            result_of (checksums_ r') tid u = result_of (checksums_ r) tid u)
       ∧ responses_ r' = Nat.pred (responses_ r)
       ∧ expected_count_ r' = expected_count_ r).
Proof.
  unfold ReportResult, result_of. split.
  - intros [v Hv]. destruct (checksums_ r !! tablet_id) as [m|]; simpl in *; [|done].
    by rewrite Hv.
  - intros Hnone.
    assert (default ∅ (checksums_ r !! tablet_id) !! replica_uuid = None) as Hfresh.
    { destruct (checksums_ r !! tablet_id) as [m|]; simpl in *; [done|].
      apply lookup_empty. }
    rewrite Hfresh. eexists; split; [done|]. simpl.
    split; [|split; [|done]].
    + rewrite lookup_insert_eq. simpl. by rewrite lookup_insert_eq.
    + intros tid u Hne. destruct (decide (tid = tablet_id)) as [->|Htid].
      * rewrite lookup_insert_eq. simpl.
        rewrite lookup_insert_ne by congruence.
        destruct (checksums_ r !! tablet_id); simpl; [done|]. apply lookup_empty.
      * by rewrite lookup_insert_ne.
Qed.

(** *** Invariants through the loops of the scheduler *)

Lemma scan_steps_preserve (I : ScanState → Prop) options evs st st' :
  (∀ st ev st', I st → scan_step options st ev = Ret st' → I st') →
  I st → for_each (scan_step options) evs st = Ret st' → I st'.
Proof.
  intros Hstep. revert st. induction evs as [|ev evs IH]; intros st Hst; simpl.
  - by intros [= <-].
  - destruct (scan_step options st ev) as [st1|] eqn:Hev; simpl; [|done].
    apply IH. by eapply Hstep.
Qed.

Lemma kick_off_server_preserve (I : ScanState → Prop) options key ts n acc acc' :
  (∀ st, I st → I (start_scan options key ts st)) →
  (∀ st ev st', I st → scan_step options st ev = Ret st' → I st') →
  I acc.1 → kick_off_server options key ts n acc = Ret acc' → I acc'.1.
Proof.
  intros Hstart Hstep. revert acc.
  induction n as [|n IH]; intros [st batches] Hst; simpl.
  - by intros [= <-].
  - destruct (for_each _ _ _) as [st1|] eqn:Hevs; simpl; [|done].
    apply IH. simpl. eapply scan_steps_preserve; [exact Hstep| |exact Hevs].
    by apply Hstart.
Qed.

Lemma kick_off_preserve (I : ScanState → Prop) options
    (queues : gmap string ServerQueue) rep batches st :
  (∀ key q st, queues !! key = Some q → I st →
               I (start_scan options key (queue_server q) st)) →
  (∀ st ev st', I st → scan_step options st ev = Ret st' → I st') →
  I {| reporter := rep; tablet_server_queues := queues; in_flight := [];
       scans := [] |} →
  ChecksumData_kick_off options queues rep batches = Ret st → I st.
Proof.
  intros Hstart Hstep Hinit. unfold ChecksumData_kick_off.
  assert (∀ e, e ∈ umap_entries queues → queues !! e.1 = Some e.2) as Hentries.
  { intros [key q] Hin. unfold umap_entries in Hin. rewrite umap_order_perm in Hin.
    by apply elem_of_map_to_list in Hin. }
  change (I ({| reporter := rep; tablet_server_queues := queues;
                in_flight := []; scans := [] |}, batches).1) in Hinit.
  revert Hentries Hinit.
  generalize ({| reporter := rep; tablet_server_queues := queues;
                 in_flight := []; scans := [] |}, batches).
  generalize (umap_entries queues).
  intros es. induction es as [|e es IH]; intros acc Hentries Hacc; simpl.
  - by intros [= <-].
  - destruct (kick_off_server _ _ _ _ _) as [acc1|] eqn:Hk; simpl; [|done].
    apply IH.
    + intros e' He'. apply Hentries. by right.
    + eapply kick_off_server_preserve; [|exact Hstep|exact Hacc|exact Hk].
      intros st0. apply Hstart, Hentries. left.
Qed.

(** *** The scans that were started *)

Lemma start_scan_scans_inv W options key ts st :
  uuid ts = key → scans_inv W st → scans_inv W (start_scan options key ts st).
Proof.
  intros Huuid Hinv. unfold start_scan.
  destruct (BlockingGet _ _) as [[item queues]|] eqn:Hget; [|done].
  apply BlockingGet_Some in Hget. unfold scans_inv in *. simpl.
  rewrite <- Hinv, Hget, fmap_app. simpl. unfold scan_item at 2. simpl.
  rewrite Huuid, <- app_assoc. done.
Qed.

(** What the first step of [Finished] leaves alone. *)
Lemma Finished_report_frame i status checksum st st' :
  Finished_report i status checksum st = Ret st' →
  tablet_server_queues st' = tablet_server_queues st
  ∧ scans st' = scans st
  ∧ (in_flight st' = in_flight st
     ∨ ∃ cb, in_flight st !! i = Some cb
             ∧ in_flight st'
               = <[i := {| cb_tablet_server := cb_tablet_server cb;
                           cb_queue := cb_queue cb;
                           cb_tablet_id := cb_tablet_id cb;
                           cb_reported := true |}]> (in_flight st)).
Proof.
  unfold Finished_report.
  destruct (in_flight st !! i) as [cb|] eqn:Hcb; [|intros [= <-]; auto].
  destruct (cb_reported cb); [intros [= <-]; auto|].
  destruct (ReportResult _ _ _ _ _) as [rep|]; simpl; [|done].
  intros [= <-]. simpl. split; [done|]. split; [done|]. right. by exists cb.
Qed.

Lemma Progress_frame i rows bytes st :
  tablet_server_queues (Progress i rows bytes st) = tablet_server_queues st
  ∧ scans (Progress i rows bytes st) = scans st
  ∧ in_flight (Progress i rows bytes st) = in_flight st.
Proof.
  unfold Progress. destruct (in_flight st !! i) as [cb|]; [|done].
  by destruct (cb_reported cb).
Qed.

Lemma Finished_next_scans_inv W options i st :
  scan_inv W st → scans_inv W st → scans_inv W (Finished_next options i st).
Proof.
  intros (_ & _ & Hcbs) Hscans. unfold Finished_next.
  destruct (in_flight st !! i) as [cb|] eqn:Hcb; [|done].
  destruct (cb_reported cb); [|done].
  assert (uuid (cb_tablet_server cb) = cb_queue cb) as Huuid.
  { eapply Forall_lookup_1 in Hcbs; [|done]. done. }
  destruct (BlockingGet _ _) as [[item queues]|] eqn:Hget; [|done].
  apply BlockingGet_Some in Hget. unfold scans_inv in *. simpl.
  rewrite <- Hscans, Hget, fmap_app. simpl. unfold scan_item at 2. simpl.
  rewrite Huuid, <- app_assoc. done.
Qed.

Lemma scan_step_scans_inv W options st ev st' :
  scan_inv W st ∧ scans_inv W st → scan_step options st ev = Ret st' →
  NoDup W → scan_inv W st' ∧ scans_inv W st'.
Proof.
  intros [Hinv Hscans] Hev HW.
  destruct (scan_step_inv W options st ev HW Hinv) as (st1 & Hst1 & Hinv1).
  rewrite Hst1 in Hev. injection Hev as <-. split; [done|].
  destruct ev as [i rows bytes|i status checksum|i]; simpl in Hst1.
  - injection Hst1 as <-. destruct (Progress_frame i rows bytes st) as (Hq & Hs & _).
    unfold scans_inv. by rewrite Hq, Hs.
  - destruct (Finished_report_frame _ _ _ _ _ Hst1) as (Hq & Hs & _).
    unfold scans_inv. by rewrite Hq, Hs.
  - injection Hst1 as <-. by apply Finished_next_scans_inv.
Qed.

Lemma start_scan_calls_inv P options key ts st :
  calls_inv P options st → calls_inv P options (start_scan options key ts st).
Proof.
  intros [Hq Hs]. unfold start_scan, BlockingGet.
  destruct (tablet_server_queues st !! key) as [q|] eqn:Hkey; [|done].
  destruct (queue_items q) as [|item rest] eqn:Hitems; [done|].
  split; simpl.
  - intros key' q' item' Hq' Hin.
    destruct (decide (key' = key)) as [->|Hne].
    + rewrite lookup_insert_eq in Hq'. injection Hq' as <-. simpl in Hin.
      apply (Hq key q item' Hkey). rewrite Hitems. by right.
    + rewrite lookup_insert_ne in Hq' by done. by apply (Hq key' q').
  - apply Forall_app. split; [done|]. constructor; [|constructor].
    simpl. split; [done|]. destruct item as [schema tid]. simpl.
    apply (Hq key q _ Hkey). rewrite Hitems. left.
Qed.

Lemma Finished_next_calls_inv P options i st :
  calls_inv P options st → calls_inv P options (Finished_next options i st).
Proof.
  intros [Hq Hs]. unfold Finished_next.
  destruct (in_flight st !! i) as [cb|] eqn:Hcb; [|done].
  destruct (cb_reported cb); [|done].
  unfold BlockingGet.
  destruct (tablet_server_queues st !! cb_queue cb) as [q|] eqn:Hkey; [|done].
  destruct (queue_items q) as [|item rest] eqn:Hitems; [done|].
  split; simpl.
  - intros key' q' item' Hq' Hin.
    destruct (decide (key' = cb_queue cb)) as [->|Hne].
    + rewrite lookup_insert_eq in Hq'. injection Hq' as <-. simpl in Hin.
      apply (Hq _ q item' Hkey). rewrite Hitems. by right.
    + rewrite lookup_insert_ne in Hq' by done. by apply (Hq key' q').
  - apply Forall_app. split; [done|]. constructor; [|constructor].
    simpl. split; [done|]. destruct item as [schema tid]. simpl.
    apply (Hq _ q _ Hkey). rewrite Hitems. left.
Qed.

Lemma scan_step_calls_inv P options st ev st' :
  calls_inv P options st → scan_step options st ev = Ret st' →
  calls_inv P options st'.
Proof.
  intros Hinv Hev. destruct ev as [i rows bytes|i status checksum|i]; simpl in Hev.
  - injection Hev as <-. destruct (Progress_frame i rows bytes st) as (Hq & Hs & _).
    unfold calls_inv. by rewrite Hq, Hs.
  - destruct (Finished_report_frame _ _ _ _ _ Hev) as (Hq & Hs & _).
    unfold calls_inv. by rewrite Hq, Hs.
  - injection Hev as <-. by apply Finished_next_calls_inv.
Qed.

(** *** The scans in flight on a server *)

Lemma in_flight_on_start_scan options key ts st key' :
  in_flight_on key' (start_scan options key ts st)
  ≤ (if bool_decide (key = key') then 1 else 0) + in_flight_on key' st.
Proof.
  unfold start_scan, in_flight_on.
  destruct (BlockingGet _ _) as [[item queues]|]; simpl; [|lia].
  rewrite List.filter_app, length_app. simpl.
  destruct (bool_decide (key = key')); simpl; lia.
Qed.

Lemma in_flight_on_insert key (l : list TabletServerChecksumCallbacks) i cb cb' :
  l !! i = Some cb → cb_queue cb' = cb_queue cb →
  length (List.filter (λ cb, bool_decide (cb_queue cb = key)) (<[i:=cb']> l))
  = length (List.filter (λ cb, bool_decide (cb_queue cb = key)) l).
Proof.
  intros Hcb Hkey.
  rewrite (length_filter_Permutation _ _ _ (delete_Permutation _ _ _ Hcb)).
  rewrite (length_filter_Permutation _ _ _
             (insert_Permutation_delete _ _ cb' (lookup_lt_Some _ _ _ Hcb))).
  simpl. rewrite Hkey. by destruct (bool_decide _).
Qed.

Lemma in_flight_on_scan_step options st ev st' key :
  scan_step options st ev = Ret st' → in_flight_on key st' ≤ in_flight_on key st.
Proof.
  intros Hev. unfold in_flight_on.
  destruct ev as [i rows bytes|i status checksum|i]; simpl in Hev.
  - injection Hev as <-. destruct (Progress_frame i rows bytes st) as (_ & _ & Hf).
    by rewrite Hf.
  - destruct (Finished_report_frame _ _ _ _ _ Hev) as (_ & _ & [Hf|(cb & Hcb & Hf)]);
      rewrite Hf; [done|].
    by rewrite (in_flight_on_insert key _ _ _ _ Hcb).
  - injection Hev as <-. unfold Finished_next.
    destruct (in_flight st !! i) as [cb|] eqn:Hcb; [|done].
    destruct (cb_reported cb); [|done].
    destruct (BlockingGet _ _) as [[item queues]|]; simpl.
    + by rewrite (in_flight_on_insert key _ _ _ _ Hcb).
    + rewrite (length_filter_Permutation _ _ _ (delete_Permutation _ _ _ Hcb)).
      simpl. destruct (bool_decide _); simpl; lia.
Qed.

Lemma in_flight_on_scan_steps options evs st st' key :
  for_each (scan_step options) evs st = Ret st' →
  in_flight_on key st' ≤ in_flight_on key st.
Proof.
  apply (scan_steps_preserve (λ st', in_flight_on key st' ≤ in_flight_on key st));
    [|done].
  intros st0 ev st1 Hle Hev. pose proof (in_flight_on_scan_step _ _ _ _ key Hev). lia.
Qed.

Lemma in_flight_on_kick_off_server options key ts n acc acc' key' :
  kick_off_server options key ts n acc = Ret acc' →
  in_flight_on key' acc'.1
  ≤ (if bool_decide (key = key') then n else 0) + in_flight_on key' acc.1.
Proof.
  revert acc. induction n as [|n IH]; intros [st batches]; simpl.
  - intros [= <-]. simpl. destruct (bool_decide _); lia.
  - destruct (for_each _ _ _) as [st1|] eqn:Hevs; simpl; [|done].
    intros Hk. apply IH in Hk. simpl in Hk.
    pose proof (in_flight_on_scan_steps _ _ _ _ key' Hevs).
    pose proof (in_flight_on_start_scan options key ts st key').
    destruct (bool_decide (key = key')); lia.
Qed.

Lemma in_flight_on_kick_off options (queues : gmap string ServerQueue) rep
    batches st key :
  ChecksumData_kick_off options queues rep batches = Ret st →
  in_flight_on key st ≤ Z.to_nat (scan_concurrency options).
Proof.
  unfold ChecksumData_kick_off.
  assert (NoDup (umap_entries queues).*1) as Hnodup.
  { unfold umap_entries. rewrite umap_order_perm. apply NoDup_fst_map_to_list. }
  revert Hnodup.
  assert (in_flight_on key
            ({| reporter := rep; tablet_server_queues := queues; in_flight := [];
                scans := [] |}, batches).1 = 0) as Hinit by done.
  revert Hinit.
  generalize ({| reporter := rep; tablet_server_queues := queues;
                 in_flight := []; scans := [] |}, batches).
  generalize (umap_entries queues). intros es.
  assert (∀ (acc acc' : ScanState * list (list scan_event)),
            NoDup es.*1 →
            in_flight_on key acc.1
            ≤ (if bool_decide (key ∈ es.*1) then 0
               else Z.to_nat (scan_concurrency options)) →
            for_each
              (λ (acc : ScanState * list (list scan_event)) entry,
                 kick_off_server options entry.1 (queue_server entry.2)
                   (Z.to_nat (scan_concurrency options)) acc)
              es acc = Ret acc' →
            in_flight_on key acc'.1 ≤ Z.to_nat (scan_concurrency options)) as Hloop.
  { induction es as [|e es IH]; intros acc acc' Hnodup Hacc; simpl.
    - intros [= <-]. rewrite bool_decide_eq_false_2 in Hacc; [done|].
      by intros ?%elem_of_nil.
    - destruct (kick_off_server _ _ _ _ _) as [acc1|] eqn:Hk; simpl; [|done].
      rewrite fmap_cons in Hnodup. apply NoDup_cons in Hnodup as [Hnotin Hnodup].
      apply IH; [done|].
      pose proof (in_flight_on_kick_off_server _ _ _ _ _ _ key Hk) as Hle.
      rewrite fmap_cons in Hacc.
      destruct (decide (e.1 = key)) as [Heq|Hne].
      + rewrite bool_decide_eq_true_2 in Hle by done.
        rewrite bool_decide_eq_true_2 in Hacc by (rewrite <- Heq; left).
        rewrite bool_decide_eq_false_2 by (by rewrite <- Heq). lia.
      + rewrite bool_decide_eq_false_2 in Hle by done.
        destruct (decide (key ∈ es.*1)) as [Hin|Hnin].
        * rewrite bool_decide_eq_true_2 in Hacc by (by right).
          rewrite bool_decide_eq_true_2 by done. lia.
        * rewrite bool_decide_eq_false_2 in Hacc.
          2:{ intros [?|?]%elem_of_cons; done. }
          rewrite bool_decide_eq_false_2 by done. lia. }
  intros acc Hinit Hnodup.
  destruct (for_each _ _ _) as [acc'|] eqn:Hfor; simpl; [|done].
  intros [= <-]. eapply Hloop; [exact Hnodup| |exact Hfor].
  rewrite Hinit. lia.
Qed.

End SchedulerMore.

(** *** The stages of a run *)

Section RunStages.
Context {ext : Externals}.

(** The queue items are built from the entries that were enqueued. *)
Lemma enqueue_replica_items (P : Schema * string → Prop) k n tablet table
    (queues queues' : gmap string ServerQueue) replica :
  enqueue_replica k n tablet table queues replica = Ret queues' →
  P (table_schema table, tablet_id tablet) →
  (∀ key q item, queues !! key = Some q → item ∈ queue_items q → P item) →
  ∀ key q item, queues' !! key = Some q → item ∈ queue_items q → P item.
Proof.
  unfold enqueue_replica. intros Henq HP Hq.
  destruct (FindOrDie _ _) as [ts|]; simpl in Henq; [|done].
  case_bool_decide; [|done]. injection Henq as <-.
  intros key q item Hkey Hin.
  destruct (decide (key = ts_uuid replica)) as [->|Hne].
  - rewrite lookup_insert_eq in Hkey. injection Hkey as <-. simpl in Hin.
    apply elem_of_app in Hin as [Hin|Hin].
    + destruct (queues !! ts_uuid replica) as [q0|] eqn:Hq0; simpl in Hin.
      * by apply (Hq (ts_uuid replica) q0).
      * by apply elem_of_nil in Hin.
    + by apply list_elem_of_singleton in Hin as ->.
  - rewrite lookup_insert_ne in Hkey by done. by apply (Hq key q).
Qed.

Lemma enqueue_items (P : Schema * string → Prop) k n
    (es : list (KsckTablet * KsckTable)) (queues queues' : gmap string ServerQueue) :
  for_each
    (λ queues entry,
       for_each (enqueue_replica k n entry.1 entry.2) (replicas entry.1) queues)
    es queues = Ret queues' →
  (∀ e, e ∈ es → P (table_schema e.2, tablet_id e.1)) →
  (∀ key q item, queues !! key = Some q → item ∈ queue_items q → P item) →
  ∀ key q item, queues' !! key = Some q → item ∈ queue_items q → P item.
Proof.
  revert queues. induction es as [|e es IH]; intros queues Henq HP Hq.
  - by injection Henq as <-.
  - cbn [for_each] in Henq.
    destruct (for_each (enqueue_replica k n e.1 e.2) (replicas e.1) queues)
      as [q1|] eqn:He; simpl in Henq; [|done].
    apply (IH q1 Henq); [intros ??; apply HP; by right|].
    clear Henq IH. revert queues q1 He Hq.
    induction (replicas e.1) as [|r rs IHr]; intros queues q1 He Hq.
    + by injection He as <-.
    + cbn [for_each] in He.
      destruct (enqueue_replica k n e.1 e.2 queues r) as [q0|] eqn:Hr;
        simpl in He; [|done].
      apply (IHr q0 q1 He).
      eapply enqueue_replica_items; [exact Hr| |exact Hq].
      apply HP. left.
Qed.

(** What the enqueueing phase leaves over a well-formed snapshot. *)
Lemma ChecksumData_enqueue_wf k :
  snapshot_wf (cluster_ k) →
  NoDup (work_items (selected k).*1)
  ∧ ∃ queues,
      ChecksumData_enqueue k (length (work_items (selected k).*1)) (selected k)
      = Ret queues
      ∧ queued queues ≡ₚ work_items (selected k).*1
      ∧ queues_of_directory k queues
      ∧ map_Forall (λ key q, uuid (queue_server q) = key) queues
      ∧ ∀ key q item, queues !! key = Some q → item ∈ queue_items q →
                      selected_item k item.
Proof.
  intros (Hids & Hreps & Huuids).
  set (L := (selected k).*1). set (W := work_items L).
  pose proof (selected_sublist k) as Hsub. fold L in Hsub.
  assert (Forall (λ tablet,
            NoDup (ts_uuid <$> replicas tablet)
            ∧ Forall (λ replica, is_Some (tablet_servers (cluster_ k) !! ts_uuid replica))
                     (replicas tablet)) L) as HL.
  { apply Forall_forall. intros tablet Hin.
    eapply Forall_forall in Hreps; [exact Hreps|]. by eapply elem_of_sublist. }
  assert (NoDup W) as HW.
  { apply work_items_NoDup.
    - eapply sublist_NoDup; [exact Hids|]. by apply fmap_sublist.
    - eapply Forall_impl; [exact HL|]. by intros ? [? _]. }
  split; [done|].
  assert ((umap_order (selected k)).*1 ≡ₚ L) as Hes.
  { unfold L. by rewrite umap_order_perm. }
  assert (work_items (umap_order (selected k)).*1 ≡ₚ W) as HWes.
  { unfold W, work_items. by rewrite Hes. }
  destruct (enqueue_spec k (length W) (umap_order (selected k)) ∅)
    as (queues & Henq & Hq & Hdir).
  { rewrite Hes. eapply Forall_impl; [exact HL|]. by intros ? [_ ?]. }
  { unfold queued at 1. rewrite flatten_map_empty, HWes. simpl. lia. }
  { intros key q. by rewrite lookup_empty. }
  exists queues. unfold ChecksumData_enqueue. split; [done|].
  unfold queued at 2 in Hq. rewrite flatten_map_empty in Hq. simpl in Hq.
  rewrite HWes in Hq. split; [done|]. split; [done|]. split.
  - intros key q Hkq. apply Hdir in Hkq. by apply Huuids in Hkq.
  - apply (enqueue_items (selected_item k) _ _ _ _ _ Henq).
    + intros e He. exists e. split; [|done]. by rewrite umap_order_perm in He.
    + intros key q item. by rewrite lookup_empty.
Qed.

(** X9: over a well-formed snapshot the queues that [ChecksumData]
    fills hold each replica of the selected tablets exactly once, on the
    queue of the server that hosts it; the server of a queue is the entry
    of the directory under the key of the queue, and every queue item
    carries the schema of the table of its tablet. *)
Theorem ChecksumData_enqueue_routing (k : Ksck) :
  snapshot_wf (cluster_ k) →
  ∃ queues,
    ChecksumData_enqueue k (length (work_items (selected k).*1)) (selected k)
    = Ret queues
    ∧ queued queues ≡ₚ work_items (selected k).*1
    ∧ NoDup (queued queues)
    ∧ ∀ key q, queues !! key = Some q →
        tablet_servers (cluster_ k) !! key = Some (queue_server q)
        ∧ uuid (queue_server q) = key
        ∧ ∀ item, item ∈ queue_items q →
            ∃ tablet table replica,
              (tablet, table) ∈ selected k
              ∧ item = (table_schema table, tablet_id tablet)
              ∧ replica ∈ replicas tablet ∧ ts_uuid replica = key.
Proof.
  intros Hwf.
  destruct (ChecksumData_enqueue_wf k Hwf)
    as (HW & queues & Henq & Hq & Hdir & Huuid & Hitems).
  pose proof Hwf as (Hids & _ & _).
  exists queues. split; [done|]. split; [done|]. split; [by rewrite Hq|].
  intros key q Hkey. split; [by apply Hdir|]. split; [by apply (Huuid key q)|].
  intros item Hin.
  destruct (Hitems key q item Hkey Hin) as ([tablet table] & Hsel & ->).
  simpl. exists tablet, table.
  assert ((tablet_id tablet, key) ∈ work_items (selected k).*1) as HinW.
  { rewrite <- Hq. unfold queued. apply elem_of_flatten_map.
    exists key, q. split; [done|]. apply list_elem_of_fmap.
    by exists (table_schema table, tablet_id tablet). }
  apply elem_of_work_items in HinW as (tablet' & replica & Ht' & Hr & Hid & ->).
  assert (tablet' = tablet) as ->.
  { assert (NoDup (tablet_id <$> (selected k).*1)) as Hnd.
    { eapply sublist_NoDup; [exact Hids|]. apply fmap_sublist, selected_sublist. }
    assert (tablet ∈ (selected k).*1) as Ht.
    { apply list_elem_of_fmap. by exists (tablet, table). }
    apply list_elem_of_lookup in Ht as [i Hi].
    apply list_elem_of_lookup in Ht' as [j Hj].
    assert (i = j) as ->.
    { eapply NoDup_lookup; [exact Hnd| |].
      - by rewrite list_lookup_fmap, Hi.
      - rewrite list_lookup_fmap, Hj. simpl. by rewrite Hid. }
    congruence. }
  by exists replica.
Qed.

(** The stages of a run that reached the result loop. *)
Lemma ChecksumData_stages k opts env r s :
  ChecksumData k opts env = Ret r → run_summary r = Some s →
  ∃ queues options log st0 st1 st2,
    ChecksumData_enqueue k (length (work_items (selected k).*1)) (selected k)
    = Ret queues
    ∧ ChecksumData_timestamp opts queues = inr (options, log)
    ∧ ChecksumData_kick_off options queues
        (new_reporter (length (work_items (selected k).*1)))
        (events_while_starting env) = Ret st0
    ∧ for_each (scan_step options) (events_while_waiting env) st0 = Ret st1
    ∧ for_each (scan_step options) (events_before_copy env) st1 = Ret st2
    ∧ run_scans r = scans st2
    ∧ checksums s = checksums_ (reporter st2)
    ∧ timed_out s = negb (WaitFor env (reporter st1))
    ∧ num_tablet_replicas s = length (work_items (selected k).*1)
    ∧ length (work_items (selected k).*1) ≠ 0.
Proof.
  unfold ChecksumData. rewrite ChecksumData_select_spec.
  case_bool_decide as Hn; [intros [= <-]; simpl; intros [=]|].
  destruct (ChecksumData_enqueue _ _ _) as [queues|] eqn:Henq; simpl; [|done].
  destruct (ChecksumData_timestamp opts queues) as [s0|[options log]] eqn:Hts;
    [intros [= <-]; simpl; intros [=]|].
  destruct (ChecksumData_kick_off _ _ _ _) as [st0|] eqn:H0; simpl; [|done].
  destruct (for_each _ (events_while_waiting env) _) as [st1|] eqn:H1; simpl; [|done].
  destruct (for_each _ (events_before_copy env) _) as [st2|] eqn:H2; simpl; [|done].
  destruct (ChecksumData_walk _ _) as [t|]; simpl; [|done].
  destruct (ChecksumData_status _ _ _ _) as [status|]; simpl; [|done].
  intros [= <-]. simpl. intros [= <-]. simpl.
  exists queues, options, log, st0, st1, st2. done.
Qed.

Lemma ChecksumData_no_summary k opts env r :
  ChecksumData k opts env = Ret r → run_summary r = None → run_scans r = [].
Proof.
  unfold ChecksumData. rewrite ChecksumData_select_spec.
  case_bool_decide as Hn; [by intros [= <-]|].
  destruct (ChecksumData_enqueue _ _ _) as [queues|]; simpl; [|done].
  destruct (ChecksumData_timestamp opts queues) as [s0|[options log]];
    [by intros [= <-]|].
  destruct (ChecksumData_kick_off _ _ _ _) as [st0|]; simpl; [|done].
  destruct (for_each _ (events_while_waiting env) _) as [st1|]; simpl; [|done].
  destruct (for_each _ (events_before_copy env) _) as [st2|]; simpl; [|done].
  destruct (ChecksumData_walk _ _) as [t|]; simpl; [|done].
  destruct (ChecksumData_status _ _ _ _) as [status|]; simpl; [|done].
  by intros [= <-].
Qed.

(** The stages of a run over a well-formed snapshot, with the invariants
    of the scheduler. *)
Lemma ChecksumData_final_state k opts env r s :
  snapshot_wf (cluster_ k) →
  ChecksumData k opts env = Ret r → run_summary r = Some s →
  ∃ queues options log st0 st1 st2,
    queues_of_directory k queues
    ∧ ChecksumData_timestamp opts queues = inr (options, log)
    ∧ ChecksumData_kick_off options queues
        (new_reporter (length (work_items (selected k).*1)))
        (events_while_starting env) = Ret st0
    ∧ for_each (scan_step options) (events_while_waiting env) st0 = Ret st1
    ∧ for_each (scan_step options) (events_before_copy env) st1 = Ret st2
    ∧ scan_inv (work_items (selected k).*1) st1
    ∧ scan_inv (work_items (selected k).*1) st2
    ∧ scans_inv (work_items (selected k).*1) st2
    ∧ calls_inv (selected_item k) options st2
    ∧ run_scans r = scans st2
    ∧ checksums s = checksums_ (reporter st2)
    ∧ timed_out s = negb (WaitFor env (reporter st1)).
Proof.
  intros Hwf Hr Hs.
  destruct (ChecksumData_enqueue_wf k Hwf)
    as (HW & queues & Henq & Hq & Hdir & Huuid & Hitems).
  destruct (ChecksumData_stages k opts env r s Hr Hs)
    as (queues' & options & log & st0 & st1 & st2 & Henq' & Hts & H0 & H1 & H2
        & Hscans & Hsums & Htimed & _).
  rewrite Henq in Henq'. injection Henq' as <-.
  set (W := work_items (selected k).*1) in *.
  set (I := λ st, (scan_inv W st ∧ scans_inv W st) ∧ calls_inv (selected_item k) options st).
  assert (∀ st ev st', I st → scan_step options st ev = Ret st' → I st') as Hstep.
  { intros st ev st' [Ha Hb] Hev. split.
    - by eapply scan_step_scans_inv.
    - by eapply scan_step_calls_inv. }
  assert (I st0) as HI0.
  { eapply (kick_off_preserve I options queues); [|exact Hstep| |exact H0].
    - intros key q st Hkey [[Ha Hb] Hc].
      pose proof (Huuid key q Hkey) as Hu. simpl in Hu.
      split; [split|].
      + by apply start_scan_inv.
      + by apply start_scan_scans_inv.
      + by apply start_scan_calls_inv.
    - split; [split|].
      + split; [|split]; simpl.
        * unfold recorded_keys, recorded, pending. simpl.
          rewrite flatten_map_empty. done.
        * unfold pending. simpl. by rewrite Hq.
        * constructor.
      + unfold scans_inv. simpl. done.
      + split; simpl; [exact Hitems|constructor]. }
  assert (I st1) as HI1 by (by eapply scan_steps_preserve).
  assert (I st2) as HI2 by (by eapply scan_steps_preserve).
  destruct HI1 as [[Hinv1 _] _]. destruct HI2 as [[Hinv2 Hsc2] Hc2].
  by exists queues, options, log, st0, st1, st2.
Qed.

End RunStages.

(** *** The status of a run *)

Section Precedence.
Context {ext : Externals}.

(** C1: over a well-formed snapshot [ChecksumData] never aborts, and the
    status of every run is fixed.  When no replica is selected the run
    returns NotFound.  Otherwise the replicas are enqueued and the
    snapshot timestamp is resolved: when that fails the run returns the
    status of the resolution, and when it succeeds, as it always does
    for a scan that is not a snapshot scan or has a timestamp, the run
    reaches the result loop.  A run that reaches the result loop returns
    the status that first-match precedence gives: TimedOut when
    [WaitFor] returned false ([timed_out]) and fewer results than
    filtered replicas were recorded; otherwise Corruption with
    [num_mismatches] when a mismatch was counted; otherwise Aborted with
    [num_errors] when a recorded scan has a status that is not OK;
    otherwise OK.  [num_results] and [num_errors] count the recorded
    results and the failed ones among them.  [timed_out] is the negation
    of what [WaitFor] returned: it is set when the deadline has passed,
    and when it is not set all results are recorded. *)
Theorem ChecksumData_status_precedence (k : Ksck) (opts : ChecksumOptions) (env : ScanEnv) :
  snapshot_wf (cluster_ k) →
  ∃ r, ChecksumData k opts env = Ret r
    ∧ (∀ s, run_summary r = Some s →
        num_tablet_replicas s = length (work_items (selected k).*1)
        ∧ num_results (counters s) = length (recorded (checksums s))
        ∧ num_errors (counters s)
          = length (List.filter (λ e, negb (ok e.2.1)) (recorded (checksums s)))
        ∧ run_status r = terminal_status opts s)
    ∧ (∀ s, run_summary r = Some s →
        (deadline_passed env = true → timed_out s = true)
        ∧ (timed_out s = false →
           num_results (counters s) = num_tablet_replicas s))
    ∧ (work_items (selected k).*1 = [] →
       run_status r = NotFound (no_replicas_message k)
       ∧ run_summary r = None)
    ∧ (work_items (selected k).*1 ≠ [] →
       ∃ queues,
         ChecksumData_enqueue k (length (work_items (selected k).*1))
           (selected k)
         = Ret queues
         ∧ match ChecksumData_timestamp opts queues with
           | inl status => run_status r = status ∧ run_summary r = None
           | inr _ => is_Some (run_summary r)
           end)
    ∧ (work_items (selected k).*1 ≠ [] →
       use_snapshot opts = false
       ∨ snapshot_timestamp opts ≠ kCurrentTimestamp →
       is_Some (run_summary r)).
Proof.
  intros Hwf. destruct (ChecksumData_spec k opts env Hwf) as (r & Hr & _ & Hs).
  destruct (ChecksumData_enqueue_wf k Hwf) as (_ & queues & Henq & _).
  assert (work_items (selected k).*1 ≠ [] →
          match ChecksumData_timestamp opts queues with
          | inl status => run_status r = status ∧ run_summary r = None
          | inr _ => is_Some (run_summary r)
          end) as Hstages.
  { intros HW.
    assert (length (work_items (selected k).*1) ≠ 0) as Hlen.
    { intros Hlen. by apply length_zero_iff_nil in Hlen. }
    revert Hr.
    unfold ChecksumData. rewrite ChecksumData_select_spec.
    rewrite (bool_decide_eq_false_2 (length (work_items (selected k).*1) = 0))
      by done.
    rewrite Henq. cbn [mbind outcome_bind].
    destruct (ChecksumData_timestamp opts queues) as [s0|[options log]];
      [by intros [= <-]|].
    destruct (ChecksumData_kick_off _ _ _ _) as [st0|]; simpl; [|done].
    destruct (for_each _ (events_while_waiting env) _) as [st1|]; simpl; [|done].
    destruct (for_each _ (events_before_copy env) _) as [st2|]; simpl; [|done].
    destruct (ChecksumData_walk _ _) as [t|]; simpl; [|done].
    destruct (ChecksumData_status _ _ _ _) as [status|]; simpl; [|done].
    intros [= <-]. simpl. by eexists. }
  exists r. split; [done|]. split; [|split; [|split; [|split]]].
  - intros s Hsum.
    destruct (Hs s Hsum) as (Hn & _ & Hres & Herr & _ & Hle & _ & Hstatus).
    repeat split; try done. by apply ChecksumData_status_terminal.
  - intros s Hsum.
    destruct (Hs s Hsum) as (_ & _ & _ & _ & _ & Hle & Hlt & _).
    destruct (ChecksumData_stages k opts env r s Hr Hsum)
      as (? & ? & ? & ? & st1 & ? & _ & _ & _ & _ & _ & _ & _ & Htimed & _).
    split.
    + intros Hdead. rewrite Htimed. unfold WaitFor. rewrite Hdead.
      by rewrite andb_false_r.
    + intros Hnot. destruct (decide (num_results (counters s)
                                     = num_tablet_replicas s)) as [|Hne];
        [done|].
      rewrite Hlt in Hnot by lia. done.
  - intros HW. revert Hr. unfold ChecksumData. rewrite ChecksumData_select_spec.
    rewrite HW. simpl. by intros [= <-].
  - intros HW. exists queues. split; [done|]. by apply Hstages.
  - intros HW Hopts. specialize (Hstages HW).
    destruct (ChecksumData_timestamp opts queues) as [s0|[options log]] eqn:Hts;
      [|done].
    exfalso. unfold ChecksumData_timestamp in Hts.
    destruct Hopts as [Huse|Hzero].
    + by rewrite Huse in Hts.
    + rewrite (bool_decide_eq_false_2 (snapshot_timestamp opts = kCurrentTimestamp))
        in Hts by done.
      by rewrite andb_false_r in Hts.
Qed.

End Precedence.

(** *** The scans of a run *)

Section RunScans.
Context {ext : Externals}.

Lemma WaitFor_true_quiet W env st1 st2 options :
  scan_inv W st1 → WaitFor env (reporter st1) = true →
  for_each (scan_step options) (events_before_copy env) st1 = Ret st2 →
  pending st2 = [] ∧ reporter st2 = reporter st1 ∧ scans st2 = scans st1.
Proof.
  intros (_ & Hresp & _) Hwait H2.
  unfold WaitFor in Hwait. apply andb_true_iff in Hwait as [Hzero _].
  apply bool_decide_eq_true in Hzero. rewrite Hresp in Hzero.
  apply length_zero_iff_nil in Hzero.
  destruct (scan_steps_quiet options (events_before_copy env) st1 Hzero)
    as (st2' & Hst2' & Hrep & Hscans & Hp2).
  rewrite Hst2' in H2. by injection H2 as <-.
Qed.

(** X10: a run of [ChecksumData] over a well-formed snapshot starts at
    most one scan for each replica of the selected tablets and none for
    anything else; every recorded result is the one of a scan that was
    started; and when [WaitFor] did not time out, a scan was started for
    every replica. *)
Theorem ChecksumData_scans_once (k : Ksck) (opts : ChecksumOptions) (env : ScanEnv) :
  snapshot_wf (cluster_ k) →
  ∃ r, ChecksumData k opts env = Ret r
    ∧ scan_item <$> run_scans r ⊆+ work_items (selected k).*1
    ∧ ∀ s, run_summary r = Some s →
        recorded_keys (checksums s) ⊆+ scan_item <$> run_scans r
        ∧ (timed_out s = false →
           scan_item <$> run_scans r ≡ₚ work_items (selected k).*1).
Proof.
  intros Hwf. destruct (ChecksumData_spec k opts env Hwf) as (r & Hr & _).
  exists r. split; [done|].
  destruct (run_summary r) as [s|] eqn:Hs.
  - destruct (ChecksumData_final_state k opts env r s Hwf Hr Hs)
      as (queues & options & log & st0 & st1 & st2 & _ & _ & _ & _ & H2 & Hinv1
          & Hinv2 & Hsc2 & _ & -> & Hsum & Htimed).
    unfold scans_inv in Hsc2. split.
    + rewrite <- Hsc2. by apply submseteq_inserts_r.
    + intros s' [= <-]. rewrite Hsum. split.
      * destruct Hinv2 as (Hperm & _ & _). unfold pending in Hperm.
        rewrite <- Hsc2, !app_assoc in Hperm.
        apply Permutation_app_inv_r in Hperm. rewrite <- Hperm.
        by apply submseteq_inserts_r.
      * intros Hnot. rewrite Htimed in Hnot. apply negb_false_iff in Hnot.
        destruct (WaitFor_true_quiet _ _ _ _ _ Hinv1 Hnot H2) as (Hquiet & _).
        unfold pending in Hquiet. apply app_eq_nil in Hquiet as [_ Hq].
        rewrite Hq, app_nil_r in Hsc2. done.
  - rewrite (ChecksumData_no_summary _ _ _ _ Hr Hs). split; [|done].
    apply submseteq_nil_l.
Qed.

(** X11: when [WaitFor] reports that all replicas responded, the
    recorded results are exactly the replicas of the selected tablets, one
    result each, and the status is not TimedOut. *)
Theorem ChecksumData_complete (k : Ksck) (opts : ChecksumOptions) (env : ScanEnv) :
  snapshot_wf (cluster_ k) →
  ∃ r, ChecksumData k opts env = Ret r
    ∧ ∀ s, run_summary r = Some s → timed_out s = false →
        recorded_keys (checksums s) ≡ₚ work_items (selected k).*1
        ∧ code (run_status r) ≠ kTimedOut.
Proof.
  intros Hwf. destruct (ChecksumData_spec k opts env Hwf) as (r & Hr & _ & Hs).
  exists r. split; [done|]. intros s Hsum Hnot.
  destruct (Hs s Hsum) as (Hn & Hsub & Hres & _ & _ & Hle & Hlt & Hstatus).
  assert (num_results (counters s) = num_tablet_replicas s) as Hall.
  { destruct (decide (num_results (counters s) < num_tablet_replicas s)) as [Hc|Hc];
      [|lia]. rewrite (Hlt Hc) in Hnot. done. }
  split.
  - apply submseteq_length_Permutation; [done|].
    unfold recorded_keys. rewrite length_fmap, <- Hres, Hall, Hn. done.
  - apply ChecksumData_status_terminal in Hstatus; [|done]. rewrite Hstatus.
    unfold terminal_status. rewrite Hnot. simpl.
    repeat case_bool_decide; done.
Qed.

Lemma ChecksumData_timestamp_inr opts (queues : gmap string ServerQueue) options log :
  ChecksumData_timestamp opts queues = inr (options, log) →
  timeout options = timeout opts
  ∧ scan_concurrency options = scan_concurrency opts
  ∧ use_snapshot options = use_snapshot opts
  ∧ (use_snapshot opts = true → snapshot_timestamp options ≠ kCurrentTimestamp)
  ∧ (use_snapshot opts = false ∨ snapshot_timestamp opts ≠ kCurrentTimestamp →
     options = opts ∧ log = [])
  ∧ (use_snapshot opts = true → snapshot_timestamp opts = kCurrentTimestamp →
     ∃ key q, queues !! key = Some q ∧ is_healthy (queue_server q) = true
              ∧ snapshot_timestamp options = current_timestamp (queue_server q)
              ∧ log = [Info ("Using snapshot timestamp: "
                             +:+ pretty (current_timestamp (queue_server q)))]).
Proof.
  unfold ChecksumData_timestamp.
  destruct (use_snapshot opts) eqn:Huse; simpl.
  - case_bool_decide as Hzero.
    + destruct (List.find _ _) as [[key q]|] eqn:Hfind; simpl.
      * case_bool_decide as Hts; [done|]. intros [= <- <-]. simpl.
        split; [done|]. split; [done|]. split; [done|]. split; [done|].
        split; [by intros [?|?]|].
        intros _ _. apply find_some in Hfind as [Hin Hh]. simpl in Hh.
        apply list_elem_of_In in Hin. unfold umap_entries in Hin.
        rewrite umap_order_perm in Hin. apply elem_of_map_to_list in Hin.
        by exists key, q.
      * by rewrite bool_decide_eq_true_2.
    + intros [= <- <-].
      split; [done|]. split; [done|]. split; [done|]. split; [done|].
      split; [done|]. done.
  - intros [= <- <-].
    split; [done|]. split; [done|]. split; [done|]. split; [done|].
    split; [done|]. done.
Qed.

(** X12: every scan that [ChecksumData] starts is for a selected tablet
    and is given the schema of its table and the options of the caller, in
    which only the snapshot timestamp may be replaced: with [use_snapshot]
    it is never 0; it is the caller's when that one is not 0, and otherwise
    the current timestamp of a healthy server of the directory; all scans
    of a run get the same options. *)
Theorem ChecksumData_scan_arguments (k : Ksck) (opts : ChecksumOptions)
    (env : ScanEnv) :
  snapshot_wf (cluster_ k) →
  ∃ r, ChecksumData k opts env = Ret r
    ∧ ∀ call, call ∈ run_scans r →
        (∃ tablet table,
           (tablet, table) ∈ selected k
           ∧ scan_tablet_id call = tablet_id tablet
           ∧ scan_schema call = table_schema table)
        ∧ timeout (scan_options call) = timeout opts
        ∧ scan_concurrency (scan_options call) = scan_concurrency opts
        ∧ use_snapshot (scan_options call) = use_snapshot opts
        ∧ (use_snapshot opts = true →
           snapshot_timestamp (scan_options call) ≠ kCurrentTimestamp)
        ∧ (use_snapshot opts = false
           ∨ snapshot_timestamp opts ≠ kCurrentTimestamp →
           scan_options call = opts)
        ∧ (use_snapshot opts = true →
           snapshot_timestamp opts = kCurrentTimestamp →
           ∃ key ts,
             tablet_servers (cluster_ k) !! key = Some ts
             ∧ is_healthy ts = true
             ∧ snapshot_timestamp (scan_options call) = current_timestamp ts)
        ∧ ∀ call', call' ∈ run_scans r → scan_options call' = scan_options call.
Proof.
  intros Hwf. destruct (ChecksumData_spec k opts env Hwf) as (r & Hr & _).
  exists r. split; [done|]. intros call Hcall.
  destruct (run_summary r) as [s|] eqn:Hs.
  2:{ rewrite (ChecksumData_no_summary _ _ _ _ Hr Hs) in Hcall.
      by apply elem_of_nil in Hcall. }
  destruct (ChecksumData_final_state k opts env r s Hwf Hr Hs)
    as (queues & options & log & st0 & st1 & st2 & Hdir & Hts & _ & _ & _ & _ & _
        & _ & [_ Hcalls] & Hscans & _).
  rewrite Hscans in *. rewrite Forall_forall in Hcalls.
  destruct (Hcalls call Hcall) as [Hopt ([tablet table] & Hin & Hitem)].
  injection Hitem as Hschema Htid.
  destruct (ChecksumData_timestamp_inr _ _ _ _ Hts)
    as (Ht & Hc & Hu & Hnz & Hsame & Hres).
  rewrite Hopt. split; [by exists tablet, table|].
  repeat split; try done.
  - intros Hcase. by destruct (Hsame Hcase).
  - intros Huse Hzero. destruct (Hres Huse Hzero) as (key & q & Hq & Hh & Hsnap & _).
    exists key, (queue_server q). split; [by apply Hdir|done].
  - intros call' Hcall'. by destruct (Hcalls call' Hcall') as [-> _].
Qed.

(** X13: over a well-formed snapshot, however the callbacks interleave
    with the start of the scans, the scans in flight on a server never
    exceed [scan_concurrency]: not when the scans have been started, and
    not after any callback from then on. *)
Theorem scan_concurrency_cap (k : Ksck) :
  snapshot_wf (cluster_ k) →
  ∃ queues,
    ChecksumData_enqueue k (length (work_items (selected k).*1)) (selected k)
    = Ret queues
    ∧ ∀ options batches evs,
        ∃ st st',
          ChecksumData_kick_off options queues
            (new_reporter (length (work_items (selected k).*1))) batches
          = Ret st
          ∧ for_each (scan_step options) evs st = Ret st'
          ∧ ∀ key, in_flight_on key st' ≤ Z.to_nat (scan_concurrency options).
Proof.
  intros Hwf.
  destruct (ChecksumData_enqueue_wf k Hwf)
    as (HW & queues & Henq & Hq & Hdir & Huuid & _).
  exists queues. split; [done|]. intros options batches evs.
  destruct (kick_off_inv _ options queues
              (new_reporter (length (work_items (selected k).*1))) batches HW)
    as (st & Hst & Hinv); [done..|].
  destruct (scan_steps_inv _ options evs st HW Hinv) as (st' & Hst' & _).
  exists st, st'. split; [done|]. split; [done|]. intros key.
  pose proof (in_flight_on_kick_off _ _ _ _ _ key Hst).
  pose proof (in_flight_on_scan_steps _ _ _ _ key Hst'). lia.
Qed.

Lemma kick_off_server_zero options key ts acc :
  kick_off_server options key ts 0 acc = Ret acc.
Proof. done. Qed.

Lemma kick_off_zero options (queues : gmap string ServerQueue) rep batches :
  Z.to_nat (scan_concurrency options) = 0 →
  ChecksumData_kick_off options queues rep batches
  = Ret {| reporter := rep; tablet_server_queues := queues; in_flight := [];
           scans := [] |}.
Proof.
  intros Hz. unfold ChecksumData_kick_off. rewrite Hz.
  assert (∀ es (acc : ScanState * list (list scan_event)),
            for_each
              (λ (acc : ScanState * list (list scan_event))
                 (entry : string * ServerQueue),
                 kick_off_server options entry.1 (queue_server entry.2) 0 acc)
              es acc = Ret acc) as Hloop.
  { induction es as [|e es IH]; intros acc; [done|]. cbn [for_each].
    rewrite kick_off_server_zero. simpl. apply IH. }
  by rewrite Hloop.
Qed.

(** X14: with a [scan_concurrency] of zero or less [ChecksumData]
    starts no scan; in a run that gets to the scans no result is recorded,
    [WaitFor] returns false ([timed_out] is set) and the run returns
    TimedOut with 0 results received. *)
Theorem no_concurrency_no_scan (k : Ksck) (opts : ChecksumOptions) (env : ScanEnv) :
  snapshot_wf (cluster_ k) →
  (scan_concurrency opts ≤ 0)%Z →
  ∃ r, ChecksumData k opts env = Ret r
    ∧ run_scans r = []
    ∧ ∀ s, run_summary r = Some s →
        checksums s = ∅ ∧ timed_out s = true
        ∧ run_status r
          = TimedOut ("Checksum scan did not complete within the timeout of "
                      +:+ MonoDelta_ToString (timeout opts)
                      +:+ ": Received results for 0 out of "
                      +:+ pretty (num_tablet_replicas s)
                      +:+ " expected replicas").
Proof.
  intros Hwf Hc. destruct (ChecksumData_spec k opts env Hwf) as (r & Hr & _ & Hspec).
  exists r. split; [done|].
  destruct (run_summary r) as [s|] eqn:Hs.
  2:{ by rewrite (ChecksumData_no_summary _ _ _ _ Hr Hs). }
  destruct (ChecksumData_stages k opts env r s Hr Hs)
    as (queues & options & log & st0 & st1 & st2 & _ & Hts & H0 & H1 & H2
        & Hscans & Hsums & Htimed & Hn & Hne).
  destruct (ChecksumData_timestamp_inr _ _ _ _ Hts) as (_ & Hconc & _).
  rewrite kick_off_zero in H0 by (rewrite Hconc; lia). injection H0 as <-.
  rewrite scan_steps_idle in H1 by done. injection H1 as <-.
  rewrite scan_steps_idle in H2 by done. injection H2 as <-.
  simpl in *. split; [done|]. intros s' [= <-].
  destruct (Hspec s eq_refl) as (_ & _ & Hres & _ & _ & _ & Hlt & Hstatus).
  rewrite Hsums in Hres. unfold recorded in Hres.
  rewrite flatten_map_empty in Hres. simpl in Hres.
  split; [done|].
  assert (timed_out s = true) as Hto by (apply Hlt; lia).
  split; [done|].
  unfold ChecksumData_status in Hstatus. rewrite Hres, Hto in Hstatus.
  rewrite bool_decide_eq_false_2 in Hstatus by lia. simpl in Hstatus.
  by injection Hstatus as <-.
Qed.

End RunScans.

(** *** The status by the recorded results *)

Section Verdict.
Context {ext : Externals}.

Lemma length_filter_pos {A} (f : A → bool) l :
  length (List.filter f l) ≠ 0 ↔ ∃ x, x ∈ l ∧ f x = true.
Proof.
  rewrite length_zero_iff_nil. split.
  - intros Hne. destruct (List.filter f l) as [|x l'] eqn:Hf; [done|].
    exists x. rewrite list_elem_of_In, <- filter_In, Hf. by left.
  - intros (x & Hin & Hx) Hnil. rewrite filter_nil_iff in Hnil.
    by rewrite (Hnil x Hin) in Hx.
Qed.

Lemma mismatches_after_pos reference rs :
  mismatches_after reference rs ≠ 0
  ↔ ∃ r, r ∈ rs ∧ ok r.2.1 = true ∧ r.2.2 ≠ reference.
Proof.
  unfold mismatches_after. rewrite length_filter_pos.
  split; intros (r & Hin & Hr); exists r; (split; [done|]).
  - apply andb_true_iff in Hr as [Hok Hne]. split; [done|].
    apply negb_true_iff in Hne. by apply bool_decide_eq_false in Hne.
  - destruct Hr as [-> Hne]. simpl. by rewrite bool_decide_eq_false_2.
Qed.

(** Whether the result loop counts a mismatch for a tablet does not depend
    on the order of its results. *)
Lemma mismatches_in_pos rs :
  mismatches_in rs ≠ 0
  ↔ ∃ r1 r2, r1 ∈ rs ∧ r2 ∈ rs ∧ ok r1.2.1 = true ∧ ok r2.2.1 = true
             ∧ r1.2.2 ≠ r2.2.2.
Proof.
  induction rs as [|r rs IH]; simpl.
  - split; [done|]. by intros (? & ? & ?%elem_of_nil & _).
  - destruct (ok r.2.1) eqn:Hok.
    + rewrite mismatches_after_pos. split.
      * intros (r2 & Hin & Hok2 & Hne). exists r2, r.
        repeat split; try done; [by right|by left].
      * intros (r1 & r2 & Hin1 & Hin2 & Hok1 & Hok2 & Hne).
        destruct (decide (r1.2.2 = r.2.2)) as [Heq1|Hne1].
        -- exists r2. apply elem_of_cons in Hin2 as [->|Hin2]; [done|].
           repeat split; try done. congruence.
        -- exists r1. apply elem_of_cons in Hin1 as [->|Hin1]; [done|].
           done.
    + rewrite IH. split.
      * intros (r1 & r2 & Hin1 & Hin2 & Hrest). exists r1, r2.
        split; [by right|]. split; [by right|]. done.
      * intros (r1 & r2 & Hin1 & Hin2 & Hok1 & Hok2 & Hne). exists r1, r2.
        apply elem_of_cons in Hin1 as [->|Hin1]; [congruence|].
        apply elem_of_cons in Hin2 as [->|Hin2]; [congruence|].
        done.
Qed.

Lemma mismatches_of_pos c l :
  mismatches_of c l ≠ 0
  ↔ ∃ tablet, tablet ∈ l ∧ mismatches_in (tablet_results c tablet) ≠ 0.
Proof.
  induction l as [|t l IH]; simpl.
  - split; [done|]. by intros (? & ?%elem_of_nil & _).
  - split.
    + intros Hne.
      destruct (decide (mismatches_in (tablet_results c t) = 0)) as [Hz|Hnz].
      * assert (mismatches_of c l ≠ 0) as Hl by lia.
        apply IH in Hl as (tablet & Hin & Hm). exists tablet. split; [by right|done].
      * exists t. split; [by left|done].
    + intros (tablet & Hin & Hm). apply elem_of_cons in Hin as [->|Hin]; [lia|].
      assert (mismatches_of c l ≠ 0) as Hl by (apply IH; eauto). lia.
Qed.

Lemma elem_of_tablet_results c tablet u v :
  (u, v) ∈ tablet_results c tablet
  ↔ ∃ m, c !! tablet_id tablet = Some m ∧ m !! u = Some v.
Proof.
  unfold tablet_results. destruct (c !! tablet_id tablet) as [m|].
  - unfold umap_entries. rewrite umap_order_perm, elem_of_map_to_list.
    split; [by exists m|]. by intros (m' & [= <-] & ?).
  - split; [by intros ?%elem_of_nil|]. by intros (? & [=] & _).
Qed.

Lemma mismatches_of_disagree c l :
  (∀ tid u, (tid, u) ∈ recorded_keys c → tid ∈ tablet_id <$> l) →
  mismatches_of c l ≠ 0 ↔ disagree c.
Proof.
  intros Hdom. rewrite mismatches_of_pos. split.
  - intros (tablet & Hin & Hm).
    apply mismatches_in_pos in Hm
      as ([u1 [s1 c1]] & [u2 [s2 c2]] & Hin1 & Hin2 & Hok1 & Hok2 & Hne).
    apply elem_of_tablet_results in Hin1 as (m & Hm & Hu1).
    apply elem_of_tablet_results in Hin2 as (m' & Hm' & Hu2).
    rewrite Hm in Hm'. injection Hm' as <-. simpl in *.
    by exists (tablet_id tablet), m, u1, u2, s1, s2, c1, c2.
  - intros (tid & m & u1 & u2 & s1 & s2 & c1 & c2 & Hm & Hu1 & Hu2 & Hok1 & Hok2 & Hne).
    assert (tid ∈ tablet_id <$> l) as Hin.
    { apply (Hdom tid u1), elem_of_recorded_keys. eauto. }
    apply list_elem_of_fmap in Hin as (tablet & -> & Hin).
    exists tablet. split; [done|]. apply mismatches_in_pos.
    exists (u1, (s1, c1)), (u2, (s2, c2)).
    rewrite !elem_of_tablet_results. simpl. eauto 10.
Qed.

Lemma visited_errors_failed c : visited_errors (recorded c) ≠ 0 ↔ failed c.
Proof.
  unfold visited_errors, failed. rewrite length_filter_pos. split.
  - intros ([[tid u] v] & Hin & Hv). exists tid, u, v. split; [done|].
    by apply negb_true_iff in Hv.
  - intros (tid & u & v & Hin & Hv). exists (tid, u, v). split; [done|].
    simpl. by rewrite Hv.
Qed.

Lemma terminal_status_cases opts s :
  num_results (counters s) ≤ num_tablet_replicas s →
  (num_results (counters s) < num_tablet_replicas s → timed_out s = true) →
  (code (terminal_status opts s) = kTimedOut
   ↔ num_results (counters s) < num_tablet_replicas s)
  ∧ (code (terminal_status opts s) = kCorruption
     ↔ num_results (counters s) = num_tablet_replicas s
       ∧ num_mismatches (counters s) ≠ 0)
  ∧ (code (terminal_status opts s) = kAborted
     ↔ num_results (counters s) = num_tablet_replicas s
       ∧ ¬ num_mismatches (counters s) ≠ 0 ∧ num_errors (counters s) ≠ 0)
  ∧ (terminal_status opts s = Status_OK
     ↔ num_results (counters s) = num_tablet_replicas s
       ∧ ¬ num_mismatches (counters s) ≠ 0 ∧ ¬ num_errors (counters s) ≠ 0).
Proof.
  intros Hle Hlt. unfold terminal_status.
  destruct (decide (num_results (counters s) < num_tablet_replicas s)) as [Hc|Hc].
  - rewrite (Hlt Hc), bool_decide_eq_true_2 by done. simpl.
    split; [done|]. split; [|split]; (split; [done|]); intros [? _]; lia.
  - rewrite (bool_decide_eq_false_2 (_ < _)) by done. rewrite andb_false_r.
    assert (num_results (counters s) = num_tablet_replicas s) as Heq by lia.
    destruct (decide (num_mismatches (counters s) = 0)) as [Hm|Hm].
    + rewrite (bool_decide_eq_false_2 (num_mismatches _ ≠ 0)) by (by intros []).
      destruct (decide (num_errors (counters s) = 0)) as [He|He].
      * rewrite (bool_decide_eq_false_2 (num_errors _ ≠ 0)) by (by intros []).
        simpl. split; [split; [done|lia]|].
        split; [split; [done|by intros (_ & ?)]|].
        split; [split; [done|by intros (_ & _ & ?)]|].
        split; [|done]. intros _. split; [done|]. split; by intros [].
      * rewrite (bool_decide_eq_true_2 (num_errors _ ≠ 0)) by done.
        simpl. split; [split; [done|lia]|].
        split; [split; [done|by intros (_ & ?)]|].
        split; [split; [|done]|].
        { intros _. split; [done|]. split; [by intros []|done]. }
        split; [done|]. by intros (_ & _ & []).
    + rewrite (bool_decide_eq_true_2 (num_mismatches _ ≠ 0)) by done.
      simpl. split; [split; [done|lia]|].
      split; [split; [done|done]|].
      split; [split; [done|by intros (_ & [] & _)]|].
      split; [done|]. by intros (_ & [] & _).
Qed.

(** X15: the kind of status that a run which reached the result loop
    returns depends on the recorded results only, not on the order in
    which the maps hand them out: TimedOut exactly when results are
    missing; Corruption
    exactly when none is missing and two successful scans of one tablet
    returned different checksums; Aborted exactly when none is missing,
    no such two scans exist and a scan failed; OK exactly when none is
    missing, no two scans disagree and none failed. *)
Theorem ChecksumData_verdict_by_results (k : Ksck) (opts : ChecksumOptions)
    (env : ScanEnv) :
  snapshot_wf (cluster_ k) →
  ∃ r, ChecksumData k opts env = Ret r
    ∧ ∀ s, run_summary r = Some s →
        (num_mismatches (counters s) ≠ 0 ↔ disagree (checksums s))
        ∧ (num_errors (counters s) ≠ 0 ↔ failed (checksums s))
        ∧ (code (run_status r) = kTimedOut
           ↔ length (recorded (checksums s)) < length (work_items (selected k).*1))
        ∧ (code (run_status r) = kCorruption
           ↔ length (recorded (checksums s)) = length (work_items (selected k).*1)
             ∧ disagree (checksums s))
        ∧ (code (run_status r) = kAborted
           ↔ length (recorded (checksums s)) = length (work_items (selected k).*1)
             ∧ ¬ disagree (checksums s) ∧ failed (checksums s))
        ∧ (run_status r = Status_OK
           ↔ length (recorded (checksums s)) = length (work_items (selected k).*1)
             ∧ ¬ disagree (checksums s) ∧ ¬ failed (checksums s)).
Proof.
  intros Hwf. destruct (ChecksumData_spec k opts env Hwf) as (r & Hr & _ & Hs).
  exists r. split; [done|]. intros s Hsum.
  destruct (Hs s Hsum) as (Hn & Hsub & Hres & Herr & Hmis & Hle & Hlt & Hstatus).
  assert (num_mismatches (counters s) ≠ 0 ↔ disagree (checksums s)) as Hdis.
  { rewrite Hmis. apply mismatches_of_disagree. intros tid u Hin.
    assert ((tid, u) ∈ work_items (selected k).*1) as HinW.
    { eapply elem_of_submseteq; [exact Hin|exact Hsub]. }
    apply elem_of_work_items in HinW as (tablet & _ & Ht & _ & -> & _).
    apply list_elem_of_fmap. exists tablet. split; [done|].
    eapply elem_of_sublist; [exact Ht|apply selected_sublist]. }
  assert (num_errors (counters s) ≠ 0 ↔ failed (checksums s)) as Hfail.
  { rewrite Herr. apply visited_errors_failed. }
  split; [done|]. split; [done|].
  rewrite <- Hdis, <- Hfail, <- Hres, <- Hn.
  apply ChecksumData_status_terminal in Hstatus; [|done]. rewrite Hstatus.
  by apply terminal_status_cases.
Qed.

End Verdict.

(** *** A replica on an unknown server *)

Section UnknownServer.
Context {ext : Externals}.

Lemma enqueue_tablet_outcome k n tablet table (rs : list KsckTabletReplica) queues :
  length (queued queues) + length rs ≤ n →
  queues_of_directory k queues →
  (∃ queues',
     for_each (enqueue_replica k n tablet table) rs queues = Ret queues'
     ∧ length (queued queues') = length (queued queues) + length rs
     ∧ queues_of_directory k queues'
     ∧ Forall (λ replica, is_Some (tablet_servers (cluster_ k) !! ts_uuid replica)) rs)
  ∨ (for_each (enqueue_replica k n tablet table) rs queues
     = Die "FindOrDie: key not found"
     ∧ Exists (λ replica, tablet_servers (cluster_ k) !! ts_uuid replica = None) rs).
Proof.
  revert queues. induction rs as [|r rs IH]; intros queues Hlen Hdir.
  - left. exists queues. simpl. repeat split; try done; lia.
  - simpl in Hlen. cbn [for_each].
    destruct (tablet_servers (cluster_ k) !! ts_uuid r) as [ts|] eqn:Hts.
    + destruct (enqueue_replica_spec k n tablet table queues r)
        as (q1 & -> & Hperm & Hdir1); [by rewrite Hts|lia|done|]. simpl.
      assert (length (queued q1) = S (length (queued queues))) as Hq1.
      { rewrite Hperm, length_app. simpl. lia. }
      destruct (IH q1) as [(q2 & Hq2 & Hlen2 & Hdir2 & Hall)|[Hdie Hex]];
        [lia|done| |].
      * left. exists q2. split; [done|]. split; [simpl; lia|]. split; [done|].
        constructor; [by rewrite Hts|done].
      * right. split; [done|]. by apply Exists_cons_tl.
    + right. split; [|by apply Exists_cons_hd].
      unfold enqueue_replica, FindOrDie. by rewrite Hts.
Qed.

Lemma enqueue_outcome k n (es : list (KsckTablet * KsckTable)) queues :
  length (queued queues) + length (work_items es.*1) ≤ n →
  queues_of_directory k queues →
  (∃ queues',
     for_each
       (λ queues entry,
          for_each (enqueue_replica k n entry.1 entry.2) (replicas entry.1) queues)
       es queues = Ret queues'
     ∧ Forall (λ e : KsckTablet * KsckTable,
                 Forall (λ replica,
                           is_Some (tablet_servers (cluster_ k) !! ts_uuid replica))
                        (replicas e.1)) es)
  ∨ for_each
      (λ queues entry,
         for_each (enqueue_replica k n entry.1 entry.2) (replicas entry.1) queues)
      es queues = Die "FindOrDie: key not found".
Proof.
  revert queues. induction es as [|[t tb] es IH]; intros queues Hlen Hdir.
  - left. by exists queues.
  - rewrite fmap_cons, length_work_items_cons in Hlen. simpl in Hlen.
    cbn [for_each]. simpl.
    destruct (enqueue_tablet_outcome k n t tb (replicas t) queues)
      as [(q1 & -> & Hlen1 & Hdir1 & Hall1)|[-> _]]; [lia|done| |by right].
    simpl. destruct (IH q1) as [(q2 & Hq2 & Hall)|Hdie]; [lia|done| |by right].
    left. exists q2. split; [done|]. by constructor.
Qed.

(** X16: when a replica of a selected tablet names a tablet server
    that is not in the directory, [ChecksumData] aborts in [FindOrDie]
    while it fills the queues, before any scan is started. *)
Theorem ChecksumData_unknown_server (k : Ksck) (opts : ChecksumOptions)
    (env : ScanEnv) (tablet : KsckTablet) (table : KsckTable)
    (replica : KsckTabletReplica) :
  (tablet, table) ∈ selected k →
  replica ∈ replicas tablet →
  tablet_servers (cluster_ k) !! ts_uuid replica = None →
  ChecksumData k opts env = Die "FindOrDie: key not found".
Proof.
  intros Hsel Hrep Hnone. unfold ChecksumData. rewrite ChecksumData_select_spec.
  assert ((tablet_id tablet, ts_uuid replica) ∈ work_items (selected k).*1) as Hin.
  { apply elem_of_work_items. exists tablet, replica. split; [|done].
    apply list_elem_of_fmap. by exists (tablet, table). }
  rewrite bool_decide_eq_false_2.
  2:{ intros Hz. apply length_zero_iff_nil in Hz. rewrite Hz in Hin.
      by apply elem_of_nil in Hin. }
  unfold ChecksumData_enqueue.
  destruct (enqueue_outcome k (length (work_items (selected k).*1))
              (umap_order (selected k)) ∅) as [(queues & _ & Hall)|Hdie];
    [| | |by rewrite Hdie].
  - unfold queued. rewrite flatten_map_empty. simpl.
    unfold work_items. by rewrite umap_order_perm.
  - intros key q. by rewrite lookup_empty.
  - exfalso. rewrite Forall_forall in Hall.
    specialize (Hall (tablet, table)). simpl in Hall.
    rewrite umap_order_perm in Hall. specialize (Hall Hsel).
    rewrite Forall_forall in Hall. specialize (Hall replica Hrep).
    rewrite Hnone in Hall. by destruct Hall.
Qed.

End UnknownServer.

(** *** No work is stranded *)

Section Busy.
Context {ext : Externals}.

Lemma in_flight_on_pos key (st : ScanState) cb :
  cb ∈ in_flight st → cb_queue cb = key → 0 < in_flight_on key st.
Proof.
  intros Hin Hkey. unfold in_flight_on.
  apply (filter_some _ _ cb); [done|]. by apply bool_decide_eq_true.
Qed.

Lemma start_scan_busy_self options key ts st :
  busy key (start_scan options key ts st).
Proof.
  unfold start_scan, BlockingGet.
  destruct (tablet_server_queues st !! key) as [q|] eqn:Hq.
  - destruct (queue_items q) as [|item rest] eqn:Hitems.
    + intros q' Hq' Hne. rewrite Hq in Hq'. injection Hq' as <-. congruence.
    + intros _ _ _.
      apply (in_flight_on_pos _ _ {| cb_tablet_server := ts; cb_queue := key;
                                     cb_tablet_id := item.2;
                                     cb_reported := false |}); [|done].
      simpl. apply elem_of_app. right. by left.
  - intros q' Hq'. by rewrite Hq in Hq'.
Qed.

Lemma start_scan_busy options key ts st key' :
  busy key' st → busy key' (start_scan options key ts st).
Proof.
  intros Hbusy. destruct (decide (key' = key)) as [->|Hne].
  { apply start_scan_busy_self. }
  unfold start_scan, BlockingGet.
  destruct (tablet_server_queues st !! key) as [q|] eqn:Hq; [|done].
  destruct (queue_items q) as [|item rest] eqn:Hitems; [done|].
  intros q' Hq' Hne'. simpl in Hq'. rewrite lookup_insert_ne in Hq' by done.
  specialize (Hbusy q' Hq' Hne'). unfold in_flight_on in *. simpl.
  rewrite List.filter_app, length_app. lia.
Qed.

Lemma Finished_next_busy options i st key :
  busy key st → busy key (Finished_next options i st).
Proof.
  intros Hbusy. unfold Finished_next.
  destruct (in_flight st !! i) as [cb|] eqn:Hcb; [|done].
  destruct (cb_reported cb); [|done].
  unfold BlockingGet.
  destruct (tablet_server_queues st !! cb_queue cb) as [q|] eqn:Hq.
  - destruct (queue_items q) as [|item rest] eqn:Hitems.
    + intros q' Hq' Hne. simpl in Hq'.
      destruct (decide (key = cb_queue cb)) as [->|Hkey].
      { rewrite Hq in Hq'. injection Hq' as <-. congruence. }
      specialize (Hbusy q' Hq' Hne). unfold in_flight_on in *. simpl.
      rewrite (length_filter_Permutation _ _ _ (delete_Permutation _ _ _ Hcb)) in Hbusy.
      simpl in Hbusy. rewrite bool_decide_eq_false_2 in Hbusy by done. done.
    + intros q' Hq' Hne. simpl in Hq'.
      destruct (decide (key = cb_queue cb)) as [->|Hkey].
      { apply (in_flight_on_pos _ _ {| cb_tablet_server := cb_tablet_server cb;
                                       cb_queue := cb_queue cb;
                                       cb_tablet_id := item.2;
                                       cb_reported := false |}); [|done].
        simpl. apply list_elem_of_lookup. exists i.
        rewrite list_lookup_insert_eq; [done|]. by eapply lookup_lt_Some. }
      rewrite lookup_insert_ne in Hq' by done.
      specialize (Hbusy q' Hq' Hne). unfold in_flight_on in *. simpl.
      by rewrite (in_flight_on_insert key _ _ _ _ Hcb).
  - intros q' Hq' Hne. simpl in Hq'.
    destruct (decide (key = cb_queue cb)) as [->|Hkey].
    { by rewrite Hq in Hq'. }
    specialize (Hbusy q' Hq' Hne). unfold in_flight_on in *. simpl.
    rewrite (length_filter_Permutation _ _ _ (delete_Permutation _ _ _ Hcb)) in Hbusy.
    simpl in Hbusy. rewrite bool_decide_eq_false_2 in Hbusy by done. done.
Qed.

Lemma scan_step_busy options st ev st' key :
  busy key st → scan_step options st ev = Ret st' → busy key st'.
Proof.
  intros Hbusy Hev. destruct ev as [i rows bytes|i status checksum|i]; simpl in Hev.
  - injection Hev as <-. destruct (Progress_frame i rows bytes st) as (Hq & _ & Hf).
    unfold busy, in_flight_on. by rewrite Hq, Hf.
  - destruct (Finished_report_frame _ _ _ _ _ Hev) as (Hq & _ & [Hf|(cb & Hcb & Hf)]);
      unfold busy, in_flight_on; rewrite Hq, Hf; [done|].
    by rewrite (in_flight_on_insert key _ _ _ _ Hcb).
  - injection Hev as <-. by apply Finished_next_busy.
Qed.

Lemma kick_off_server_busy_self options key ts n acc acc' :
  kick_off_server options key ts (S n) acc = Ret acc' → busy key acc'.1.
Proof.
  destruct acc as [st batches]. cbn [kick_off_server]. simpl.
  destruct (for_each _ _ _) as [st1|] eqn:Hevs; simpl; [|done].
  apply (kick_off_server_preserve (busy key) options key ts n (st1, tail batches)).
  - intros st0. apply start_scan_busy.
  - intros st0 ev st0'. apply scan_step_busy.
  - simpl. eapply scan_steps_preserve; [|apply start_scan_busy_self|exact Hevs].
    intros st0 ev st0'. apply scan_step_busy.
Qed.

Lemma kick_off_busy options (queues : gmap string ServerQueue) rep batches st key :
  (0 < scan_concurrency options)%Z →
  ChecksumData_kick_off options queues rep batches = Ret st →
  busy key st.
Proof.
  intros Hc. unfold ChecksumData_kick_off.
  destruct (Z.to_nat (scan_concurrency options)) as [|n] eqn:Hn; [lia|].
  assert (∀ es (acc acc' : ScanState * list (list scan_event)),
            (key ∈ es.*1 ∨ busy key acc.1) →
            for_each
              (λ (acc : ScanState * list (list scan_event))
                 (entry : string * ServerQueue),
                 kick_off_server options entry.1 (queue_server entry.2) (S n) acc)
              es acc = Ret acc' →
            busy key acc'.1) as Hloop.
  { induction es as [|e es IH]; intros acc acc' Hacc; cbn [for_each].
    - intros [= <-]. destruct Hacc as [Hin|?]; [|done]. by apply elem_of_nil in Hin.
    - destruct (kick_off_server options e.1 (queue_server e.2) (S n) acc)
        as [acc1|] eqn:Hk; [|done].
      cbn [mbind outcome_bind]. apply IH. rewrite fmap_cons in Hacc.
      destruct Hacc as [[Heq|Hin]%elem_of_cons|Hbusy].
      + right. rewrite Heq. by eapply kick_off_server_busy_self.
      + by left.
      + right.
        apply (kick_off_server_preserve (busy key) options e.1 (queue_server e.2)
                 (S n) acc acc1); [| |done|done].
        * intros st0. apply start_scan_busy.
        * intros st0 ev st0'. apply scan_step_busy. }
  destruct (for_each _ _ _) as [acc'|] eqn:Hfor; simpl; [|done].
  intros [= <-]. eapply Hloop; [|exact Hfor]. simpl.
  destruct (queues !! key) as [q|] eqn:Hq.
  - left. apply list_elem_of_fmap. exists (key, q). split; [done|].
    unfold umap_entries. rewrite umap_order_perm. by apply elem_of_map_to_list.
  - right. intros q' Hq'. simpl in Hq'. by rewrite Hq in Hq'.
Qed.

Lemma queued_nil (queues : gmap string ServerQueue) :
  (∀ key q, queues !! key = Some q → queue_items q = []) → queued queues = [].
Proof.
  intros Hall. apply elem_of_nil_inv. intros x Hin.
  unfold queued in Hin. apply elem_of_flatten_map in Hin as (key & q & Hq & Hin).
  rewrite (Hall key q Hq) in Hin. by apply elem_of_nil in Hin.
Qed.

(** X17: with a [scan_concurrency] of one or more no work is stranded in
    a queue: once the scans have been started, and after every later step
    of the callbacks, a server whose queue still holds an item has a
    callbacks object alive, which scans a tablet or has just reported one
    and takes the next item; when no callbacks object is left, the results
    of all replicas of the selected tablets are recorded. *)
Theorem no_work_stranded (k : Ksck) :
  snapshot_wf (cluster_ k) →
  ∃ queues,
    ChecksumData_enqueue k (length (work_items (selected k).*1)) (selected k)
    = Ret queues
    ∧ ∀ options batches evs,
        (0 < scan_concurrency options)%Z →
        ∃ st st',
          ChecksumData_kick_off options queues
            (new_reporter (length (work_items (selected k).*1))) batches
          = Ret st
          ∧ for_each (scan_step options) evs st = Ret st'
          ∧ (∀ key, busy key st')
          ∧ (in_flight st' = [] →
             recorded_keys (checksums_ (reporter st'))
             ≡ₚ work_items (selected k).*1).
Proof.
  intros Hwf.
  destruct (ChecksumData_enqueue_wf k Hwf)
    as (HW & queues & Henq & Hq & Hdir & Huuid & _).
  exists queues. split; [done|]. intros options batches evs Hc.
  destruct (kick_off_inv _ options queues
              (new_reporter (length (work_items (selected k).*1))) batches HW)
    as (st & Hst & Hinv); [done..|].
  destruct (scan_steps_inv _ options evs st HW Hinv) as (st' & Hst' & Hinv').
  exists st, st'. split; [done|]. split; [done|].
  assert (∀ key, busy key st') as Hbusy.
  { intros key.
    assert (∀ st ev st', busy key st → scan_step options st ev = Ret st' →
                         busy key st') as Hstep.
    { intros st0 ev st0'. apply scan_step_busy. }
    apply (scan_steps_preserve _ _ _ _ _ Hstep) in Hst'; [done|].
    by eapply kick_off_busy. }
  split; [done|]. intros Hidle.
  assert (queued (tablet_server_queues st') = []) as Hqueued.
  { apply queued_nil. intros key q Hkq.
    destruct (queue_items q) as [|item rest] eqn:Hitems; [done|].
    pose proof (Hbusy key q Hkq) as Hpos. rewrite Hitems in Hpos.
    specialize (Hpos ltac:(done)). unfold in_flight_on in Hpos.
    rewrite Hidle in Hpos. simpl in Hpos. lia. }
  destruct Hinv' as (Hperm & _ & _). unfold pending in Hperm.
  rewrite Hidle, Hqueued in Hperm. simpl in Hperm.
  by rewrite app_nil_r in Hperm.
Qed.

End Busy.

(** *** Nothing to scan *)

Section NotFound.
Context {ext : Externals}.

Lemma elem_of_selected k tablet table :
  (tablet, table) ∈ selected k
  ↔ table ∈ tables (cluster_ k) ∧ tablet ∈ tablets table
    ∧ MatchesAnyPattern (table_filters_ k) (table_name table) = true
    ∧ MatchesAnyPattern (tablet_id_filters_ k) (tablet_id tablet) = true.
Proof.
  unfold selected, selected_from. rewrite list_elem_of_bind. split.
  - intros (tb & Hin & Htb).
    apply list_elem_of_fmap in Hin as (t & [= -> ->] & Hin).
    apply list_elem_of_In, filter_In in Hin as [Hin Ht].
    apply list_elem_of_In, filter_In in Htb as [Htb Hm].
    rewrite <- !list_elem_of_In in *. done.
  - intros (Htb & Ht & Hm1 & Hm2). exists table. split.
    + apply list_elem_of_fmap. exists tablet. split; [done|].
      apply list_elem_of_In, filter_In. by rewrite <- list_elem_of_In.
    + apply list_elem_of_In, filter_In. by rewrite <- list_elem_of_In.
Qed.

Lemma work_items_nil l :
  work_items l = [] ↔ ∀ tablet, tablet ∈ l → replicas tablet = [].
Proof.
  induction l as [|t l IH].
  - split; [|done]. by intros _ ? ?%elem_of_nil.
  - rewrite work_items_cons. split.
    + intros [Ht Hl]%app_eq_nil tablet Hin. apply fmap_nil_inv in Ht.
      apply elem_of_cons in Hin as [->|Hin]; [done|]. by apply IH.
    + intros Hall. rewrite (Hall t) by left. simpl. apply IH.
      intros ??. apply Hall. by right.
Qed.

Lemma ChecksumData_status_code options n timed_out t status :
  ChecksumData_status options n timed_out t = Ret status →
  code status ≠ kNotFound.
Proof.
  unfold ChecksumData_status.
  destruct timed_out; repeat case_bool_decide; simpl; try done; by intros [= <-].
Qed.

Lemma ChecksumData_not_found k opts env r :
  ChecksumData k opts env = Ret r →
  code (run_status r) = kNotFound ↔ work_items (selected k).*1 = [].
Proof.
  unfold ChecksumData. rewrite ChecksumData_select_spec.
  rewrite <- length_zero_iff_nil.
  case_bool_decide as Hn; [by intros [= <-]|].
  destruct (ChecksumData_enqueue _ _ _) as [queues|]; simpl; [|done].
  destruct (ChecksumData_timestamp opts queues) as [s0|[options log]] eqn:Hts.
  { intros [= <-]. simpl. unfold ChecksumData_timestamp in Hts.
    destruct (use_snapshot opts && _); [|done].
    case_bool_decide; [|done]. by injection Hts as <-. }
  destruct (ChecksumData_kick_off _ _ _ _) as [st0|]; simpl; [|done].
  destruct (for_each _ (events_while_waiting env) _) as [st1|]; simpl; [|done].
  destruct (for_each _ (events_before_copy env) _) as [st2|]; simpl; [|done].
  destruct (ChecksumData_walk _ _) as [t|]; simpl; [|done].
  destruct (ChecksumData_status _ _ _ _) as [status|] eqn:Hst; simpl; [|done].
  intros [= <-]. simpl. by apply ChecksumData_status_code in Hst.
Qed.

(** X18: over a well-formed snapshot [ChecksumData] returns NotFound
    exactly when the tablets that pass both filters have no replica at
    all, be it that no tablet passes or that those that pass have none; it
    then starts no scan and prints nothing. *)
Theorem ChecksumData_not_found_iff (k : Ksck) (opts : ChecksumOptions)
    (env : ScanEnv) :
  snapshot_wf (cluster_ k) →
  ∃ r, ChecksumData k opts env = Ret r
    ∧ (code (run_status r) = kNotFound
       ↔ ∀ table tablet,
           table ∈ tables (cluster_ k) → tablet ∈ tablets table →
           MatchesAnyPattern (table_filters_ k) (table_name table) = true →
           MatchesAnyPattern (tablet_id_filters_ k) (tablet_id tablet) = true →
           replicas tablet = [])
    ∧ (code (run_status r) = kNotFound →
       run_status r = NotFound (no_replicas_message k) ∧ run_scans r = []
       ∧ run_output r = []).
Proof.
  intros Hwf. destruct (ChecksumData_spec k opts env Hwf) as (r & Hr & _).
  exists r. split; [done|]. split.
  - rewrite (ChecksumData_not_found _ _ _ _ Hr), work_items_nil. split.
    + intros Hall table tablet Htb Ht Hm1 Hm2. apply Hall.
      apply list_elem_of_fmap. exists (tablet, table). split; [done|].
      by apply elem_of_selected.
    + intros Hall tablet Hin.
      apply list_elem_of_fmap in Hin as ([t tb] & -> & Hin).
      apply elem_of_selected in Hin as (? & ? & ? & ?). simpl. eauto.
  - intros Hnf. apply (ChecksumData_not_found _ _ _ _ Hr) in Hnf.
    unfold ChecksumData in Hr. rewrite ChecksumData_select_spec, Hnf in Hr.
    simpl in Hr. by injection Hr as <-.
Qed.

End NotFound.

(** *** The scans that the start leaves in flight *)

Section KickOffExact.
Context {ext : Externals}.

Lemma start_scan_exact options key ts st key' :
  in_flight_on key' (start_scan options key ts st)
  = (if bool_decide (key = key')
     then Nat.min 1 (queue_length key (tablet_server_queues st)) else 0)
    + in_flight_on key' st
  ∧ queue_length key' (tablet_server_queues (start_scan options key ts st))
    = queue_length key' (tablet_server_queues st)
      - (if bool_decide (key = key') then 1 else 0).
Proof.
  unfold start_scan, BlockingGet, queue_length, in_flight_on.
  destruct (tablet_server_queues st !! key) as [q|] eqn:Hq.
  - destruct (queue_items q) as [|item rest] eqn:Hitems; simpl.
    + case_bool_decide as Hk; [subst key'; rewrite Hq, Hitems|]; simpl; lia.
    + rewrite List.filter_app, length_app. simpl.
      case_bool_decide as Hk.
      * subst key'. rewrite lookup_insert_eq, Hq, Hitems. simpl. lia.
      * rewrite lookup_insert_ne by done. simpl. lia.
  - case_bool_decide as Hk; [subst key'; rewrite Hq|]; simpl; lia.
Qed.

Lemma kick_off_server_exact options key ts n st key' :
  ∃ st',
    kick_off_server options key ts n (st, []) = Ret (st', [])
    ∧ in_flight_on key' st'
      = (if bool_decide (key = key')
         then Nat.min n (queue_length key (tablet_server_queues st)) else 0)
        + in_flight_on key' st
    ∧ queue_length key' (tablet_server_queues st')
      = queue_length key' (tablet_server_queues st)
        - (if bool_decide (key = key') then n else 0).
Proof.
  revert st. induction n as [|n IH]; intros st.
  - exists st. split; [done|]. case_bool_decide; simpl; lia.
  - cbn [kick_off_server]. simpl.
    destruct (IH (start_scan options key ts st)) as (st' & -> & Hin & Hlen).
    exists st'. split; [done|].
    destruct (start_scan_exact options key ts st key') as [Hin1 Hlen1].
    destruct (start_scan_exact options key ts st key) as [_ Hlen2].
    rewrite Hin, Hlen, Hin1, Hlen1, Hlen2.
    rewrite (bool_decide_eq_true_2 (key = key)) by done.
    destruct (decide (key = key')) as [<-|Hne].
    + rewrite !(bool_decide_eq_true_2 (key = key)) by done.
      destruct (queue_length key (tablet_server_queues st)); lia.
    + rewrite !(bool_decide_eq_false_2 (key = key')) by done. lia.
Qed.

Lemma kick_off_entries_exact options (es : list (string * ServerQueue)) st key :
  NoDup es.*1 →
  ∃ st',
    for_each
      (λ (acc : ScanState * list (list scan_event)) (entry : string * ServerQueue),
         kick_off_server options entry.1 (queue_server entry.2)
           (Z.to_nat (scan_concurrency options)) acc)
      es (st, []) = Ret (st', [])
    ∧ in_flight_on key st'
      = (if bool_decide (key ∈ es.*1)
         then Nat.min (Z.to_nat (scan_concurrency options))
                (queue_length key (tablet_server_queues st))
         else 0)
        + in_flight_on key st.
Proof.
  revert st. induction es as [|e es IH]; intros st Hnodup.
  - exists st. split; [done|]. rewrite bool_decide_eq_false_2; [done|].
    by intros ?%elem_of_nil.
  - rewrite fmap_cons in Hnodup. apply NoDup_cons in Hnodup as [Hnotin Hnodup].
    cbn [for_each].
    destruct (kick_off_server_exact options e.1 (queue_server e.2)
                (Z.to_nat (scan_concurrency options)) st key)
      as (st1 & -> & Hin1 & Hlen1).
    cbn [mbind outcome_bind].
    destruct (IH st1 Hnodup) as (st' & -> & Hin).
    exists st'. split; [done|]. rewrite Hin, Hin1, Hlen1, fmap_cons.
    destruct (decide (e.1 = key)) as [Heq|Hne].
    + rewrite (bool_decide_eq_true_2 (e.1 = key)) by done.
      rewrite (bool_decide_eq_false_2 (key ∈ es.*1)) by (by rewrite <- Heq).
      rewrite bool_decide_eq_true_2 by (rewrite <- Heq; left).
      rewrite Heq. lia.
    + rewrite (bool_decide_eq_false_2 (e.1 = key)) by done.
      destruct (decide (key ∈ es.*1)) as [Hin'|Hnin].
      * rewrite (bool_decide_eq_true_2 (key ∈ es.*1)) by done.
        rewrite bool_decide_eq_true_2 by (by right). lia.
      * rewrite (bool_decide_eq_false_2 (key ∈ es.*1)) by done.
        rewrite bool_decide_eq_false_2; [lia|].
        intros [?|?]%elem_of_cons; done.
Qed.

(** X19: when no callback runs while the scans are being started,
    the loop that starts them leaves on each tablet server exactly as many
    scans in flight as [scan_concurrency] allows and its queue holds: the
    smaller of the two numbers. *)
Theorem kick_off_uses_concurrency (options : ChecksumOptions)
    (queues : gmap string ServerQueue) (rep : ChecksumResultReporter)
    (key : string) :
  ∃ st,
    ChecksumData_kick_off options queues rep [] = Ret st
    ∧ in_flight_on key st
      = Nat.min (Z.to_nat (scan_concurrency options)) (queue_length key queues).
Proof.
  unfold ChecksumData_kick_off.
  assert (NoDup (umap_entries queues).*1) as Hnodup.
  { unfold umap_entries. rewrite umap_order_perm. apply NoDup_fst_map_to_list. }
  destruct (kick_off_entries_exact options (umap_entries queues)
              {| reporter := rep; tablet_server_queues := queues;
                 in_flight := []; scans := [] |} key Hnodup)
    as (st & -> & Hin).
  exists st. split; [done|]. rewrite Hin. simpl.
  unfold in_flight_on at 1. simpl. rewrite Nat.add_0_r.
  case_bool_decide as Hkey; [done|].
  unfold queue_length. destruct (queues !! key) as [q|] eqn:Hq; [|lia].
  destruct Hkey. apply list_elem_of_fmap. exists (key, q). split; [done|].
  unfold umap_entries. rewrite umap_order_perm. by apply elem_of_map_to_list.
Qed.

End KickOffExact.

(** ** The scenarios, run *)

Lemma scenario_wf st now : snapshot_wf (scenario_cluster st now).
Proof. apply (bool_decide_unpack _). by vm_compute. Qed.

Lemma scenario_fetch_contract down : FetchInfo_contract (scenario_fetch down).
Proof. intros ts. simpl. by case_bool_decide. Qed.

(** S1: the clean cluster passes the metadata check. *)
Example scenario_clean_metadata :
  CheckTablesConsistency (scenario_ksck kFetched 12345 [] [])
  = Ret (Status_OK,
         [Info "Table t1 is HEALTHY (1 tablets checked)";
          Info "The metadata for 1 table(s) is HEALTHY"]).
Proof. by vm_compute. Qed.

(** S3: a server that could not be fetched makes the tablet bad, although
    a majority of its replicas is alive and running. *)
Example scenario_unreachable_server :
  CheckTablesConsistency (scenario_ksck kFetchFailed 12345 [] [])
  = Ret (Corruption "1 table(s) are bad",
         [Warn "Detected problems with Tablet abc of table 't1'";
          Cerr dashes60;
          Warn "Should have a replica on TS u3 (host-u3), but TS is unavailable";
          Info "OK state on TS u1 (host-u1): RUNNING";
          Info "OK state on TS u2 (host-u2): RUNNING";
          Cerr "";
          Warn "Table t1 has 1 bad tablets";
          Warn "1 out of 1 table(s) are not in a healthy state"]).
Proof. by vm_compute. Qed.

(** S5: one of three scans is missing when the deadline passes. *)
Example scenario_timeout :
  run_status
  <$> ChecksumData (scenario_ksck kFetched 12345 [] []) scenario_options
        (scenario_env [(Status_OK, 42%N); (Status_OK, 42%N)] true)
  = Ret (TimedOut
           ("Checksum scan did not complete within the timeout of "
            +:+ "3600000000000ns: "
            +:+ "Received results for 2 out of 3 expected replicas")).
Proof. by vm_compute. Qed.

(** The deadline falls between [ReportResult] and [BlockingGet]: one scan
    was started and its result is recorded, the second tablet is still in
    the queue, and the run returns TimedOut. *)
Example scenario_deadline_between_steps :
  (λ r, (run_status r, length (run_scans r),
         (λ s, length (recorded (checksums s))) <$> run_summary r))
  <$> ChecksumData scenario_two_tablets
        {| timeout := 1000%Z; scan_concurrency := 1%Z;
           use_snapshot := false; snapshot_timestamp := 0%N |}
        scenario_deadline_in_Finished
  = Ret (TimedOut
           ("Checksum scan did not complete within the timeout of "
            +:+ "1000ns: "
            +:+ "Received results for 1 out of 2 expected replicas"),
         1, Some 1).
Proof. by vm_compute. Qed.

(** Majority math (spec, section 8, property 4). *)
Example majority_sizes :
  MajoritySize <$> [1; 2; 3; 4; 5; 7]%Z = [1; 2; 2; 3; 3; 4]%Z.
Proof. reflexivity. Qed.

(** S6: the snapshot timestamp is the one of the first healthy server, and
    every scan is started with it. *)
Example scenario_snapshot_timestamp :
  (λ r, (head (run_output r),
         snapshot_timestamp ∘ scan_options <$> run_scans r))
  <$> ChecksumData (scenario_ksck kFetched 12345 [] []) scenario_options
        (scenario_env [(Status_OK, 42%N); (Status_OK, 42%N); (Status_OK, 42%N)]
           false)
  = Ret (Some (Info "Using snapshot timestamp: 12345"),
         [12345%N; 12345%N; 12345%N]).
Proof. by vm_compute. Qed.

(** C5: with [use_snapshot] and the snapshot timestamp 0, [ChecksumData]
    takes the timestamp of the first healthy server of the queue map.
    Here every server of the map is healthy and reports the timestamp 0:
    the run fails with ServiceUnavailable, although the map holds a healthy
    server. *)
Theorem snapshot_timestamp_zero_is_unavailable :
  map_Forall (λ _ ts, is_healthy ts = true)
             (tablet_servers (scenario_cluster kFetched 0))
  ∧ ChecksumData (scenario_ksck kFetched 0 [] []) scenario_options
      (scenario_env [] false)
    = Ret {| run_status :=
               ServiceUnavailable
                 "No tablet servers were available to fetch the current timestamp";
             run_scans := []; run_output := []; run_summary := None |}.
Proof.
  split.
  - apply (bool_decide_unpack _). by vm_compute.
  - by vm_compute.
Qed.

(** S4 with the odd checksum in the middle: the result map yields 100
    first, and one mismatch is counted. *)
Example scenario_mismatch_reference_first :
  ∃ r s,
    ChecksumData (scenario_ksck kFetched 12345 [] []) scenario_options
      (scenario_env
         [(Status_OK, 100%N); (Status_OK, 101%N); (Status_OK, 100%N)] false)
    = Ret r
    ∧ run_summary r = Some s
    ∧ tablet_results (checksums s) scenario_tablet
      = [("u3", (Status_OK, 100%N)); ("u1", (Status_OK, 101%N));
         ("u2", (Status_OK, 100%N))]
    ∧ num_mismatches (counters s) = 1
    ∧ run_status r = Corruption "1 checksum mismatches were detected".
Proof.
  vm_compute. eexists _, _.
  split; [reflexivity|]. split; [reflexivity|]. repeat split.
Qed.

(** C2, the claim as stated fails: the three replicas of [abc] report the
    checksums 101, 100 and 100, all successfully, the result map yields
    101 first, and the run counts two mismatches, not one. *)
Lemma mismatch_count_two_when_odd_one_first :
  ∃ r s,
    ChecksumData (scenario_ksck kFetched 12345 [] []) scenario_options
      (scenario_env
         [(Status_OK, 101%N); (Status_OK, 100%N); (Status_OK, 100%N)] false)
    = Ret r
    ∧ run_summary r = Some s
    ∧ tablet_results (checksums s) scenario_tablet
      = [("u3", (Status_OK, 101%N)); ("u1", (Status_OK, 100%N));
         ("u2", (Status_OK, 100%N))]
    ∧ num_mismatches (counters s) = 2
    ∧ num_mismatches (counters s) ≠ 1
    ∧ run_status r = Corruption "2 checksum mismatches were detected".
Proof.
  vm_compute. eexists _, _.
  split; [reflexivity|]. split; [reflexivity|]. repeat split. discriminate.
Qed.

(** The server [u1] of the scenarios is fetched: it reports the tablet
    [abc] as RUNNING and a tablet it does not host as UNKNOWN. *)
Lemma ReplicaState_total_when_fetched_witness :
  state_ (scenario_server "u1" kFetched 12345) = kFetched
  ∧ ReplicaState (scenario_server "u1" kFetched 12345) "abc" = Ret RUNNING
  ∧ ReplicaState (scenario_server "u1" kFetched 12345) "xyz" = Ret UNKNOWN.
Proof.
  split; [reflexivity|]. split.
  - exact (proj1 (ReplicaState_total_when_fetched
                    (scenario_server "u1" kFetched 12345) "abc" eq_refl)).
  - exact (proj2 (ReplicaState_total_when_fetched
                    (scenario_server "u1" kFetched 12345) "xyz" eq_refl)
             eq_refl).
Defined.

(** Filters that match neither the table [t1] nor the tablet [abc]. *)
Lemma nothing_to_verify_is_healthy_witness :
  (∀ table,
     table ∈ tables (cluster_ (scenario_ksck kFetched 12345 ["other*"] ["xyz"])) →
     MatchesAnyPattern ["other*"] (table_name table) = false)
  ∧ (∀ tablet, tablet ∈ tablets scenario_table →
       MatchesAnyPattern ["xyz"] (tablet_id tablet) = false)
  ∧ CheckTablesConsistency (scenario_ksck kFetched 12345 ["other*"] ["xyz"])
    = Ret (Status_OK, [Info "The cluster doesn't have any matching tables"])
  ∧ VerifyTable (scenario_ksck kFetched 12345 ["other*"] ["xyz"]) scenario_table
    = Ret (true, [Info "Table t1 has 0 matching tablets"]).
Proof.
  assert (∀ table,
            table ∈ tables (cluster_ (scenario_ksck kFetched 12345 ["other*"] ["xyz"])) →
            MatchesAnyPattern ["other*"] (table_name table) = false) as Htables.
  { intros table Hin. apply list_elem_of_singleton in Hin as ->. reflexivity. }
  assert (∀ tablet, tablet ∈ tablets scenario_table →
            MatchesAnyPattern ["xyz"] (tablet_id tablet) = false) as Htablets.
  { intros tablet Hin. apply list_elem_of_singleton in Hin as ->. reflexivity. }
  split; [exact Htables|]. split; [exact Htablets|]. split.
  - exact (proj1 (nothing_to_verify_is_healthy
                    (scenario_ksck kFetched 12345 ["other*"] ["xyz"])) Htables).
  - exact (proj2 (nothing_to_verify_is_healthy
                    (scenario_ksck kFetched 12345 ["other*"] ["xyz"]))
             scenario_table Htablets).
Defined.

(** A table filter that does not match [t1]: no scan, NotFound. *)
Lemma ChecksumData_nothing_selected_witness :
  (∀ table tablet,
     table ∈ tables (cluster_ (scenario_ksck kFetched 12345 ["other*"] [])) →
     tablet ∈ tablets table →
     MatchesAnyPattern ["other*"] (table_name table)
     && MatchesAnyPattern [] (tablet_id tablet) = false)
  ∧ ChecksumData (scenario_ksck kFetched 12345 ["other*"] []) scenario_options
      (scenario_env [] false)
    = Ret {| run_status :=
               NotFound "No tablet replicas found. Filter: table_filters=other*";
             run_scans := []; run_output := []; run_summary := None |}.
Proof.
  assert (∀ table tablet,
            table ∈ tables (cluster_ (scenario_ksck kFetched 12345 ["other*"] [])) →
            tablet ∈ tablets table →
            MatchesAnyPattern ["other*"] (table_name table)
            && MatchesAnyPattern [] (tablet_id tablet) = false) as Hnone.
  { intros table tablet Hin _. apply list_elem_of_singleton in Hin as ->.
    reflexivity. }
  split; [exact Hnone|].
  exact (proj1 (ChecksumData_nothing_selected
                  (scenario_ksck kFetched 12345 ["other*"] []) scenario_options
                  (scenario_env [] false) Hnone)).
Defined.

(** S3: [u3] cannot be reached; the fetch returns NetworkError and [u3]
    stays in the directory, unhealthy. *)
Lemma FetchInfoFromTabletServers_status_witness :
  tablet_servers (scenario_cluster kUninitialized 0) ≠ ∅
  ∧ ok (pool_build (scenario_fetch ["u3"])) = true
  ∧ FetchInfo_contract (scenario_fetch ["u3"])
  ∧ ∃ cluster' out,
      FetchInfoFromTabletServers (scenario_fetch ["u3"])
        (scenario_cluster kUninitialized 0)
      = (NetworkError "Not all Tablet Servers are reachable", cluster', out)
      ∧ ∃ ts', tablet_servers cluster' !! "u3" = Some ts'
               ∧ is_healthy ts' = false.
Proof.
  assert (tablet_servers (scenario_cluster kUninitialized 0) ≠ ∅) as Hne.
  { intros Hempty.
    assert (tablet_servers (scenario_cluster kUninitialized 0) !! "u1" = None)
      as Hu1 by (by rewrite Hempty).
    discriminate Hu1. }
  split; [exact Hne|]. split; [reflexivity|].
  split; [apply scenario_fetch_contract|].
  destruct (proj2 (FetchInfoFromTabletServers_status (scenario_fetch ["u3"])
                     (scenario_cluster kUninitialized 0)) Hne eq_refl)
    as (status & cluster' & out & Hrun & _ & Hfail & _ & _ & Hwarn).
  exists cluster', out. split.
  - rewrite Hrun. f_equal. f_equal.
    exact (Hfail "u3" (scenario_server "u3" kUninitialized 0) eq_refl eq_refl).
  - destruct (Hwarn (scenario_fetch_contract ["u3"]) "u3"
                (scenario_server "u3" kUninitialized 0) eq_refl eq_refl)
      as (ts' & Hts' & Hunhealthy & _).
    by exists ts'.
Defined.

(** S5: the run reaches the result loop with two results out of three
    and [timed_out] set. *)
Example scenario_timeout_summary :
  (λ r, (run_status r,
         (λ s, (num_tablet_replicas s, num_results (counters s), timed_out s))
         <$> run_summary r))
  <$> ChecksumData (scenario_ksck kFetched 12345 [] []) scenario_options
        (scenario_env [(Status_OK, 42%N); (Status_OK, 42%N)] true)
  = Ret (TimedOut
           ("Checksum scan did not complete within the timeout of "
            +:+ "3600000000000ns: "
            +:+ "Received results for 2 out of 3 expected replicas"),
         Some (3, 2, true)).
Proof. by vm_compute. Qed.

(** S5: the run reaches the result loop, and with two results out of
    three when [WaitFor] returns false the precedence gives TimedOut. *)
Lemma ChecksumData_status_precedence_witness :
  snapshot_wf (cluster_ (scenario_ksck kFetched 12345 [] []))
  ∧ ∃ r s, ChecksumData (scenario_ksck kFetched 12345 [] []) scenario_options
             (scenario_env [(Status_OK, 42%N); (Status_OK, 42%N)] true)
           = Ret r
           ∧ run_summary r = Some s
           ∧ num_tablet_replicas s = 3
           ∧ num_results (counters s) = 2
           ∧ timed_out s = true
           ∧ run_status r = terminal_status scenario_options s
           ∧ run_status r
             = TimedOut
                 ("Checksum scan did not complete within the timeout of "
                  +:+ "3600000000000ns: "
                  +:+ "Received results for 2 out of 3 expected replicas").
Proof.
  split; [apply scenario_wf|].
  destruct (ChecksumData_status_precedence
              (scenario_ksck kFetched 12345 [] []) scenario_options
              (scenario_env [(Status_OK, 42%N); (Status_OK, 42%N)] true)
              (scenario_wf kFetched 12345)) as (r & Hr & Hs & Htimed & _).
  pose proof scenario_timeout_summary as Hrun.
  rewrite Hr in Hrun. cbn [fmap outcome_fmap] in Hrun.
  injection Hrun as Hstatus Hsum.
  destruct (run_summary r) as [s|] eqn:Hsome; [|discriminate Hsum].
  injection Hsum as Hn Hres Hout.
  exists r, s. split; [exact Hr|]. split; [exact Hsome|].
  split; [exact Hn|]. split; [exact Hres|].
  split; [exact (proj1 (Htimed s eq_refl) eq_refl)|].
  split; [exact (proj2 (proj2 (proj2 (Hs s eq_refl))))|exact Hstatus].
Defined.

(** S5 again: fewer results than replicas, and [WaitFor] timed out. *)
Lemma ChecksumData_results_bounded_witness :
  snapshot_wf (cluster_ (scenario_ksck kFetched 12345 [] []))
  ∧ ∃ r, ChecksumData (scenario_ksck kFetched 12345 [] []) scenario_options
           (scenario_env [(Status_OK, 42%N); (Status_OK, 42%N)] true)
         = Ret r
         ∧ ∀ s, run_summary r = Some s →
                num_results (counters s) ≤ num_tablet_replicas s
                ∧ (num_results (counters s) < num_tablet_replicas s →
                   timed_out s = true).
Proof.
  split; [apply scenario_wf|].
  destruct (ChecksumData_results_bounded
              (scenario_ksck kFetched 12345 [] []) scenario_options
              (scenario_env [(Status_OK, 42%N); (Status_OK, 42%N)] true)
              (scenario_wf kFetched 12345)) as (r & Hr & Hs).
  exists r. split; [exact Hr|]. intros s Hsum.
  exact (proj2 (proj2 (proj2 (Hs s Hsum)))).
Defined.

(** S4 on the tablet [abc], with the checksums 100 and 101. *)
Lemma ChecksumData_mismatch_count_witness :
  snapshot_wf (cluster_ (scenario_ksck kFetched 12345 [] []))
  ∧ scenario_tablet ∈ all_tablets (cluster_ (scenario_ksck kFetched 12345 [] []))
  ∧ 100%N ≠ 101%N
  ∧ ∃ r, ChecksumData (scenario_ksck kFetched 12345 [] []) scenario_options
           (scenario_env
              [(Status_OK, 100%N); (Status_OK, 101%N); (Status_OK, 100%N)] false)
         = Ret r
         ∧ ∀ s, run_summary r = Some s →
                num_mismatches (counters s)
                = mismatches_of (checksums s)
                    (all_tablets (cluster_ (scenario_ksck kFetched 12345 [] []))).
Proof.
  assert (scenario_tablet
          ∈ all_tablets (cluster_ (scenario_ksck kFetched 12345 [] []))) as Hin.
  { by left. }
  assert (100%N ≠ 101%N) as Hne by discriminate.
  split; [apply scenario_wf|]. split; [exact Hin|]. split; [exact Hne|].
  destruct (ChecksumData_mismatch_count
              (scenario_ksck kFetched 12345 [] []) scenario_options
              (scenario_env
                 [(Status_OK, 100%N); (Status_OK, 101%N); (Status_OK, 100%N)]
                 false)
              scenario_tablet 100%N 101%N (scenario_wf kFetched 12345) Hin Hne)
    as (r & Hr & Hs).
  exists r. split; [exact Hr|]. intros s Hsum.
  exact (proj1 (Hs s Hsum)).
Defined.

(** Narrowing the empty filters of S1 to the table [t1] and the tablet
    [abc] keeps the verdict. *)
Lemma healthy_verdict_survives_narrowing_witness :
  narrower ["t1"] [] ∧ narrower ["abc"] []
  ∧ (∃ out, CheckTablesConsistency (scenario_ksck kFetched 12345 [] [])
            = Ret (Status_OK, out))
  ∧ ∃ out', CheckTablesConsistency (scenario_ksck kFetched 12345 ["t1"] ["abc"])
            = Ret (Status_OK, out').
Proof.
  assert (∀ patterns, narrower patterns []) as Hn.
  { intros patterns str _. reflexivity. }
  assert (∃ out, CheckTablesConsistency (scenario_ksck kFetched 12345 [] [])
                 = Ret (Status_OK, out)) as Hok.
  { eexists. apply scenario_clean_metadata. }
  split; [apply Hn|]. split; [apply Hn|]. split; [exact Hok|].
  exact (healthy_verdict_survives_narrowing
           (scenario_ksck kFetched 12345 [] [])
           (scenario_ksck kFetched 12345 ["t1"] ["abc"])
           eq_refl eq_refl (Hn ["t1"]) (Hn ["abc"]) Hok).
Defined.

(** S3: the lines that are printed when [u3] cannot be reached. *)
Example scenario_unreachable_lines :
  (FetchInfoFromTabletServers (scenario_fetch ["u3"])
     (scenario_cluster kUninitialized 0)).2
  = [Warn ("Unable to connect to Tablet Server u3 (host-u3): "
           +:+ "Network error: connection refused");
     Warn "Fetched info from 2 Tablet Servers, 1 weren't reachable"].
Proof. by vm_compute. Qed.

(** S3: the pool is built and [u3] cannot be reached: the warning for
    [u3] and the summary line are printed. *)
Lemma FetchInfoFromTabletServers_counts_witness :
  tablet_servers (scenario_cluster kUninitialized 0) ≠ ∅
  ∧ ∃ status cluster' out,
      FetchInfoFromTabletServers (scenario_fetch ["u3"])
        (scenario_cluster kUninitialized 0)
      = (status, cluster', out)
      ∧ length out = S (unreachable (scenario_fetch ["u3"])
                          (scenario_cluster kUninitialized 0))
      ∧ (∃ warned,
           out
           = warned
             ++ [if bool_decide (unreachable (scenario_fetch ["u3"])
                                   (scenario_cluster kUninitialized 0) = 0)
                 then Info ("Fetched info from all "
                            +:+ pretty (size (tablet_servers
                                                (scenario_cluster kUninitialized 0)))
                            +:+ " Tablet Servers")
                 else Warn ("Fetched info from "
                            +:+ pretty (size (tablet_servers
                                                (scenario_cluster kUninitialized 0))
                                        - unreachable (scenario_fetch ["u3"])
                                            (scenario_cluster kUninitialized 0))
                            +:+ " Tablet Servers, "
                            +:+ pretty (unreachable (scenario_fetch ["u3"])
                                          (scenario_cluster kUninitialized 0))
                            +:+ " weren't reachable")]
           ∧ warned
             ≡ₚ (λ e : string * KsckTabletServer,
                   Warn ("Unable to connect to Tablet Server "
                         +:+ KsckTabletServer_ToString
                               (FetchInfo (scenario_fetch ["u3"]) e.2).2
                         +:+ ": "
                         +:+ Status_ToString
                               (FetchInfo (scenario_fetch ["u3"]) e.2).1))
                <$> List.filter
                      (λ e, negb (ok (FetchInfo (scenario_fetch ["u3"]) e.2).1))
                      (map_to_list
                         (tablet_servers (scenario_cluster kUninitialized 0))))
      ∧ out
        = [Warn ("Unable to connect to Tablet Server u3 (host-u3): "
                 +:+ "Network error: connection refused");
           Warn "Fetched info from 2 Tablet Servers, 1 weren't reachable"].
Proof.
  assert (tablet_servers (scenario_cluster kUninitialized 0) ≠ ∅) as Hne.
  { intros Hempty.
    assert (tablet_servers (scenario_cluster kUninitialized 0) !! "u1" = None)
      as Hu1 by (by rewrite Hempty).
    discriminate Hu1. }
  split; [exact Hne|].
  destruct (FetchInfoFromTabletServers_counts (scenario_fetch ["u3"])
              (scenario_cluster kUninitialized 0) Hne)
    as (status & cluster' & out & Hrun & _ & Hcount).
  pose proof scenario_unreachable_lines as Hlines.
  rewrite Hrun in Hlines. cbn [snd] in Hlines.
  exists status, cluster', out. split; [exact Hrun|].
  split; [exact (proj1 (proj2 (Hcount eq_refl)))|].
  split; [exact (proj2 (proj2 (proj2 (Hcount eq_refl))))|exact Hlines].
Defined.

(** The queues of the scenarios hold each replica of [abc] once. *)
Lemma ChecksumData_enqueue_routing_witness :
  snapshot_wf (cluster_ (scenario_ksck kFetched 12345 [] []))
  ∧ ∃ queues,
      ChecksumData_enqueue (scenario_ksck kFetched 12345 [] [])
        (length (work_items (selected (scenario_ksck kFetched 12345 [] [])).*1))
        (selected (scenario_ksck kFetched 12345 [] []))
      = Ret queues
      ∧ NoDup (queued queues).
Proof.
  split; [apply scenario_wf|].
  destruct (ChecksumData_enqueue_routing (scenario_ksck kFetched 12345 [] [])
              (scenario_wf kFetched 12345)) as (queues & Henq & _ & Hnd & _).
  exists queues. split; [exact Henq|exact Hnd].
Defined.

(** The scans of the scenarios are started, and the first one finishes. *)
Lemma scan_concurrency_cap_witness :
  snapshot_wf (cluster_ (scenario_ksck kFetched 12345 [] []))
  ∧ ∃ queues st st',
      ChecksumData_kick_off scenario_options queues (new_reporter 3) [] = Ret st
      ∧ for_each (scan_step scenario_options)
          [ev_Finished 0 Status_OK 42%N] st = Ret st'
      ∧ in_flight_on "u1" st' ≤ 4.
Proof.
  split; [apply scenario_wf|].
  destruct (scan_concurrency_cap (scenario_ksck kFetched 12345 [] [])
              (scenario_wf kFetched 12345)) as (queues & _ & Hcap).
  destruct (Hcap scenario_options [] [ev_Finished 0 Status_OK 42%N])
    as (st & st' & Hst & Hst' & Hle).
  exists queues, st, st'. split; [exact Hst|]. split; [exact Hst'|].
  exact (Hle "u1").
Defined.

(** S5: the scans that were started are those of the replicas of [abc]. *)
Lemma ChecksumData_scans_once_witness :
  snapshot_wf (cluster_ (scenario_ksck kFetched 12345 [] []))
  ∧ ∃ r, ChecksumData (scenario_ksck kFetched 12345 [] []) scenario_options
           (scenario_env [(Status_OK, 42%N); (Status_OK, 42%N)] true)
         = Ret r
         ∧ scan_item <$> run_scans r
           ⊆+ work_items (selected (scenario_ksck kFetched 12345 [] [])).*1.
Proof.
  split; [apply scenario_wf|].
  destruct (ChecksumData_scans_once
              (scenario_ksck kFetched 12345 [] []) scenario_options
              (scenario_env [(Status_OK, 42%N); (Status_OK, 42%N)] true)
              (scenario_wf kFetched 12345)) as (r & Hr & Hsub & _).
  exists r. split; [exact Hr|exact Hsub].
Defined.

(** S6: no scan of a snapshot run is started with the timestamp 0. *)
Lemma ChecksumData_scan_arguments_witness :
  snapshot_wf (cluster_ (scenario_ksck kFetched 12345 [] []))
  ∧ ∃ r, ChecksumData (scenario_ksck kFetched 12345 [] []) scenario_options
           (scenario_env [(Status_OK, 42%N); (Status_OK, 42%N)] true)
         = Ret r
         ∧ ∀ call, call ∈ run_scans r →
             snapshot_timestamp (scan_options call) ≠ kCurrentTimestamp.
Proof.
  split; [apply scenario_wf|].
  destruct (ChecksumData_scan_arguments
              (scenario_ksck kFetched 12345 [] []) scenario_options
              (scenario_env [(Status_OK, 42%N); (Status_OK, 42%N)] true)
              (scenario_wf kFetched 12345)) as (r & Hr & Hcalls).
  exists r. split; [exact Hr|]. intros call Hcall.
  exact (proj1 (proj2 (proj2 (proj2 (proj2 (Hcalls call Hcall))))) eq_refl).
Defined.

(** S5 with every scan finished in both steps: no callbacks object is
    left. *)
Example scenario_all_finished :
  (queues ← ChecksumData_enqueue (scenario_ksck kFetched 12345 [] [])
              (length (work_items
                         (selected (scenario_ksck kFetched 12345 [] [])).*1))
              (selected (scenario_ksck kFetched 12345 [] []));
   st ← ChecksumData_kick_off scenario_options queues
          (new_reporter
             (length (work_items
                        (selected (scenario_ksck kFetched 12345 [] [])).*1)))
          [];
   st' ← for_each (scan_step scenario_options)
           [ev_Finished 0 Status_OK 42%N; ev_Finished_next 0;
            ev_Finished 0 Status_OK 42%N; ev_Finished_next 0;
            ev_Finished 0 Status_OK 42%N; ev_Finished_next 0] st;
   Ret (in_flight st'))
  = Ret [].
Proof. by vm_compute. Qed.

(** S5 with the default concurrency of four scans per server, all three
    scans finished: the three results are recorded. *)
Lemma no_work_stranded_witness :
  snapshot_wf (cluster_ (scenario_ksck kFetched 12345 [] []))
  ∧ (0 < scan_concurrency scenario_options)%Z
  ∧ ∃ queues st st',
      ChecksumData_enqueue (scenario_ksck kFetched 12345 [] [])
        (length (work_items
                   (selected (scenario_ksck kFetched 12345 [] [])).*1))
        (selected (scenario_ksck kFetched 12345 [] []))
      = Ret queues
      ∧ ChecksumData_kick_off scenario_options queues
          (new_reporter
             (length (work_items
                        (selected (scenario_ksck kFetched 12345 [] [])).*1)))
          []
        = Ret st
      ∧ for_each (scan_step scenario_options)
          [ev_Finished 0 Status_OK 42%N; ev_Finished_next 0;
           ev_Finished 0 Status_OK 42%N; ev_Finished_next 0;
           ev_Finished 0 Status_OK 42%N; ev_Finished_next 0] st
        = Ret st'
      ∧ (∀ key, busy key st')
      ∧ in_flight st' = []
      ∧ recorded_keys (checksums_ (reporter st'))
        ≡ₚ work_items (selected (scenario_ksck kFetched 12345 [] [])).*1.
Proof.
  split; [apply scenario_wf|]. split; [reflexivity|].
  destruct (no_work_stranded (scenario_ksck kFetched 12345 [] [])
              (scenario_wf kFetched 12345)) as (queues & Henq & Hsteps).
  destruct (Hsteps scenario_options []
              [ev_Finished 0 Status_OK 42%N; ev_Finished_next 0;
               ev_Finished 0 Status_OK 42%N; ev_Finished_next 0;
               ev_Finished 0 Status_OK 42%N; ev_Finished_next 0] eq_refl)
    as (st & st' & Hst & Hst' & Hbusy & Hidle).
  pose proof scenario_all_finished as Hrun.
  rewrite Henq in Hrun. cbn [mbind outcome_bind] in Hrun.
  rewrite Hst in Hrun. cbn [mbind outcome_bind] in Hrun.
  rewrite Hst' in Hrun. cbn [mbind outcome_bind] in Hrun.
  injection Hrun as Hnil.
  exists queues, st, st'. repeat split; [exact Henq|exact Hst|exact Hst'|exact Hbusy|exact Hnil|].
  exact (Hidle Hnil).
Defined.

(** The cluster of the scenarios, scanned with no scan allowed. *)
Lemma no_concurrency_no_scan_witness :
  snapshot_wf (cluster_ (scenario_ksck kFetched 12345 [] []))
  ∧ (scan_concurrency {| timeout := 1000%Z; scan_concurrency := 0%Z;
                         use_snapshot := false; snapshot_timestamp := 0%N |}
     ≤ 0)%Z
  ∧ ∃ r, ChecksumData (scenario_ksck kFetched 12345 [] [])
           {| timeout := 1000%Z; scan_concurrency := 0%Z;
              use_snapshot := false; snapshot_timestamp := 0%N |}
           (scenario_env [(Status_OK, 42%N)] true)
         = Ret r
         ∧ run_scans r = [].
Proof.
  split; [apply scenario_wf|]. split; [discriminate|].
  destruct (no_concurrency_no_scan
              (scenario_ksck kFetched 12345 [] [])
              {| timeout := 1000%Z; scan_concurrency := 0%Z;
                 use_snapshot := false; snapshot_timestamp := 0%N |}
              (scenario_env [(Status_OK, 42%N)] true)
              (scenario_wf kFetched 12345) ltac:(discriminate))
    as (r & Hr & Hscans & _).
  exists r. split; [exact Hr|exact Hscans].
Defined.

(** S1: all three scans report before the deadline. *)
Lemma ChecksumData_complete_witness :
  snapshot_wf (cluster_ (scenario_ksck kFetched 12345 [] []))
  ∧ ∃ r, ChecksumData (scenario_ksck kFetched 12345 [] []) scenario_options
           (scenario_env [(Status_OK, 42%N); (Status_OK, 42%N); (Status_OK, 42%N)]
              false)
         = Ret r
         ∧ ∀ s, run_summary r = Some s → timed_out s = false →
             code (run_status r) ≠ kTimedOut.
Proof.
  split; [apply scenario_wf|].
  destruct (ChecksumData_complete
              (scenario_ksck kFetched 12345 [] []) scenario_options
              (scenario_env [(Status_OK, 42%N); (Status_OK, 42%N); (Status_OK, 42%N)]
                 false)
              (scenario_wf kFetched 12345)) as (r & Hr & Hs).
  exists r. split; [exact Hr|]. intros s Hsum Hnot.
  exact (proj2 (Hs s Hsum Hnot)).
Defined.

(** S4: two replicas of [abc] disagree. *)
Lemma ChecksumData_verdict_by_results_witness :
  snapshot_wf (cluster_ (scenario_ksck kFetched 12345 [] []))
  ∧ ∃ r, ChecksumData (scenario_ksck kFetched 12345 [] []) scenario_options
           (scenario_env
              [(Status_OK, 100%N); (Status_OK, 101%N); (Status_OK, 100%N)] false)
         = Ret r
         ∧ ∀ s, run_summary r = Some s →
             (num_mismatches (counters s) ≠ 0 ↔ disagree (checksums s)).
Proof.
  split; [apply scenario_wf|].
  destruct (ChecksumData_verdict_by_results
              (scenario_ksck kFetched 12345 [] []) scenario_options
              (scenario_env
                 [(Status_OK, 100%N); (Status_OK, 101%N); (Status_OK, 100%N)] false)
              (scenario_wf kFetched 12345)) as (r & Hr & Hs).
  exists r. split; [exact Hr|]. intros s Hsum.
  exact (proj1 (Hs s Hsum)).
Defined.

(** A table filter that does not match [t1]. *)
Lemma ChecksumData_not_found_iff_witness :
  snapshot_wf (cluster_ (scenario_ksck kFetched 12345 ["other*"] []))
  ∧ ∃ r, ChecksumData (scenario_ksck kFetched 12345 ["other*"] []) scenario_options
           (scenario_env [] false)
         = Ret r
         ∧ (code (run_status r) = kNotFound → run_scans r = []).
Proof.
  split; [apply scenario_wf|].
  destruct (ChecksumData_not_found_iff
              (scenario_ksck kFetched 12345 ["other*"] []) scenario_options
              (scenario_env [] false)
              (scenario_wf kFetched 12345)) as (r & Hr & _ & Hnf).
  exists r. split; [exact Hr|]. intros Hcode.
  exact (proj1 (proj2 (Hnf Hcode))).
Defined.

(** The master lists the replicas of [abc], and the directory of tablet
    servers is empty. *)
Lemma ChecksumData_unknown_server_witness :
  (scenario_tablet, scenario_table)
  ∈ selected {| cluster_ := {| tables := [scenario_table]; tablet_servers := ∅ |};
                table_filters_ := []; tablet_id_filters_ := [];
                check_replica_count_ := true |}
  ∧ {| ts_uuid := "u1"; is_leader := true; is_follower := false |}
    ∈ replicas scenario_tablet
  ∧ ChecksumData
      {| cluster_ := {| tables := [scenario_table]; tablet_servers := ∅ |};
         table_filters_ := []; tablet_id_filters_ := [];
         check_replica_count_ := true |}
      scenario_options (scenario_env [] false)
    = Die "FindOrDie: key not found".
Proof.
  assert ((scenario_tablet, scenario_table)
          ∈ selected {| cluster_ := {| tables := [scenario_table];
                                       tablet_servers := ∅ |};
                        table_filters_ := []; tablet_id_filters_ := [];
                        check_replica_count_ := true |}) as Hsel.
  { by left. }
  assert ({| ts_uuid := "u1"; is_leader := true; is_follower := false |}
          ∈ replicas scenario_tablet) as Hrep.
  { by left. }
  split; [exact Hsel|]. split; [exact Hrep|].
  exact (ChecksumData_unknown_server _ scenario_options (scenario_env [] false)
           scenario_tablet scenario_table
           {| ts_uuid := "u1"; is_leader := true; is_follower := false |}
           Hsel Hrep eq_refl).
Defined.
